(** * Comparators of [sdk/metric/metricdata/metricdatatest/comparisons.go]

    A shallow embedding of the comparator core of the metricdatatest
    package and the properties its specification states about it.

    Conventions of the embedding.
    - A Go function that may panic returns an [outcome]; [Panic] carries the
      panic message.
    - [int64], [int32] are integers ([Z]), [uint64] naturals ([N]); no
      arithmetic is done on them here, only [==].
    - [float64] is the Standard Library's specification of IEEE 754 binary
      floats; [SFeqb] is IEEE equality (a NaN differs from itself, the two
      zeros are equal), which is what Go's [==] computes.
    - [time.Time] is the instant it denotes, in nanoseconds since the epoch.
    - Packages this file imports but does not define ([attribute.Set],
      [resource.Resource], the [attribute.Value] struct comparison, the
      [fmt] verbs) are the fields of the class [External]. *)

From Stdlib Require Import ZArith NArith String Ascii List Bool Lia Permutation.
From Stdlib Require Import Floats.SpecFloat DecimalString Strings.Byte.
From stdpp Require Import base list strings.

Open Scope string_scope.
Open Scope list_scope.
Open Scope nat_scope.

(** ** Results of functions that may panic *)

Inductive outcome (A : Type) : Type :=
| Ok (a : A)
| Panic (msg : string).
Arguments Ok {A} a.
Arguments Panic {A} msg.

#[global] Instance outcome_ret : MRet outcome := fun A a => Ok a.
#[global] Instance outcome_bind : MBind outcome := fun A B f m =>
  match m with
  | Ok a => f a
  | Panic msg => Panic msg
  end.
#[global] Instance outcome_fmap : FMap outcome := fun A B f m =>
  match m with
  | Ok a => Ok (f a)
  | Panic msg => Panic msg
  end.

(** ** Go's [==] on the comparable types the comparators use *)

Abbreviation int64 := Z (only parsing).
Abbreviation int32 := Z (only parsing).
Abbreviation uint64 := N (only parsing).
Abbreviation float64 := spec_float (only parsing).
Abbreviation Time := Z (only parsing).

Class Comparable (T : Type) := go_eqb : T -> T -> bool.

#[global] Instance bool_comparable : Comparable bool := Bool.eqb.
#[global] Instance int64_comparable : Comparable Z := Z.eqb.
#[global] Instance uint64_comparable : Comparable N := N.eqb.
#[global] Instance float64_comparable : Comparable spec_float := SFeqb.
#[global] Instance string_comparable : Comparable string := String.eqb.
#[global] Instance byte_comparable : Comparable byte := Byte.eqb.

(** The type constraint [N int64 | float64]. [isNaN] is false on [int64]. *)
Class Number (N : Type) := {
  Number_comparable :: Comparable N;
  isNaN : N -> bool
}.

Definition float64_isNaN (f : float64) : bool :=
  match f with
  | S754_nan => true
  | _ => false
  end.

#[global] Instance int64_number : Number Z :=
  {| Number_comparable := Z.eqb; isNaN := fun _ => false |}.
#[global] Instance float64_number : Number spec_float :=
  {| Number_comparable := SFeqb; isNaN := float64_isNaN |}.

Definition Time_Equal (t u : Time) : bool := Z.eqb t u.
Definition UnixNano (t : Time) : int64 := t.

(** ** Package attribute: value kinds and key/value pairs *)

Module attribute.

Inductive Type_ : Set :=
| INVALID | BOOL | INT64 | FLOAT64 | STRING
| BOOLSLICE | INT64SLICE | FLOAT64SLICE | STRINGSLICE.

Definition Type_eqb (s t : Type_) : bool :=
  match s, t with
  | INVALID, INVALID | BOOL, BOOL | INT64, INT64 | FLOAT64, FLOAT64
  | STRING, STRING | BOOLSLICE, BOOLSLICE | INT64SLICE, INT64SLICE
  | FLOAT64SLICE, FLOAT64SLICE | STRINGSLICE, STRINGSLICE => true
  | _, _ => false
  end.

(** A [Value] is the zero value (kind INVALID) or was built by one of the
    eight constructors of the package. *)
Inductive Value : Type :=
| InvalidValue
| BoolValue (v : bool)
| Int64Value (v : int64)
| Float64Value (v : float64)
| StringValue (v : string)
| BoolSliceValue (v : list bool)
| Int64SliceValue (v : list int64)
| Float64SliceValue (v : list float64)
| StringSliceValue (v : list string).

Definition Type' (v : Value) : Type_ :=
  match v with
  | InvalidValue => INVALID
  | BoolValue _ => BOOL
  | Int64Value _ => INT64
  | Float64Value _ => FLOAT64
  | StringValue _ => STRING
  | BoolSliceValue _ => BOOLSLICE
  | Int64SliceValue _ => INT64SLICE
  | Float64SliceValue _ => FLOAT64SLICE
  | StringSliceValue _ => STRINGSLICE
  end.

(** The accessors. The comparators call each one only on a value of the
    matching kind; on another kind the zero value of the result stands
    for whatever the accessor returns. *)
Definition AsBool (v : Value) : bool :=
  match v with BoolValue b => b | _ => false end.
Definition AsInt64 (v : Value) : int64 :=
  match v with Int64Value z => z | _ => 0%Z end.
Definition AsFloat64 (v : Value) : float64 :=
  match v with Float64Value f => f | _ => S754_zero false end.
Definition AsString (v : Value) : string :=
  match v with StringValue s => s | _ => "" end.
Definition AsBoolSlice (v : Value) : list bool :=
  match v with BoolSliceValue l => l | _ => [] end.
Definition AsInt64Slice (v : Value) : list int64 :=
  match v with Int64SliceValue l => l | _ => [] end.
Definition AsFloat64Slice (v : Value) : list float64 :=
  match v with Float64SliceValue l => l | _ => [] end.
Definition AsStringSlice (v : Value) : list string :=
  match v with StringSliceValue l => l | _ => [] end.

Definition Key : Type := string.

Record KeyValue : Type := { Key_ : Key; Value_ : Value }.

End attribute.

(** ** What the file takes from other packages *)

Class External : Type := {
  (** [attribute.Set] with its methods [Equals], [Value] (the Go method
      returns a value and a presence flag) and [Encoded] at the default
      encoder, and the constructor [attribute.NewSet]. *)
  Set_ : Type;
  Set_Equals : Set_ -> Set_ -> bool;
  Set_Value : Set_ -> attribute.Key -> option attribute.Value;
  Set_Encoded : Set_ -> string;
  NewSet : list attribute.KeyValue -> Set_;
  (** [==] on the struct [attribute.Value], and its method [Emit]. *)
  Value_eqb : attribute.Value -> attribute.Value -> bool;
  Emit : attribute.Value -> string;
  (** [*resource.Resource] with its method [Equal]. *)
  Resource : Type;
  Resource_Equal : Resource -> Resource -> bool;
  (** The verbs [%v] and [%#v] of package fmt. *)
  fmt_v : forall T : Type, T -> string;
  fmt_sharp_v : forall T : Type, T -> string
}.

(** ** Package metricdata and instrumentation: the trees compared *)

Module Extrema.
Record t (N : Type) : Type := { value : N; valid : bool }.
Arguments value {N}.
Arguments valid {N}.
(** The method [Value] returns the value and whether it was set. *)
Definition Value {N} (e : t N) : N * bool := (value e, valid e).
End Extrema.

Module Exemplar.
Record t (N : Type) : Type := {
  FilteredAttributes : list attribute.KeyValue;
  Time : Time;
  Value : N;
  SpanID : list byte;
  TraceID : list byte
}.
Arguments FilteredAttributes {N}.
Arguments Time {N}.
Arguments Value {N}.
Arguments SpanID {N}.
Arguments TraceID {N}.
End Exemplar.

Module DataPoint.
Record t {E : External} (N : Type) : Type := {
  Attributes : Set_;
  StartTime : Time;
  Time : Time;
  Value : N;
  Exemplars : list (Exemplar.t N)
}.
Arguments Attributes {E N}.
Arguments StartTime {E N}.
Arguments Time {E N}.
Arguments Value {E N}.
Arguments Exemplars {E N}.
End DataPoint.

Module HistogramDataPoint.
Record t {E : External} (N : Type) : Type := {
  Attributes : Set_;
  StartTime : Time;
  Time : Time;
  Count : uint64;
  Bounds : list float64;
  BucketCounts : list uint64;
  Min : Extrema.t N;
  Max : Extrema.t N;
  Sum : N;
  Exemplars : list (Exemplar.t N)
}.
Arguments Attributes {E N}.
Arguments StartTime {E N}.
Arguments Time {E N}.
Arguments Count {E N}.
Arguments Bounds {E N}.
Arguments BucketCounts {E N}.
Arguments Min {E N}.
Arguments Max {E N}.
Arguments Sum {E N}.
Arguments Exemplars {E N}.
End HistogramDataPoint.

Module ExponentialBucket.
Record t : Type := { Offset : int32; Counts : list uint64 }.
End ExponentialBucket.

Module ExponentialHistogramDataPoint.
Record t {E : External} (N : Type) : Type := {
  Attributes : Set_;
  StartTime : Time;
  Time : Time;
  Count : uint64;
  Min : Extrema.t N;
  Max : Extrema.t N;
  Sum : N;
  Scale : int32;
  ZeroCount : uint64;
  PositiveBucket : ExponentialBucket.t;
  NegativeBucket : ExponentialBucket.t;
  Exemplars : list (Exemplar.t N)
}.
Arguments Attributes {E N}.
Arguments StartTime {E N}.
Arguments Time {E N}.
Arguments Count {E N}.
Arguments Min {E N}.
Arguments Max {E N}.
Arguments Sum {E N}.
Arguments Scale {E N}.
Arguments ZeroCount {E N}.
Arguments PositiveBucket {E N}.
Arguments NegativeBucket {E N}.
Arguments Exemplars {E N}.
End ExponentialHistogramDataPoint.

(** [Temporality] is a [uint8]. *)
Abbreviation Temporality := N (only parsing).

Module Gauge.
Record t {E : External} (N : Type) : Type := {
  DataPoints : list (DataPoint.t N)
}.
Arguments DataPoints {E N}.
End Gauge.

Module Sum.
Record t {E : External} (N : Type) : Type := {
  DataPoints : list (DataPoint.t N);
  Temporality : Temporality;
  IsMonotonic : bool
}.
Arguments DataPoints {E N}.
Arguments Temporality {E N}.
Arguments IsMonotonic {E N}.
End Sum.

Module Histogram.
Record t {E : External} (N : Type) : Type := {
  DataPoints : list (HistogramDataPoint.t N);
  Temporality : Temporality
}.
Arguments DataPoints {E N}.
Arguments Temporality {E N}.
End Histogram.

Module ExponentialHistogram.
Record t {E : External} (N : Type) : Type := {
  DataPoints : list (ExponentialHistogramDataPoint.t N);
  Temporality : Temporality
}.
Arguments DataPoints {E N}.
Arguments Temporality {E N}.
End ExponentialHistogram.

(** The dynamic value of the interface [metricdata.Aggregation]: one of the
    eight shapes the comparators know, or a value of another type that
    implements the interface ([OtherAggregation], with the name of its
    type). The interface value itself is an [option]: [None] is [nil]. *)
Inductive Aggregation {E : External} : Type :=
| GaugeInt64 (v : Gauge.t int64)
| GaugeFloat64 (v : Gauge.t float64)
| SumInt64 (v : Sum.t int64)
| SumFloat64 (v : Sum.t float64)
| HistogramInt64 (v : Histogram.t int64)
| HistogramFloat64 (v : Histogram.t float64)
| ExponentialHistogramInt64 (v : ExponentialHistogram.t int64)
| ExponentialHistogramFloat64 (v : ExponentialHistogram.t float64)
| OtherAggregation (typeName : string).

Module Scope.
Record t : Type := { Name : string; Version : string; SchemaURL : string }.
End Scope.

Module Metrics.
Record t {E : External} : Type := {
  Name : string;
  Description : string;
  Unit : string;
  Data : option Aggregation
}.
End Metrics.

Module ScopeMetrics.
Record t {E : External} : Type := {
  Scope : Scope.t;
  Metrics : list Metrics.t
}.
End ScopeMetrics.

Module ResourceMetrics.
Record t {E : External} : Type := {
  Resource : Resource;
  ScopeMetrics : list ScopeMetrics.t
}.
End ResourceMetrics.

(** The options of a comparison (config.go). *)
Record config : Type := {
  ignoreTimestamp : bool;
  ignoreExemplars : bool;
  ignoreValue : bool
}.

(** ** The comparators *)

Section Comparisons.
Context {E : External}.

Definition nl : string := String (ascii_of_nat 10) EmptyString.

(** [fmt.Sprintf("%d", n)] for an index [n]. *)
Definition fmt_d (n : nat) : string := NilZero.string_of_uint (Nat.to_uint n).

(** The statement [if c { reasons = append(reasons, s) }]. *)
Definition appendIf (c : bool) (reasons : list string) (s : string) : list string :=
  if c then reasons ++ [s] else reasons.

Definition notEqualStr {T : Type} (prefix : string) (expected actual : T) : string :=
  prefix +:+ " not equal:" +:+ nl +:+ "expected: " +:+ fmt_v T expected
         +:+ nl +:+ "actual: " +:+ fmt_v T actual.

(** [for i, v := range a { if v != b[i] { return false } }]; the index is in
    range because the lengths were compared first. *)
Fixpoint equalSlices_loop {T} `{Comparable T} (a b : list T) (i : nat) : bool :=
  match a with
  | [] => true
  | v :: a' =>
      match b !! i with
      | Some bi => if negb (go_eqb v bi) then false else equalSlices_loop a' b (S i)
      | None => false
      end
  end.

Definition equalSlices {T} `{Comparable T} (a b : list T) : bool :=
  if negb (length a =? length b)%nat then false else equalSlices_loop a b 0.

Definition eqExtrema {N} `{Number N} (a b : Extrema.t N) : bool :=
  let '(aV, aOk) := Extrema.Value a in
  let '(bV, bOk) := Extrema.Value b in
  if negb aOk || negb bOk then Bool.eqb aOk bOk else go_eqb aV bV.

Definition equalExtrema {N} `{Number N} (a b : Extrema.t N) (_ : config) : list string :=
  let reasons := [] in
  let reasons := appendIf (negb (eqExtrema a b)) reasons (notEqualStr "Extrema" a b) in
  reasons.

Import attribute.

Fixpoint equalKeyValue_loop (a b : list KeyValue) (i : nat) : outcome bool :=
  match a with
  | [] => Ok true
  | v :: a' =>
      match b !! i with
      | None => Panic "index out of range"
      | Some bi =>
          if negb (String.eqb (Key_ v) (Key_ bi)) then Ok false
          else if negb (Type_eqb (Type' (Value_ v)) (Type' (Value_ bi))) then Ok false
          else
            match Type' (Value_ v) with
            | BOOL =>
                if negb (go_eqb (AsBool (Value_ v)) (AsBool (Value_ bi)))
                then Ok false else equalKeyValue_loop a' b (S i)
            | INT64 =>
                if negb (go_eqb (AsInt64 (Value_ v)) (AsInt64 (Value_ bi)))
                then Ok false else equalKeyValue_loop a' b (S i)
            | FLOAT64 =>
                if negb (go_eqb (AsFloat64 (Value_ v)) (AsFloat64 (Value_ bi)))
                then Ok false else equalKeyValue_loop a' b (S i)
            | STRING =>
                if negb (go_eqb (AsString (Value_ v)) (AsString (Value_ bi)))
                then Ok false else equalKeyValue_loop a' b (S i)
            | BOOLSLICE =>
                if negb (equalSlices (AsBoolSlice (Value_ v)) (AsBoolSlice (Value_ bi)))
                then Ok false else equalKeyValue_loop a' b (S i)
            | INT64SLICE =>
                if negb (equalSlices (AsInt64Slice (Value_ v)) (AsInt64Slice (Value_ bi)))
                then Ok false else equalKeyValue_loop a' b (S i)
            | FLOAT64SLICE =>
                if negb (equalSlices (AsFloat64Slice (Value_ v)) (AsFloat64Slice (Value_ bi)))
                then Ok false else equalKeyValue_loop a' b (S i)
            | STRINGSLICE =>
                if negb (equalSlices (AsStringSlice (Value_ v)) (AsStringSlice (Value_ bi)))
                then Ok false else equalKeyValue_loop a' b (S i)
            | INVALID =>
                Panic ("unknown attribute value type: "
                         +:+ fmt_v Type_ (Type' (Value_ v)))
            end
      end
  end.

Definition equalKeyValue (a b : list KeyValue) : outcome bool :=
  if negb (length a =? length b)%nat then Ok false else equalKeyValue_loop a b 0.

Definition equalExemplars {N} `{Number N} (a b : Exemplar.t N) (cfg : config)
  : outcome (list string) :=
  let reasons : list string := [] in
  eq ← equalKeyValue (Exemplar.FilteredAttributes a) (Exemplar.FilteredAttributes b);
  let reasons :=
    appendIf (negb eq) reasons
      (notEqualStr "FilteredAttributes"
         (Exemplar.FilteredAttributes a) (Exemplar.FilteredAttributes b)) in
  let reasons :=
    if negb (ignoreTimestamp cfg) then
      appendIf (negb (Time_Equal (Exemplar.Time a) (Exemplar.Time b))) reasons
        (notEqualStr "Time" (UnixNano (Exemplar.Time a)) (UnixNano (Exemplar.Time b)))
    else reasons in
  let reasons :=
    if negb (ignoreValue cfg) then
      appendIf (negb (go_eqb (Exemplar.Value a) (Exemplar.Value b))) reasons
        (notEqualStr "Value" (Exemplar.Value a) (Exemplar.Value b))
    else reasons in
  let reasons :=
    appendIf (negb (equalSlices (Exemplar.SpanID a) (Exemplar.SpanID b))) reasons
      (notEqualStr "SpanID" (Exemplar.SpanID a) (Exemplar.SpanID b)) in
  let reasons :=
    appendIf (negb (equalSlices (Exemplar.TraceID a) (Exemplar.TraceID b))) reasons
      (notEqualStr "TraceID" (Exemplar.TraceID a) (Exemplar.TraceID b)) in
  mret reasons.

(** *** The multiset matcher *)

(** The inner loop [for j := 0; j < len(b); j++] of [diffSlices] for one
    element [ai], started at [j] with [n] iterations left; it returns the
    flags and [found]. *)
Fixpoint diffSlices_scan {T} (equal : T -> T -> outcome bool) (ai : T) (b : list T)
    (visited : list bool) (j n : nat) : outcome (list bool * bool) :=
  match n with
  | O => Ok (visited, false)
  | S n' =>
      match (visited !! j : option bool), (b !! j : option T) with
      | Some vj, Some bj =>
          if vj then diffSlices_scan equal ai b visited (S j) n'
          else
            e ← equal ai bj;
            if (e : bool) then Ok (<[j:=true]> visited, true)
            else diffSlices_scan equal ai b visited (S j) n'
      | _, _ => Panic "index out of range"
      end
  end.

(** The outer loop [for i := 0; i < len(a); i++]. *)
Fixpoint diffSlices_each {T} (equal : T -> T -> outcome bool) (a b : list T)
    (visited : list bool) (extraA : list T) : outcome (list bool * list T) :=
  match a with
  | [] => Ok (visited, extraA)
  | ai :: a' =>
      '(visited, found) ← diffSlices_scan equal ai b visited 0 (length b);
      let extraA := if negb found then extraA ++ [ai] else extraA in
      diffSlices_each equal a' b visited extraA
  end.

(** The last loop, collecting the elements of [b] never visited. *)
Fixpoint diffSlices_rest {T} (b : list T) (visited : list bool) (j n : nat)
    (extraB : list T) : outcome (list T) :=
  match n with
  | O => Ok extraB
  | S n' =>
      match (visited !! j : option bool), (b !! j : option T) with
      | Some vj, Some bj =>
          if vj then diffSlices_rest b visited (S j) n' extraB
          else diffSlices_rest b visited (S j) n' (extraB ++ [bj])
      | _, _ => Panic "index out of range"
      end
  end.

Definition diffSlices {T} (a b : list T) (equal : T -> T -> outcome bool)
  : outcome (list T * list T) :=
  let visited := replicate (length b) false in
  '(visited, extraA) ← diffSlices_each equal a b visited [];
  extraB ← diffSlices_rest b visited 0 (length b) [];
  mret (extraA, extraB).

Definition compareDiff {T} (extraExpected extraActual : list T) : string :=
  if (length extraExpected =? 0)%nat && (length extraActual =? 0)%nat then ""
  else
    let formatter := fun v : T => fmt_sharp_v T v in
    let msg := "" in
    let msg :=
      if (0 <? length extraExpected)%nat then
        fold_left (fun msg v => msg +:+ (formatter v +:+ nl)) extraExpected
          (msg +:+ ("missing expected values:" +:+ nl))
      else msg in
    let msg :=
      if (0 <? length extraActual)%nat then
        fold_left (fun msg v => msg +:+ (formatter v +:+ nl)) extraActual
          (msg +:+ ("unexpected additional values:" +:+ nl))
      else msg in
    msg.

(** *** Data points *)

Definition equalExponentialBuckets (a b : ExponentialBucket.t) (_ : config) : list string :=
  let reasons : list string := [] in
  let reasons :=
    appendIf (negb (go_eqb (ExponentialBucket.Offset a) (ExponentialBucket.Offset b)))
      reasons
      (notEqualStr "Offset" (ExponentialBucket.Offset a) (ExponentialBucket.Offset b)) in
  let reasons :=
    appendIf (negb (equalSlices (ExponentialBucket.Counts a) (ExponentialBucket.Counts b)))
      reasons
      (notEqualStr "Counts" (ExponentialBucket.Counts a) (ExponentialBucket.Counts b)) in
  reasons.

Definition equalDataPoints {N} `{Number N} (a b : DataPoint.t N) (cfg : config)
  : outcome (list string) :=
  let reasons : list string := [] in
  let reasons :=
    appendIf (negb (Set_Equals (DataPoint.Attributes a) (DataPoint.Attributes b))) reasons
      (notEqualStr "Attributes"
         (Set_Encoded (DataPoint.Attributes a)) (Set_Encoded (DataPoint.Attributes b))) in
  let reasons :=
    if negb (ignoreTimestamp cfg) then
      let reasons :=
        appendIf (negb (Time_Equal (DataPoint.StartTime a) (DataPoint.StartTime b))) reasons
          (notEqualStr "StartTime"
             (UnixNano (DataPoint.StartTime a)) (UnixNano (DataPoint.StartTime b))) in
      let reasons :=
        appendIf (negb (Time_Equal (DataPoint.Time a) (DataPoint.Time b))) reasons
          (notEqualStr "Time" (UnixNano (DataPoint.Time a)) (UnixNano (DataPoint.Time b))) in
      reasons
    else reasons in
  let reasons :=
    if negb (ignoreValue cfg) then
      appendIf (negb (go_eqb (DataPoint.Value a) (DataPoint.Value b))) reasons
        (notEqualStr "Value" (DataPoint.Value a) (DataPoint.Value b))
    else reasons in
  if negb (ignoreExemplars cfg) then
    '(extraA, extraB) ←
      diffSlices (DataPoint.Exemplars a) (DataPoint.Exemplars b)
        (fun a b => r ← equalExemplars a b cfg; mret (length r =? 0));
    let r := compareDiff extraA extraB in
    let reasons :=
      appendIf (negb (String.eqb r "")) reasons ("Exemplars not equal:" +:+ nl +:+ r) in
    mret reasons
  else mret reasons.

Definition equalHistogramDataPoints {N} `{Number N} (a b : HistogramDataPoint.t N)
    (cfg : config) : outcome (list string) :=
  let reasons : list string := [] in
  let reasons :=
    appendIf
      (negb (Set_Equals (HistogramDataPoint.Attributes a) (HistogramDataPoint.Attributes b)))
      reasons
      (notEqualStr "Attributes"
         (Set_Encoded (HistogramDataPoint.Attributes a))
         (Set_Encoded (HistogramDataPoint.Attributes b))) in
  let reasons :=
    if negb (ignoreTimestamp cfg) then
      let reasons :=
        appendIf
          (negb (Time_Equal (HistogramDataPoint.StartTime a) (HistogramDataPoint.StartTime b)))
          reasons
          (notEqualStr "StartTime"
             (UnixNano (HistogramDataPoint.StartTime a))
             (UnixNano (HistogramDataPoint.StartTime b))) in
      let reasons :=
        appendIf (negb (Time_Equal (HistogramDataPoint.Time a) (HistogramDataPoint.Time b)))
          reasons
          (notEqualStr "Time"
             (UnixNano (HistogramDataPoint.Time a)) (UnixNano (HistogramDataPoint.Time b))) in
      reasons
    else reasons in
  let reasons :=
    if negb (ignoreValue cfg) then
      let reasons :=
        appendIf (negb (go_eqb (HistogramDataPoint.Count a) (HistogramDataPoint.Count b)))
          reasons
          (notEqualStr "Count" (HistogramDataPoint.Count a) (HistogramDataPoint.Count b)) in
      let reasons :=
        appendIf
          (negb (equalSlices (HistogramDataPoint.Bounds a) (HistogramDataPoint.Bounds b)))
          reasons
          (notEqualStr "Bounds" (HistogramDataPoint.Bounds a) (HistogramDataPoint.Bounds b)) in
      let reasons :=
        appendIf
          (negb (equalSlices (HistogramDataPoint.BucketCounts a)
                   (HistogramDataPoint.BucketCounts b)))
          reasons
          (notEqualStr "BucketCounts"
             (HistogramDataPoint.BucketCounts a) (HistogramDataPoint.BucketCounts b)) in
      let reasons :=
        appendIf (negb (eqExtrema (HistogramDataPoint.Min a) (HistogramDataPoint.Min b)))
          reasons
          (notEqualStr "Min" (HistogramDataPoint.Min a) (HistogramDataPoint.Min b)) in
      let reasons :=
        appendIf (negb (eqExtrema (HistogramDataPoint.Max a) (HistogramDataPoint.Max b)))
          reasons
          (notEqualStr "Max" (HistogramDataPoint.Max a) (HistogramDataPoint.Max b)) in
      let reasons :=
        appendIf (negb (go_eqb (HistogramDataPoint.Sum a) (HistogramDataPoint.Sum b)))
          reasons
          (notEqualStr "Sum" (HistogramDataPoint.Sum a) (HistogramDataPoint.Sum b)) in
      reasons
    else reasons in
  if negb (ignoreExemplars cfg) then
    '(extraA, extraB) ←
      diffSlices (HistogramDataPoint.Exemplars a) (HistogramDataPoint.Exemplars b)
        (fun a b => r ← equalExemplars a b cfg; mret (length r =? 0));
    let r := compareDiff extraA extraB in
    let reasons :=
      appendIf (negb (String.eqb r "")) reasons ("Exemplars not equal:" +:+ nl +:+ r) in
    mret reasons
  else mret reasons.

Definition equalExponentialHistogramDataPoints {N} `{Number N}
    (a b : ExponentialHistogramDataPoint.t N) (cfg : config) : outcome (list string) :=
  let reasons : list string := [] in
  let reasons :=
    appendIf
      (negb (Set_Equals (ExponentialHistogramDataPoint.Attributes a)
               (ExponentialHistogramDataPoint.Attributes b)))
      reasons
      (notEqualStr "Attributes"
         (Set_Encoded (ExponentialHistogramDataPoint.Attributes a))
         (Set_Encoded (ExponentialHistogramDataPoint.Attributes b))) in
  let reasons :=
    if negb (ignoreTimestamp cfg) then
      let reasons :=
        appendIf
          (negb (Time_Equal (ExponentialHistogramDataPoint.StartTime a)
                   (ExponentialHistogramDataPoint.StartTime b)))
          reasons
          (notEqualStr "StartTime"
             (UnixNano (ExponentialHistogramDataPoint.StartTime a))
             (UnixNano (ExponentialHistogramDataPoint.StartTime b))) in
      let reasons :=
        appendIf
          (negb (Time_Equal (ExponentialHistogramDataPoint.Time a)
                   (ExponentialHistogramDataPoint.Time b)))
          reasons
          (notEqualStr "Time"
             (UnixNano (ExponentialHistogramDataPoint.Time a))
             (UnixNano (ExponentialHistogramDataPoint.Time b))) in
      reasons
    else reasons in
  let reasons :=
    if negb (ignoreValue cfg) then
      let reasons :=
        appendIf
          (negb (go_eqb (ExponentialHistogramDataPoint.Count a)
                   (ExponentialHistogramDataPoint.Count b)))
          reasons
          (notEqualStr "Count" (ExponentialHistogramDataPoint.Count a)
             (ExponentialHistogramDataPoint.Count b)) in
      let reasons :=
        appendIf
          (negb (eqExtrema (ExponentialHistogramDataPoint.Min a)
                   (ExponentialHistogramDataPoint.Min b)))
          reasons
          (notEqualStr "Min" (ExponentialHistogramDataPoint.Min a)
             (ExponentialHistogramDataPoint.Min b)) in
      let reasons :=
        appendIf
          (negb (eqExtrema (ExponentialHistogramDataPoint.Max a)
                   (ExponentialHistogramDataPoint.Max b)))
          reasons
          (notEqualStr "Max" (ExponentialHistogramDataPoint.Max a)
             (ExponentialHistogramDataPoint.Max b)) in
      let reasons :=
        appendIf
          (negb (go_eqb (ExponentialHistogramDataPoint.Sum a)
                   (ExponentialHistogramDataPoint.Sum b)))
          reasons
          (notEqualStr "Sum" (ExponentialHistogramDataPoint.Sum a)
             (ExponentialHistogramDataPoint.Sum b)) in
      let reasons :=
        appendIf
          (negb (go_eqb (ExponentialHistogramDataPoint.Scale a)
                   (ExponentialHistogramDataPoint.Scale b)))
          reasons
          (notEqualStr "Scale" (ExponentialHistogramDataPoint.Scale a)
             (ExponentialHistogramDataPoint.Scale b)) in
      let reasons :=
        appendIf
          (negb (go_eqb (ExponentialHistogramDataPoint.ZeroCount a)
                   (ExponentialHistogramDataPoint.ZeroCount b)))
          reasons
          (notEqualStr "ZeroCount" (ExponentialHistogramDataPoint.ZeroCount a)
             (ExponentialHistogramDataPoint.ZeroCount b)) in
      let r :=
        equalExponentialBuckets (ExponentialHistogramDataPoint.PositiveBucket a)
          (ExponentialHistogramDataPoint.PositiveBucket b) cfg in
      let reasons := if 0 <? length r then reasons ++ r else reasons in
      let r :=
        equalExponentialBuckets (ExponentialHistogramDataPoint.NegativeBucket a)
          (ExponentialHistogramDataPoint.NegativeBucket b) cfg in
      let reasons := if 0 <? length r then reasons ++ r else reasons in
      reasons
    else reasons in
  if negb (ignoreExemplars cfg) then
    '(extraA, extraB) ←
      diffSlices (ExponentialHistogramDataPoint.Exemplars a)
        (ExponentialHistogramDataPoint.Exemplars b)
        (fun a b => r ← equalExemplars a b cfg; mret (length r =? 0));
    let r := compareDiff extraA extraB in
    let reasons :=
      appendIf (negb (String.eqb r "")) reasons ("Exemplars not equal:" +:+ nl +:+ r) in
    mret reasons
  else mret reasons.

(** *** Aggregations *)

Definition equalGauges {N} `{Number N} (a b : Gauge.t N) (cfg : config)
  : outcome (list string) :=
  let reasons : list string := [] in
  '(extraA, extraB) ←
    diffSlices (Gauge.DataPoints a) (Gauge.DataPoints b)
      (fun a b => r ← equalDataPoints a b cfg; mret (length r =? 0));
  let r := compareDiff extraA extraB in
  let reasons :=
    appendIf (negb (String.eqb r "")) reasons ("Gauge DataPoints not equal:" +:+ nl +:+ r) in
  mret reasons.

Definition equalSums {N} `{Number N} (a b : Sum.t N) (cfg : config)
  : outcome (list string) :=
  let reasons : list string := [] in
  let reasons :=
    appendIf (negb (go_eqb (Sum.Temporality a) (Sum.Temporality b))) reasons
      (notEqualStr "Temporality" (Sum.Temporality a) (Sum.Temporality b)) in
  let reasons :=
    appendIf (negb (go_eqb (Sum.IsMonotonic a) (Sum.IsMonotonic b))) reasons
      (notEqualStr "IsMonotonic" (Sum.IsMonotonic a) (Sum.IsMonotonic b)) in
  '(extraA, extraB) ←
    diffSlices (Sum.DataPoints a) (Sum.DataPoints b)
      (fun a b => r ← equalDataPoints a b cfg; mret (length r =? 0));
  let r := compareDiff extraA extraB in
  let reasons :=
    appendIf (negb (String.eqb r "")) reasons ("Sum DataPoints not equal:" +:+ nl +:+ r) in
  mret reasons.

Definition equalHistograms {N} `{Number N} (a b : Histogram.t N) (cfg : config)
  : outcome (list string) :=
  let reasons : list string := [] in
  let reasons :=
    appendIf (negb (go_eqb (Histogram.Temporality a) (Histogram.Temporality b))) reasons
      (notEqualStr "Temporality" (Histogram.Temporality a) (Histogram.Temporality b)) in
  '(extraA, extraB) ←
    diffSlices (Histogram.DataPoints a) (Histogram.DataPoints b)
      (fun a b => r ← equalHistogramDataPoints a b cfg; mret (length r =? 0));
  let r := compareDiff extraA extraB in
  let reasons :=
    appendIf (negb (String.eqb r "")) reasons
      ("Histogram DataPoints not equal:" +:+ nl +:+ r) in
  mret reasons.

Definition equalExponentialHistograms {N} `{Number N} (a b : ExponentialHistogram.t N)
    (cfg : config) : outcome (list string) :=
  let reasons : list string := [] in
  let reasons :=
    appendIf
      (negb (go_eqb (ExponentialHistogram.Temporality a) (ExponentialHistogram.Temporality b)))
      reasons
      (notEqualStr "Temporality"
         (ExponentialHistogram.Temporality a) (ExponentialHistogram.Temporality b)) in
  '(extraA, extraB) ←
    diffSlices (ExponentialHistogram.DataPoints a) (ExponentialHistogram.DataPoints b)
      (fun a b => r ← equalExponentialHistogramDataPoints a b cfg; mret (length r =? 0));
  let r := compareDiff extraA extraB in
  let reasons :=
    appendIf (negb (String.eqb r "")) reasons
      ("Histogram DataPoints not equal:" +:+ nl +:+ r) in
  mret reasons.

(** The dynamic type of an aggregation, as [reflect.TypeOf] and the verb
    [%T] see it. *)
Inductive reflectType : Type :=
| TGaugeInt64 | TGaugeFloat64 | TSumInt64 | TSumFloat64
| THistogramInt64 | THistogramFloat64
| TExponentialHistogramInt64 | TExponentialHistogramFloat64
| TOther (name : string).

Definition TypeOf (a : Aggregation) : reflectType :=
  match a with
  | GaugeInt64 _ => TGaugeInt64
  | GaugeFloat64 _ => TGaugeFloat64
  | SumInt64 _ => TSumInt64
  | SumFloat64 _ => TSumFloat64
  | HistogramInt64 _ => THistogramInt64
  | HistogramFloat64 _ => THistogramFloat64
  | ExponentialHistogramInt64 _ => TExponentialHistogramInt64
  | ExponentialHistogramFloat64 _ => TExponentialHistogramFloat64
  | OtherAggregation name => TOther name
  end.

Definition reflectType_eqb (s t : reflectType) : bool :=
  match s, t with
  | TGaugeInt64, TGaugeInt64 | TGaugeFloat64, TGaugeFloat64
  | TSumInt64, TSumInt64 | TSumFloat64, TSumFloat64
  | THistogramInt64, THistogramInt64 | THistogramFloat64, THistogramFloat64
  | TExponentialHistogramInt64, TExponentialHistogramInt64
  | TExponentialHistogramFloat64, TExponentialHistogramFloat64 => true
  | TOther m, TOther n => String.eqb m n
  | _, _ => false
  end.

Definition fmt_T (t : reflectType) : string :=
  match t with
  | TGaugeInt64 => "metricdata.Gauge[int64]"
  | TGaugeFloat64 => "metricdata.Gauge[float64]"
  | TSumInt64 => "metricdata.Sum[int64]"
  | TSumFloat64 => "metricdata.Sum[float64]"
  | THistogramInt64 => "metricdata.Histogram[int64]"
  | THistogramFloat64 => "metricdata.Histogram[float64]"
  | TExponentialHistogramInt64 => "metricdata.ExponentialHistogram[int64]"
  | TExponentialHistogramFloat64 => "metricdata.ExponentialHistogram[float64]"
  | TOther name => name
  end.

(** The statements [reasons = append(reasons, head); reasons = append(reasons, r...)]
    under [if len(r) > 0]. *)
Definition appendUnder (r : list string) (reasons : list string) (head : string)
  : list string :=
  if 0 <? length r then (reasons ++ [head]) ++ r else reasons.

(** [a] and [b] are interface values; [None] is [nil]. In the last case the
    type switch is on [va] and each [vb.(T)] is a type assertion. *)
Definition equalAggregations (a b : option Aggregation) (cfg : config)
  : outcome (list string) :=
  let reasons : list string := [] in
  match a, b with
  | None, None => mret reasons
  | None, Some _ | Some _, None => mret [notEqualStr "Aggregation" a b]
  | Some va, Some vb =>
      if negb (reflectType_eqb (TypeOf va) (TypeOf vb)) then
        mret ["Aggregation types not equal:" +:+ nl +:+ "expected: " +:+ fmt_T (TypeOf va)
                +:+ nl +:+ "actual: " +:+ fmt_T (TypeOf vb)]
      else
        match va with
        | GaugeInt64 v =>
            match vb with
            | GaugeInt64 w =>
                r ← equalGauges v w cfg;
                mret (appendUnder r reasons "Gauge[int64] not equal:")
            | _ => Panic "interface conversion"
            end
        | GaugeFloat64 v =>
            match vb with
            | GaugeFloat64 w =>
                r ← equalGauges v w cfg;
                mret (appendUnder r reasons "Gauge[float64] not equal:")
            | _ => Panic "interface conversion"
            end
        | SumInt64 v =>
            match vb with
            | SumInt64 w =>
                r ← equalSums v w cfg;
                mret (appendUnder r reasons "Sum[int64] not equal:")
            | _ => Panic "interface conversion"
            end
        | SumFloat64 v =>
            match vb with
            | SumFloat64 w =>
                r ← equalSums v w cfg;
                mret (appendUnder r reasons "Sum[float64] not equal:")
            | _ => Panic "interface conversion"
            end
        | HistogramInt64 v =>
            match vb with
            | HistogramInt64 w =>
                r ← equalHistograms v w cfg;
                mret (appendUnder r reasons "Histogram not equal:")
            | _ => Panic "interface conversion"
            end
        | HistogramFloat64 v =>
            match vb with
            | HistogramFloat64 w =>
                r ← equalHistograms v w cfg;
                mret (appendUnder r reasons "Histogram not equal:")
            | _ => Panic "interface conversion"
            end
        | ExponentialHistogramInt64 v =>
            match vb with
            | ExponentialHistogramInt64 w =>
                r ← equalExponentialHistograms v w cfg;
                mret (appendUnder r reasons "ExponentialHistogram not equal:")
            | _ => Panic "interface conversion"
            end
        | ExponentialHistogramFloat64 v =>
            match vb with
            | ExponentialHistogramFloat64 w =>
                r ← equalExponentialHistograms v w cfg;
                mret (appendUnder r reasons "ExponentialHistogram not equal:")
            | _ => Panic "interface conversion"
            end
        | OtherAggregation _ =>
            mret (reasons ++ ["Aggregation of unknown types " +:+ fmt_T (TypeOf va)])
        end
  end.

(** *** Metrics, ScopeMetrics, ResourceMetrics *)

Definition equalMetrics (a b : Metrics.t) (cfg : config) : outcome (list string) :=
  let reasons : list string := [] in
  let reasons :=
    appendIf (negb (go_eqb (Metrics.Name a) (Metrics.Name b))) reasons
      (notEqualStr "Name" (Metrics.Name a) (Metrics.Name b)) in
  let reasons :=
    appendIf (negb (go_eqb (Metrics.Description a) (Metrics.Description b))) reasons
      (notEqualStr "Description" (Metrics.Description a) (Metrics.Description b)) in
  let reasons :=
    appendIf (negb (go_eqb (Metrics.Unit a) (Metrics.Unit b))) reasons
      (notEqualStr "Unit" (Metrics.Unit a) (Metrics.Unit b)) in
  r ← equalAggregations (Metrics.Data a) (Metrics.Data b) cfg;
  mret (appendUnder r reasons "Metrics Data not equal:").

(** [==] on the struct [instrumentation.Scope]. *)
Definition Scope_eqb (a b : Scope.t) : bool :=
  String.eqb (Scope.Name a) (Scope.Name b)
  && String.eqb (Scope.Version a) (Scope.Version b)
  && String.eqb (Scope.SchemaURL a) (Scope.SchemaURL b).

Definition equalScopeMetrics (a b : ScopeMetrics.t) (cfg : config)
  : outcome (list string) :=
  let reasons : list string := [] in
  let reasons :=
    appendIf (negb (Scope_eqb (ScopeMetrics.Scope a) (ScopeMetrics.Scope b))) reasons
      (notEqualStr "Scope" (ScopeMetrics.Scope a) (ScopeMetrics.Scope b)) in
  '(extraA, extraB) ←
    diffSlices (ScopeMetrics.Metrics a) (ScopeMetrics.Metrics b)
      (fun a b => r ← equalMetrics a b cfg; mret (length r =? 0));
  let r := compareDiff extraA extraB in
  let reasons :=
    appendIf (negb (String.eqb r "")) reasons
      ("ScopeMetrics Metrics not equal:" +:+ nl +:+ r) in
  mret reasons.

Definition equalResourceMetrics (a b : ResourceMetrics.t) (cfg : config)
  : outcome (list string) :=
  let reasons : list string := [] in
  let reasons :=
    appendIf (negb (Resource_Equal (ResourceMetrics.Resource a) (ResourceMetrics.Resource b)))
      reasons
      (notEqualStr "Resources" (ResourceMetrics.Resource a) (ResourceMetrics.Resource b)) in
  '(extraA, extraB) ←
    diffSlices (ResourceMetrics.ScopeMetrics a) (ResourceMetrics.ScopeMetrics b)
      (fun a b => r ← equalScopeMetrics a b cfg; mret (length r =? 0));
  let r := compareDiff extraA extraB in
  let reasons :=
    appendIf (negb (String.eqb r "")) reasons
      ("ResourceMetrics ScopeMetrics not equal:" +:+ nl +:+ r) in
  mret reasons.

(** *** Attribute containment *)

Definition missingAttrStr (name : string) : string := "missing attribute " +:+ name.

(** [for n, x := range l], with the loop state [s] threaded through. *)
Fixpoint range_fold {A S : Type} (body : S -> nat -> A -> S) (l : list A) (n : nat) (s : S)
  : S :=
  match l with
  | [] => s
  | x :: l' => range_fold body l' (Datatypes.S n) (body s n x)
  end.

Definition hasAttributesExemplars {T} (exemplar : Exemplar.t T) (attrs : list KeyValue)
  : list string :=
  let s := NewSet (Exemplar.FilteredAttributes exemplar) in
  fold_left
    (fun reasons attr =>
       match Set_Value s (Key_ attr) with
       | None => reasons ++ [missingAttrStr (Key_ attr)]
       | Some val =>
           appendIf (negb (Value_eqb val (Value_ attr))) reasons
             (notEqualStr (Key_ attr) (Emit (Value_ attr)) (Emit val))
       end)
    attrs [].

Definition hasAttributesDataPoints {T} (dp : DataPoint.t T) (attrs : list KeyValue)
  : list string :=
  fold_left
    (fun reasons attr =>
       match Set_Value (DataPoint.Attributes dp) (Key_ attr) with
       | None => reasons ++ [missingAttrStr (Key_ attr)]
       | Some val =>
           appendIf (negb (Value_eqb val (Value_ attr))) reasons
             (notEqualStr (Key_ attr) (Emit (Value_ attr)) (Emit val))
       end)
    attrs [].

Definition hasAttributesGauge {T} (gauge : Gauge.t T) (attrs : list KeyValue)
  : list string :=
  range_fold
    (fun reasons n dp =>
       let reas := hasAttributesDataPoints dp attrs in
       appendUnder reas reasons ("gauge datapoint " +:+ fmt_d n +:+ " attributes:" +:+ nl))
    (Gauge.DataPoints gauge) 0 [].

Definition hasAttributesSum {T} (sum : Sum.t T) (attrs : list KeyValue) : list string :=
  range_fold
    (fun reasons n dp =>
       let reas := hasAttributesDataPoints dp attrs in
       appendUnder reas reasons ("sum datapoint " +:+ fmt_d n +:+ " attributes:" +:+ nl))
    (Sum.DataPoints sum) 0 [].

Definition hasAttributesHistogramDataPoints {T} (dp : HistogramDataPoint.t T)
    (attrs : list KeyValue) : list string :=
  fold_left
    (fun reasons attr =>
       match Set_Value (HistogramDataPoint.Attributes dp) (Key_ attr) with
       | None => reasons ++ [missingAttrStr (Key_ attr)]
       | Some val =>
           appendIf (negb (Value_eqb val (Value_ attr))) reasons
             (notEqualStr (Key_ attr) (Emit (Value_ attr)) (Emit val))
       end)
    attrs [].

Definition hasAttributesHistogram {T} (histogram : Histogram.t T) (attrs : list KeyValue)
  : list string :=
  range_fold
    (fun reasons n dp =>
       let reas := hasAttributesHistogramDataPoints dp attrs in
       appendUnder reas reasons
         ("histogram datapoint " +:+ fmt_d n +:+ " attributes:" +:+ nl))
    (Histogram.DataPoints histogram) 0 [].

Definition hasAttributesExponentialHistogramDataPoints {T}
    (dp : ExponentialHistogramDataPoint.t T) (attrs : list KeyValue) : list string :=
  fold_left
    (fun reasons attr =>
       match Set_Value (ExponentialHistogramDataPoint.Attributes dp) (Key_ attr) with
       | None => reasons ++ [missingAttrStr (Key_ attr)]
       | Some val =>
           appendIf (negb (Value_eqb val (Value_ attr))) reasons
             (notEqualStr (Key_ attr) (Emit (Value_ attr)) (Emit val))
       end)
    attrs [].

Definition hasAttributesExponentialHistogram {T} (histogram : ExponentialHistogram.t T)
    (attrs : list KeyValue) : list string :=
  range_fold
    (fun reasons n dp =>
       let reas := hasAttributesExponentialHistogramDataPoints dp attrs in
       appendUnder reas reasons
         ("histogram datapoint " +:+ fmt_d n +:+ " attributes:" +:+ nl))
    (ExponentialHistogram.DataPoints histogram) 0 [].

(** The type switch on the interface value; [nil] falls to the default
    case, where [%T] prints it as [<nil>]. *)
Definition hasAttributesAggregation (agg : option Aggregation) (attrs : list KeyValue)
  : list string :=
  match agg with
  | Some (GaugeInt64 agg) => hasAttributesGauge agg attrs
  | Some (GaugeFloat64 agg) => hasAttributesGauge agg attrs
  | Some (SumInt64 agg) => hasAttributesSum agg attrs
  | Some (SumFloat64 agg) => hasAttributesSum agg attrs
  | Some (HistogramInt64 agg) => hasAttributesHistogram agg attrs
  | Some (HistogramFloat64 agg) => hasAttributesHistogram agg attrs
  | Some (ExponentialHistogramInt64 agg) => hasAttributesExponentialHistogram agg attrs
  | Some (ExponentialHistogramFloat64 agg) => hasAttributesExponentialHistogram agg attrs
  | Some (OtherAggregation name) => ["unknown aggregation " +:+ fmt_T (TOther name)]
  | None => ["unknown aggregation " +:+ "<nil>"]
  end.

Definition hasAttributesMetrics (metrics : Metrics.t) (attrs : list KeyValue)
  : list string :=
  let reasons : list string := [] in
  let reas := hasAttributesAggregation (Metrics.Data metrics) attrs in
  appendUnder reas reasons ("Metric " +:+ Metrics.Name metrics +:+ ":" +:+ nl).

Definition hasAttributesScopeMetrics (sm : ScopeMetrics.t) (attrs : list KeyValue)
  : list string :=
  range_fold
    (fun reasons n metrics =>
       let reas := hasAttributesMetrics metrics attrs in
       appendUnder reas reasons
         ("ScopeMetrics " +:+ Scope.Name (ScopeMetrics.Scope sm) +:+ " Metrics "
            +:+ fmt_d n +:+ ":" +:+ nl))
    (ScopeMetrics.Metrics sm) 0 [].

Definition hasAttributesResourceMetrics (rm : ResourceMetrics.t) (attrs : list KeyValue)
  : list string :=
  range_fold
    (fun reasons n sm =>
       let reas := hasAttributesScopeMetrics sm attrs in
       appendUnder reas reasons
         ("ResourceMetrics ScopeMetrics " +:+ fmt_d n +:+ ":" +:+ nl))
    (ResourceMetrics.ScopeMetrics rm) 0 [].

End Comparisons.

(** ** The matcher of the specification

    "For each element of A in order, scan B for the first not-yet-consumed
    element satisfying the predicate; mark it consumed on success, else
    record the A element as unmatched. Elements of B never consumed are
    returned as unmatched." The elements of B not yet consumed are kept as
    a list, and consuming one removes it. *)

Section Matcher.
Context {T : Type}.

Fixpoint remove_first (p : T -> bool) (l : list T) : option (list T) :=
  match l with
  | [] => None
  | y :: l' => if p y then Some l' else option_map (cons y) (remove_first p l')
  end.

Fixpoint greedy (eq : T -> T -> bool) (A B : list T) : list T * list T :=
  match A with
  | [] => ([], B)
  | x :: A' =>
      match remove_first (eq x) B with
      | Some B' => greedy eq A' B'
      | None => let '(extraA, extraB) := greedy eq A' B in (x :: extraA, extraB)
      end
  end.

(** The same matcher for a predicate that may panic. *)
Fixpoint remove_firstM (p : T -> outcome bool) (l : list T) : outcome (option (list T)) :=
  match l with
  | [] => Ok None
  | y :: l' =>
      e ← p y;
      if (e : bool) then Ok (Some l') else o ← remove_firstM p l'; Ok (option_map (cons y) o)
  end.

Fixpoint greedyM (equal : T -> T -> outcome bool) (A B : list T)
  : outcome (list T * list T) :=
  match A with
  | [] => Ok ([], B)
  | x :: A' =>
      o ← remove_firstM (equal x) B;
      match o with
      | Some B' => greedyM equal A' B'
      | None => '(extraA, extraB) ← greedyM equal A' B; Ok (x :: extraA, extraB)
      end
  end.

(** The elements of [b] whose flag is not set. *)
Fixpoint unvisited (b : list T) (visited : list bool) : list T :=
  match b, visited with
  | y :: b', v :: visited' =>
      if v then unvisited b' visited' else y :: unvisited b' visited'
  | _, _ => []
  end.

(** One scan of [b] with its flags, by recursion on the list: the flags
    after the scan when an element was found. *)
Fixpoint scan_flags (p : T -> outcome bool) (b : list T) (visited : list bool)
  : outcome (option (list bool)) :=
  match b, visited with
  | y :: b', v :: visited' =>
      if v then o ← scan_flags p b' visited'; Ok (option_map (cons v) o)
      else
        e ← p y;
        if (e : bool) then Ok (Some (true :: visited'))
        else o ← scan_flags p b' visited'; Ok (option_map (cons v) o)
  | _, _ => Ok None
  end.

(** Both lists of unmatched elements are empty. *)
Definition matched (eq : T -> T -> bool) (A B : list T) : bool :=
  match greedy eq A B with
  | ([], []) => true
  | _ => false
  end.

End Matcher.

(** * The vocabulary of the properties *)

Import attribute.

(** ** Attribute lists

    The filtered attributes on which [equalKeyValue] does not panic, and
    the equality it decides on them. *)

Definition knownKinds (l : list KeyValue) : bool :=
  forallb (fun kv => negb (Type_eqb (Type' (Value_ kv)) INVALID)) l.

Inductive Value_equal : Value -> Value -> Prop :=
| equal_bool a b : go_eqb a b = true -> Value_equal (BoolValue a) (BoolValue b)
| equal_int64 a b : go_eqb a b = true -> Value_equal (Int64Value a) (Int64Value b)
| equal_float64 a b : go_eqb a b = true -> Value_equal (Float64Value a) (Float64Value b)
| equal_string a b : go_eqb a b = true -> Value_equal (StringValue a) (StringValue b)
| equal_boolslice a b :
    Forall2 (fun x y => go_eqb x y = true) a b ->
    Value_equal (BoolSliceValue a) (BoolSliceValue b)
| equal_int64slice a b :
    Forall2 (fun x y => go_eqb x y = true) a b ->
    Value_equal (Int64SliceValue a) (Int64SliceValue b)
| equal_float64slice a b :
    Forall2 (fun x y => go_eqb x y = true) a b ->
    Value_equal (Float64SliceValue a) (Float64SliceValue b)
| equal_stringslice a b :
    Forall2 (fun x y => go_eqb x y = true) a b ->
    Value_equal (StringSliceValue a) (StringSliceValue b).

Definition KeyValue_equal (x y : KeyValue) : Prop :=
  Key_ x = Key_ y /\ Value_equal (Value_ x) (Value_ y).

(** One iteration of the loop of [equalKeyValue]: whether the loop goes on
    to the next pair. *)
Definition equalKeyValue_step `{External} (v bi : KeyValue) : outcome bool :=
  if negb (String.eqb (Key_ v) (Key_ bi)) then Ok false
  else if negb (Type_eqb (Type' (Value_ v)) (Type' (Value_ bi))) then Ok false
  else
    match Type' (Value_ v) with
    | BOOL => Ok (go_eqb (AsBool (Value_ v)) (AsBool (Value_ bi)))
    | INT64 => Ok (go_eqb (AsInt64 (Value_ v)) (AsInt64 (Value_ bi)))
    | FLOAT64 => Ok (go_eqb (AsFloat64 (Value_ v)) (AsFloat64 (Value_ bi)))
    | STRING => Ok (go_eqb (AsString (Value_ v)) (AsString (Value_ bi)))
    | BOOLSLICE => Ok (equalSlices (AsBoolSlice (Value_ v)) (AsBoolSlice (Value_ bi)))
    | INT64SLICE => Ok (equalSlices (AsInt64Slice (Value_ v)) (AsInt64Slice (Value_ bi)))
    | FLOAT64SLICE =>
        Ok (equalSlices (AsFloat64Slice (Value_ v)) (AsFloat64Slice (Value_ bi)))
    | STRINGSLICE =>
        Ok (equalSlices (AsStringSlice (Value_ v)) (AsStringSlice (Value_ bi)))
    | INVALID =>
        Panic ("unknown attribute value type: " +:+ fmt_v Type_ (Type' (Value_ v)))
    end.

(** ** The matching *)

(** What the matching guarantees about the two lists it returns. *)
Definition matching_invariant {T} (A B extraA extraB : list T) : Prop :=
  length extraA <= length A /\ length extraB <= length B
  /\ length A - length extraA = length B - length extraB
  /\ (length A <> length B -> extraA <> [] \/ extraB <> [])
  /\ extraA `sublist_of` A /\ extraB `sublist_of` B.

(** ** Attribute containment, as the specification words it

    "Verify that each key in S is present with the expected value. Missing
    key: a "missing attribute <key>" reason; present but different value:
    the standard mismatch reason carrying the rendered textual encoding
    for both sides." *)

Section Containment.
Context {E : External}.

Definition attr_reasons (lookup : Key -> option Value) (attr : KeyValue) : list string :=
  match lookup (Key_ attr) with
  | None => [missingAttrStr (Key_ attr)]
  | Some val =>
      if Value_eqb val (Value_ attr) then []
      else [notEqualStr (Key_ attr) (Emit (Value_ attr)) (Emit val)]
  end.

Definition contains (lookup : Key -> option Value) (attrs : list KeyValue) : Prop :=
  forall attr, attr ∈ attrs ->
    exists val, lookup (Key_ attr) = Some val /\ Value_eqb val (Value_ attr) = true.

(** Every data point of the aggregation carries the attributes; exemplars
    play no part. *)
Definition Aggregation_contains (agg : option Aggregation) (attrs : list KeyValue) : Prop :=
  match agg with
  | Some (GaugeInt64 v) =>
      Forall (fun dp => contains (Set_Value (DataPoint.Attributes dp)) attrs)
        (Gauge.DataPoints v)
  | Some (GaugeFloat64 v) =>
      Forall (fun dp => contains (Set_Value (DataPoint.Attributes dp)) attrs)
        (Gauge.DataPoints v)
  | Some (SumInt64 v) =>
      Forall (fun dp => contains (Set_Value (DataPoint.Attributes dp)) attrs)
        (Sum.DataPoints v)
  | Some (SumFloat64 v) =>
      Forall (fun dp => contains (Set_Value (DataPoint.Attributes dp)) attrs)
        (Sum.DataPoints v)
  | Some (HistogramInt64 v) =>
      Forall (fun dp => contains (Set_Value (HistogramDataPoint.Attributes dp)) attrs)
        (Histogram.DataPoints v)
  | Some (HistogramFloat64 v) =>
      Forall (fun dp => contains (Set_Value (HistogramDataPoint.Attributes dp)) attrs)
        (Histogram.DataPoints v)
  | Some (ExponentialHistogramInt64 v) =>
      Forall
        (fun dp => contains (Set_Value (ExponentialHistogramDataPoint.Attributes dp)) attrs)
        (ExponentialHistogram.DataPoints v)
  | Some (ExponentialHistogramFloat64 v) =>
      Forall
        (fun dp => contains (Set_Value (ExponentialHistogramDataPoint.Attributes dp)) attrs)
        (ExponentialHistogram.DataPoints v)
  | Some (OtherAggregation _) | None => False
  end.

End Containment.

(** ** A small model of the external packages

    Attribute sets and resources are key/value lists compared as they
    stand, [Value] looks a key up from the front, and the struct comparison
    of [attribute.Value] is equality of the modelled values. The
    development is instantiated with it at concrete inputs. *)

Module Reference.

#[local] Instance spec_float_eq_dec : EqDecision spec_float.
Proof. solve_decision. Defined.
#[local] Instance Value_eq_dec : EqDecision Value.
Proof. solve_decision. Defined.
#[local] Instance KeyValue_eq_dec : EqDecision KeyValue.
Proof. solve_decision. Defined.

Definition lookup (s : list KeyValue) (k : Key) : option Value :=
  Value_ <$> List.find (fun kv => String.eqb (Key_ kv) k) s.

Definition render (v : Value) : string :=
  match v with
  | StringValue s => s
  | BoolValue true => "true"
  | BoolValue false => "false"
  | _ => ""
  end.

Definition external : External := {|
  Set_ := list KeyValue;
  Set_Equals := fun s t => bool_decide (s = t);
  Set_Value := lookup;
  Set_Encoded := fun _ => "";
  NewSet := fun l => l;
  Value_eqb := fun v w => bool_decide (v = w);
  Emit := render;
  Resource := list KeyValue;
  Resource_Equal := fun r s => bool_decide (r = s);
  fmt_v := fun _ _ => "";
  fmt_sharp_v := fun _ _ => ""
|}.

End Reference.

(** ** Laws of the comparisons

    Go's [==] is symmetric and transitive on every comparable type used
    here, and holds of a value and itself unless the value is a NaN. *)

Class ComparableLaws (T : Type) `{Comparable T} : Prop := {
  go_eqb_sym : forall x y : T, go_eqb x y = true -> go_eqb y x = true;
  go_eqb_trans : forall x y z : T,
    go_eqb x y = true -> go_eqb y z = true -> go_eqb x z = true
}.

Class NumberLaws (N : Type) `{Number N} : Prop := {
  number_comparable_laws :: ComparableLaws N;
  go_eqb_self : forall x : N, go_eqb x x = negb (isNaN x)
}.

(** What the theorems below assume of the external packages: the equality
    of attribute sets and of resources is symmetric and transitive. *)
Class ExternalPER (E : External) : Prop := {
  Set_Equals_sym : forall s t, Set_Equals s t = true -> Set_Equals t s = true;
  Set_Equals_trans : forall s t u,
    Set_Equals s t = true -> Set_Equals t u = true -> Set_Equals s u = true;
  Resource_Equal_sym : forall r s, Resource_Equal r s = true -> Resource_Equal s r = true;
  Resource_Equal_trans : forall r s t,
    Resource_Equal r s = true -> Resource_Equal s t = true -> Resource_Equal r t = true
}.

(** And, for reflexivity, that an attribute set and a resource are equal
    to themselves. *)
Class ExternalRefl (E : External) : Prop := {
  Set_Equals_refl : forall s, Set_Equals s s = true;
  Resource_Equal_refl : forall r, Resource_Equal r r = true
}.

(** ** Trees the comparators return on

    A tree is [known] when the filtered attributes of all its exemplars
    have one of the eight value kinds: the invariant the specification
    puts on the producer, under which no comparison panics. *)

Section Known.
Context {E : External}.

Definition Exemplar_known {N} (e : Exemplar.t N) : bool :=
  knownKinds (Exemplar.FilteredAttributes e).

Definition DataPoint_known {N} (dp : DataPoint.t N) : bool :=
  forallb Exemplar_known (DataPoint.Exemplars dp).

Definition HistogramDataPoint_known {N} (dp : HistogramDataPoint.t N) : bool :=
  forallb Exemplar_known (HistogramDataPoint.Exemplars dp).

Definition ExponentialHistogramDataPoint_known {N}
    (dp : ExponentialHistogramDataPoint.t N) : bool :=
  forallb Exemplar_known (ExponentialHistogramDataPoint.Exemplars dp).

Definition Gauge_known {N} (g : Gauge.t N) : bool :=
  forallb DataPoint_known (Gauge.DataPoints g).

Definition Sum_known {N} (s : Sum.t N) : bool :=
  forallb DataPoint_known (Sum.DataPoints s).

Definition Histogram_known {N} (h : Histogram.t N) : bool :=
  forallb HistogramDataPoint_known (Histogram.DataPoints h).

Definition ExponentialHistogram_known {N} (h : ExponentialHistogram.t N) : bool :=
  forallb ExponentialHistogramDataPoint_known (ExponentialHistogram.DataPoints h).

Definition Aggregation_known (a : option Aggregation) : bool :=
  match a with
  | Some (GaugeInt64 v) => Gauge_known v
  | Some (GaugeFloat64 v) => Gauge_known v
  | Some (SumInt64 v) => Sum_known v
  | Some (SumFloat64 v) => Sum_known v
  | Some (HistogramInt64 v) => Histogram_known v
  | Some (HistogramFloat64 v) => Histogram_known v
  | Some (ExponentialHistogramInt64 v) => ExponentialHistogram_known v
  | Some (ExponentialHistogramFloat64 v) => ExponentialHistogram_known v
  | Some (OtherAggregation _) | None => true
  end.

Definition Metrics_known (m : Metrics.t) : bool := Aggregation_known (Metrics.Data m).

Definition ScopeMetrics_known (sm : ScopeMetrics.t) : bool :=
  forallb Metrics_known (ScopeMetrics.Metrics sm).

Definition ResourceMetrics_known (rm : ResourceMetrics.t) : bool :=
  forallb ScopeMetrics_known (ResourceMetrics.ScopeMetrics rm).

(** A tree is [wellFormed] when moreover no number compared in it is a NaN
    and every aggregation has one of the eight shapes: the trees equal to
    themselves. *)

Definition Value_wellFormed (v : Value) : bool :=
  match v with
  | InvalidValue => false
  | Float64Value f => negb (isNaN f)
  | Float64SliceValue l => forallb (fun f => negb (isNaN f)) l
  | _ => true
  end.

Definition Extrema_wellFormed {N} `{Number N} (e : Extrema.t N) : bool :=
  negb (Extrema.valid e) || negb (isNaN (Extrema.value e)).

Definition Exemplar_wellFormed {N} `{Number N} (e : Exemplar.t N) : bool :=
  forallb (fun kv => Value_wellFormed (Value_ kv)) (Exemplar.FilteredAttributes e)
  && negb (isNaN (Exemplar.Value e)).

Definition DataPoint_wellFormed {N} `{Number N} (dp : DataPoint.t N) : bool :=
  negb (isNaN (DataPoint.Value dp))
  && forallb Exemplar_wellFormed (DataPoint.Exemplars dp).

Definition HistogramDataPoint_wellFormed {N} `{Number N} (dp : HistogramDataPoint.t N)
  : bool :=
  forallb (fun f => negb (isNaN f)) (HistogramDataPoint.Bounds dp)
  && Extrema_wellFormed (HistogramDataPoint.Min dp)
  && Extrema_wellFormed (HistogramDataPoint.Max dp)
  && negb (isNaN (HistogramDataPoint.Sum dp))
  && forallb Exemplar_wellFormed (HistogramDataPoint.Exemplars dp).

Definition ExponentialHistogramDataPoint_wellFormed {N} `{Number N}
    (dp : ExponentialHistogramDataPoint.t N) : bool :=
  Extrema_wellFormed (ExponentialHistogramDataPoint.Min dp)
  && Extrema_wellFormed (ExponentialHistogramDataPoint.Max dp)
  && negb (isNaN (ExponentialHistogramDataPoint.Sum dp))
  && forallb Exemplar_wellFormed (ExponentialHistogramDataPoint.Exemplars dp).

Definition Gauge_wellFormed {N} `{Number N} (g : Gauge.t N) : bool :=
  forallb DataPoint_wellFormed (Gauge.DataPoints g).

Definition Sum_wellFormed {N} `{Number N} (s : Sum.t N) : bool :=
  forallb DataPoint_wellFormed (Sum.DataPoints s).

Definition Histogram_wellFormed {N} `{Number N} (h : Histogram.t N) : bool :=
  forallb HistogramDataPoint_wellFormed (Histogram.DataPoints h).

Definition ExponentialHistogram_wellFormed {N} `{Number N} (h : ExponentialHistogram.t N)
  : bool :=
  forallb ExponentialHistogramDataPoint_wellFormed (ExponentialHistogram.DataPoints h).

Definition Aggregation_wellFormed (a : option Aggregation) : bool :=
  match a with
  | Some (GaugeInt64 v) => Gauge_wellFormed v
  | Some (GaugeFloat64 v) => Gauge_wellFormed v
  | Some (SumInt64 v) => Sum_wellFormed v
  | Some (SumFloat64 v) => Sum_wellFormed v
  | Some (HistogramInt64 v) => Histogram_wellFormed v
  | Some (HistogramFloat64 v) => Histogram_wellFormed v
  | Some (ExponentialHistogramInt64 v) => ExponentialHistogram_wellFormed v
  | Some (ExponentialHistogramFloat64 v) => ExponentialHistogram_wellFormed v
  | Some (OtherAggregation _) => false
  | None => true
  end.

Definition Metrics_wellFormed (m : Metrics.t) : bool :=
  Aggregation_wellFormed (Metrics.Data m).

Definition ScopeMetrics_wellFormed (sm : ScopeMetrics.t) : bool :=
  forallb Metrics_wellFormed (ScopeMetrics.Metrics sm).

Definition ResourceMetrics_wellFormed (rm : ResourceMetrics.t) : bool :=
  forallb ScopeMetrics_wellFormed (ResourceMetrics.ScopeMetrics rm).

(** A comparison found no difference. *)
Definition agree (o : outcome (list string)) : bool :=
  match o with
  | Ok [] => true
  | _ => false
  end.

End Known.

(** ** What each comparator compares

    The relation "the comparator returns the empty list", field by field.
    A collection of children is compared with [matched] under the
    predicate the comparator hands to [diffSlices]. *)

Section Same.
Context {E : External}.

Definition sameExemplar {N} `{Number N} (cfg : config) (a b : Exemplar.t N) : Prop :=
  Forall2 KeyValue_equal (Exemplar.FilteredAttributes a) (Exemplar.FilteredAttributes b)
  /\ (ignoreTimestamp cfg = false -> Time_Equal (Exemplar.Time a) (Exemplar.Time b) = true)
  /\ (ignoreValue cfg = false -> go_eqb (Exemplar.Value a) (Exemplar.Value b) = true)
  /\ equalSlices (Exemplar.SpanID a) (Exemplar.SpanID b) = true
  /\ equalSlices (Exemplar.TraceID a) (Exemplar.TraceID b) = true.

Definition sameExemplars {N} `{Number N} (cfg : config) (a b : list (Exemplar.t N))
  : Prop :=
  ignoreExemplars cfg = false ->
  matched (fun x y => agree (equalExemplars x y cfg)) a b = true.

Definition sameTimes (cfg : config) (aStart aTime bStart bTime : Time) : Prop :=
  ignoreTimestamp cfg = false ->
  Time_Equal aStart bStart = true /\ Time_Equal aTime bTime = true.

Definition sameDataPoint {N} `{Number N} (cfg : config) (a b : DataPoint.t N) : Prop :=
  Set_Equals (DataPoint.Attributes a) (DataPoint.Attributes b) = true
  /\ sameTimes cfg (DataPoint.StartTime a) (DataPoint.Time a)
       (DataPoint.StartTime b) (DataPoint.Time b)
  /\ (ignoreValue cfg = false -> go_eqb (DataPoint.Value a) (DataPoint.Value b) = true)
  /\ sameExemplars cfg (DataPoint.Exemplars a) (DataPoint.Exemplars b).

Definition sameHistogramDataPoint {N} `{Number N} (cfg : config)
    (a b : HistogramDataPoint.t N) : Prop :=
  Set_Equals (HistogramDataPoint.Attributes a) (HistogramDataPoint.Attributes b) = true
  /\ sameTimes cfg (HistogramDataPoint.StartTime a) (HistogramDataPoint.Time a)
       (HistogramDataPoint.StartTime b) (HistogramDataPoint.Time b)
  /\ (ignoreValue cfg = false ->
      go_eqb (HistogramDataPoint.Count a) (HistogramDataPoint.Count b) = true
      /\ equalSlices (HistogramDataPoint.Bounds a) (HistogramDataPoint.Bounds b) = true
      /\ equalSlices (HistogramDataPoint.BucketCounts a)
           (HistogramDataPoint.BucketCounts b) = true
      /\ eqExtrema (HistogramDataPoint.Min a) (HistogramDataPoint.Min b) = true
      /\ eqExtrema (HistogramDataPoint.Max a) (HistogramDataPoint.Max b) = true
      /\ go_eqb (HistogramDataPoint.Sum a) (HistogramDataPoint.Sum b) = true)
  /\ sameExemplars cfg (HistogramDataPoint.Exemplars a) (HistogramDataPoint.Exemplars b).

Definition sameExponentialBucket (a b : ExponentialBucket.t) : Prop :=
  go_eqb (ExponentialBucket.Offset a) (ExponentialBucket.Offset b) = true
  /\ equalSlices (ExponentialBucket.Counts a) (ExponentialBucket.Counts b) = true.

Definition sameExponentialHistogramDataPoint {N} `{Number N} (cfg : config)
    (a b : ExponentialHistogramDataPoint.t N) : Prop :=
  Set_Equals (ExponentialHistogramDataPoint.Attributes a)
    (ExponentialHistogramDataPoint.Attributes b) = true
  /\ sameTimes cfg (ExponentialHistogramDataPoint.StartTime a)
       (ExponentialHistogramDataPoint.Time a)
       (ExponentialHistogramDataPoint.StartTime b)
       (ExponentialHistogramDataPoint.Time b)
  /\ (ignoreValue cfg = false ->
      go_eqb (ExponentialHistogramDataPoint.Count a)
        (ExponentialHistogramDataPoint.Count b) = true
      /\ eqExtrema (ExponentialHistogramDataPoint.Min a)
           (ExponentialHistogramDataPoint.Min b) = true
      /\ eqExtrema (ExponentialHistogramDataPoint.Max a)
           (ExponentialHistogramDataPoint.Max b) = true
      /\ go_eqb (ExponentialHistogramDataPoint.Sum a)
           (ExponentialHistogramDataPoint.Sum b) = true
      /\ go_eqb (ExponentialHistogramDataPoint.Scale a)
           (ExponentialHistogramDataPoint.Scale b) = true
      /\ go_eqb (ExponentialHistogramDataPoint.ZeroCount a)
           (ExponentialHistogramDataPoint.ZeroCount b) = true
      /\ sameExponentialBucket (ExponentialHistogramDataPoint.PositiveBucket a)
           (ExponentialHistogramDataPoint.PositiveBucket b)
      /\ sameExponentialBucket (ExponentialHistogramDataPoint.NegativeBucket a)
           (ExponentialHistogramDataPoint.NegativeBucket b))
  /\ sameExemplars cfg (ExponentialHistogramDataPoint.Exemplars a)
       (ExponentialHistogramDataPoint.Exemplars b).

End Same.

Section SameTrees.
Context {E : External}.

Definition sameGauge {N} `{Number N} (cfg : config) (a b : Gauge.t N) : Prop :=
  matched (fun x y => agree (equalDataPoints x y cfg))
    (Gauge.DataPoints a) (Gauge.DataPoints b) = true.

Definition sameSum {N} `{Number N} (cfg : config) (a b : Sum.t N) : Prop :=
  go_eqb (Sum.Temporality a) (Sum.Temporality b) = true
  /\ go_eqb (Sum.IsMonotonic a) (Sum.IsMonotonic b) = true
  /\ matched (fun x y => agree (equalDataPoints x y cfg))
       (Sum.DataPoints a) (Sum.DataPoints b) = true.

Definition sameHistogram {N} `{Number N} (cfg : config) (a b : Histogram.t N) : Prop :=
  go_eqb (Histogram.Temporality a) (Histogram.Temporality b) = true
  /\ matched (fun x y => agree (equalHistogramDataPoints x y cfg))
       (Histogram.DataPoints a) (Histogram.DataPoints b) = true.

Definition sameExponentialHistogram {N} `{Number N} (cfg : config)
    (a b : ExponentialHistogram.t N) : Prop :=
  go_eqb (ExponentialHistogram.Temporality a) (ExponentialHistogram.Temporality b) = true
  /\ matched (fun x y => agree (equalExponentialHistogramDataPoints x y cfg))
       (ExponentialHistogram.DataPoints a) (ExponentialHistogram.DataPoints b) = true.

Definition sameAggregation (cfg : config) (a b : option Aggregation) : Prop :=
  match a, b with
  | None, None => True
  | Some (GaugeInt64 v), Some (GaugeInt64 w) => sameGauge cfg v w
  | Some (GaugeFloat64 v), Some (GaugeFloat64 w) => sameGauge cfg v w
  | Some (SumInt64 v), Some (SumInt64 w) => sameSum cfg v w
  | Some (SumFloat64 v), Some (SumFloat64 w) => sameSum cfg v w
  | Some (HistogramInt64 v), Some (HistogramInt64 w) => sameHistogram cfg v w
  | Some (HistogramFloat64 v), Some (HistogramFloat64 w) => sameHistogram cfg v w
  | Some (ExponentialHistogramInt64 v), Some (ExponentialHistogramInt64 w) =>
      sameExponentialHistogram cfg v w
  | Some (ExponentialHistogramFloat64 v), Some (ExponentialHistogramFloat64 w) =>
      sameExponentialHistogram cfg v w
  | _, _ => False
  end.

Definition sameMetrics (cfg : config) (a b : Metrics.t) : Prop :=
  go_eqb (Metrics.Name a) (Metrics.Name b) = true
  /\ go_eqb (Metrics.Description a) (Metrics.Description b) = true
  /\ go_eqb (Metrics.Unit a) (Metrics.Unit b) = true
  /\ sameAggregation cfg (Metrics.Data a) (Metrics.Data b).

Definition sameScopeMetrics (cfg : config) (a b : ScopeMetrics.t) : Prop :=
  Scope_eqb (ScopeMetrics.Scope a) (ScopeMetrics.Scope b) = true
  /\ matched (fun x y => agree (equalMetrics x y cfg))
       (ScopeMetrics.Metrics a) (ScopeMetrics.Metrics b) = true.

Definition sameResourceMetrics (cfg : config) (a b : ResourceMetrics.t) : Prop :=
  Resource_Equal (ResourceMetrics.Resource a) (ResourceMetrics.Resource b) = true
  /\ matched (fun x y => agree (equalScopeMetrics x y cfg))
       (ResourceMetrics.ScopeMetrics a) (ResourceMetrics.ScopeMetrics b) = true.

End SameTrees.

(** ** The properties of the specification, as predicates on a comparator *)

(** "compare(x, x, policy) yields an empty reason list". *)
Definition reflexive_on {T} (equal : T -> T -> outcome (list string))
    (wellFormed : T -> bool) : Prop :=
  forall x, wellFormed x = true -> equal x x = Ok [].

(** "If compare(a, b) is non-empty, compare(b, a) is also non-empty". *)
Definition detects_symmetrically {T} (equal : T -> T -> outcome (list string))
    (known : T -> bool) : Prop :=
  forall a b, known a = true -> known b = true ->
    forall r, equal a b = Ok r -> r <> [] ->
      exists r', equal b a = Ok r' /\ r' <> [].

Section PropertiesAtNumber.
Context {E : External} (N : Type) `{Number N}.

Definition leaves_reflexive (cfg : config) : Prop :=
  reflexive_on (fun a b : Exemplar.t N => equalExemplars a b cfg) Exemplar_wellFormed
  /\ reflexive_on (fun a b : DataPoint.t N => equalDataPoints a b cfg)
       DataPoint_wellFormed
  /\ reflexive_on (fun a b : HistogramDataPoint.t N => equalHistogramDataPoints a b cfg)
       HistogramDataPoint_wellFormed
  /\ reflexive_on
       (fun a b : ExponentialHistogramDataPoint.t N =>
          equalExponentialHistogramDataPoints a b cfg)
       ExponentialHistogramDataPoint_wellFormed.

Definition leaves_detect_symmetrically (cfg : config) : Prop :=
  detects_symmetrically (fun a b : Exemplar.t N => equalExemplars a b cfg) Exemplar_known
  /\ detects_symmetrically (fun a b : DataPoint.t N => equalDataPoints a b cfg)
       DataPoint_known
  /\ detects_symmetrically
       (fun a b : HistogramDataPoint.t N => equalHistogramDataPoints a b cfg)
       HistogramDataPoint_known
  /\ detects_symmetrically
       (fun a b : ExponentialHistogramDataPoint.t N =>
          equalExponentialHistogramDataPoints a b cfg)
       ExponentialHistogramDataPoint_known.

End PropertiesAtNumber.

(** ** Example trees, over the small model of the external packages *)

Module Examples.

Definition compareAll : config :=
  {| ignoreTimestamp := false; ignoreExemplars := false; ignoreValue := false |}.

(** The policy of the option [IgnoreValue] alone. *)
Definition ignoreValues : config :=
  {| ignoreTimestamp := false; ignoreExemplars := false; ignoreValue := true |}.

(** The policy of the option [IgnoreTimestamp] alone. *)
Definition ignoreTimestamps : config :=
  {| ignoreTimestamp := true; ignoreExemplars := false; ignoreValue := false |}.

Definition method_GET : KeyValue := {| Key_ := "method"; Value_ := StringValue "GET" |}.

(** An exemplar with no filtered attribute. *)
Definition exemplar : Exemplar.t int64 := {|
  Exemplar.FilteredAttributes := [];
  Exemplar.Time := 0%Z;
  Exemplar.Value := 5%Z;
  Exemplar.SpanID := [];
  Exemplar.TraceID := []
|}.

Definition dataPoint (value : int64) : DataPoint.t (E:=Reference.external) int64 := {|
  DataPoint.Attributes := [method_GET] : @Set_ Reference.external;
  DataPoint.StartTime := 0%Z;
  DataPoint.Time := 1%Z;
  DataPoint.Value := value;
  DataPoint.Exemplars := [exemplar]
|}.

(** A monotonic cumulative sum with one data point. *)
Definition metric (name : string) (value : int64) : Metrics.t (E:=Reference.external) := {|
  Metrics.Name := name;
  Metrics.Description := "";
  Metrics.Unit := "";
  Metrics.Data :=
    Some (SumInt64 {| Sum.DataPoints := [dataPoint value];
                      Sum.Temporality := 1%N;
                      Sum.IsMonotonic := true |})
|}.

Definition scopeOf (metrics : list Metrics.t) : ScopeMetrics.t (E:=Reference.external) := {|
  ScopeMetrics.Scope :=
    {| Scope.Name := "scope"; Scope.Version := ""; Scope.SchemaURL := "" |};
  ScopeMetrics.Metrics := metrics
|}.

Definition resourceOf (metrics : list Metrics.t)
  : ResourceMetrics.t (E:=Reference.external) := {|
  ResourceMetrics.Resource := [] : @Resource Reference.external;
  ResourceMetrics.ScopeMetrics := [scopeOf metrics]
|}.

(** The tree of the specification's scenario: one scope with one metric
    "requests" whose only data point has the given value. *)
Definition resourceMetrics (value : int64) : ResourceMetrics.t (E:=Reference.external) :=
  resourceOf [metric "requests" value].

(** The numbers 1 and 2 as floating-point bounds. *)
Definition one : float64 := S754_finite false 4503599627370496 (-52).
Definition two : float64 := S754_finite false 4503599627370496 (-51).

Definition absent : Extrema.t int64 := {| Extrema.value := 0%Z; Extrema.valid := false |}.

Definition histogramPoint (bounds : list float64) (bucketCounts : list uint64)
  : HistogramDataPoint.t (E:=Reference.external) int64 := {|
  HistogramDataPoint.Attributes := [method_GET] : @Set_ Reference.external;
  HistogramDataPoint.StartTime := 0%Z;
  HistogramDataPoint.Time := 1%Z;
  HistogramDataPoint.Count := 7%N;
  HistogramDataPoint.Bounds := bounds;
  HistogramDataPoint.BucketCounts := bucketCounts;
  HistogramDataPoint.Min := absent;
  HistogramDataPoint.Max := absent;
  HistogramDataPoint.Sum := 0%Z;
  HistogramDataPoint.Exemplars := []
|}.

Definition exponentialPoint (scale : int32) (counts : list uint64)
  : ExponentialHistogramDataPoint.t (E:=Reference.external) int64 := {|
  ExponentialHistogramDataPoint.Attributes := [method_GET] : @Set_ Reference.external;
  ExponentialHistogramDataPoint.StartTime := 0%Z;
  ExponentialHistogramDataPoint.Time := 1%Z;
  ExponentialHistogramDataPoint.Count := 7%N;
  ExponentialHistogramDataPoint.Min := absent;
  ExponentialHistogramDataPoint.Max := absent;
  ExponentialHistogramDataPoint.Sum := 0%Z;
  ExponentialHistogramDataPoint.Scale := scale;
  ExponentialHistogramDataPoint.ZeroCount := 0%N;
  ExponentialHistogramDataPoint.PositiveBucket :=
    {| ExponentialBucket.Offset := 0%Z; ExponentialBucket.Counts := counts |};
  ExponentialHistogramDataPoint.NegativeBucket :=
    {| ExponentialBucket.Offset := 0%Z; ExponentialBucket.Counts := [] |};
  ExponentialHistogramDataPoint.Exemplars := []
|}.

(** An exponential-histogram data point whose positive buckets start at
    the given offset. *)
Definition shiftedPoint (offset : int32)
  : ExponentialHistogramDataPoint.t (E:=Reference.external) int64 := {|
  ExponentialHistogramDataPoint.Attributes := [method_GET] : @Set_ Reference.external;
  ExponentialHistogramDataPoint.StartTime := 0%Z;
  ExponentialHistogramDataPoint.Time := 1%Z;
  ExponentialHistogramDataPoint.Count := 7%N;
  ExponentialHistogramDataPoint.Min := absent;
  ExponentialHistogramDataPoint.Max := absent;
  ExponentialHistogramDataPoint.Sum := 0%Z;
  ExponentialHistogramDataPoint.Scale := 0%Z;
  ExponentialHistogramDataPoint.ZeroCount := 0%N;
  ExponentialHistogramDataPoint.PositiveBucket :=
    {| ExponentialBucket.Offset := offset; ExponentialBucket.Counts := [3%N; 4%N] |};
  ExponentialHistogramDataPoint.NegativeBucket :=
    {| ExponentialBucket.Offset := 0%Z; ExponentialBucket.Counts := [] |};
  ExponentialHistogramDataPoint.Exemplars := []
|}.

(** A floating-point data point whose value is a NaN. *)
Definition nanPoint : DataPoint.t (E:=Reference.external) float64 := {|
  DataPoint.Attributes := [method_GET] : @Set_ Reference.external;
  DataPoint.StartTime := 0%Z;
  DataPoint.Time := 1%Z;
  DataPoint.Value := S754_nan;
  DataPoint.Exemplars := []
|}.

End Examples.

(** ** Trees that differ in the order of their children

    [a'] is [a] with the data points of its aggregations, the metrics of
    its scopes and its scopes rearranged, at any depth. *)

Section Rearranged.
Context {E : External}.

Definition Aggregation_rearranged (a a' : option Aggregation) : Prop :=
  match a, a' with
  | None, None => True
  | Some (GaugeInt64 v), Some (GaugeInt64 w) => Gauge.DataPoints v ≡ₚ Gauge.DataPoints w
  | Some (GaugeFloat64 v), Some (GaugeFloat64 w) =>
      Gauge.DataPoints v ≡ₚ Gauge.DataPoints w
  | Some (SumInt64 v), Some (SumInt64 w) =>
      Sum.DataPoints v ≡ₚ Sum.DataPoints w
      /\ Sum.Temporality v = Sum.Temporality w /\ Sum.IsMonotonic v = Sum.IsMonotonic w
  | Some (SumFloat64 v), Some (SumFloat64 w) =>
      Sum.DataPoints v ≡ₚ Sum.DataPoints w
      /\ Sum.Temporality v = Sum.Temporality w /\ Sum.IsMonotonic v = Sum.IsMonotonic w
  | Some (HistogramInt64 v), Some (HistogramInt64 w) =>
      Histogram.DataPoints v ≡ₚ Histogram.DataPoints w
      /\ Histogram.Temporality v = Histogram.Temporality w
  | Some (HistogramFloat64 v), Some (HistogramFloat64 w) =>
      Histogram.DataPoints v ≡ₚ Histogram.DataPoints w
      /\ Histogram.Temporality v = Histogram.Temporality w
  | Some (ExponentialHistogramInt64 v), Some (ExponentialHistogramInt64 w) =>
      ExponentialHistogram.DataPoints v ≡ₚ ExponentialHistogram.DataPoints w
      /\ ExponentialHistogram.Temporality v = ExponentialHistogram.Temporality w
  | Some (ExponentialHistogramFloat64 v), Some (ExponentialHistogramFloat64 w) =>
      ExponentialHistogram.DataPoints v ≡ₚ ExponentialHistogram.DataPoints w
      /\ ExponentialHistogram.Temporality v = ExponentialHistogram.Temporality w
  | Some (OtherAggregation n), Some (OtherAggregation m) => n = m
  | _, _ => False
  end.

Definition Metrics_rearranged (a a' : Metrics.t) : Prop :=
  Metrics.Name a = Metrics.Name a'
  /\ Metrics.Description a = Metrics.Description a'
  /\ Metrics.Unit a = Metrics.Unit a'
  /\ Aggregation_rearranged (Metrics.Data a) (Metrics.Data a').

Definition ScopeMetrics_rearranged (a a' : ScopeMetrics.t) : Prop :=
  ScopeMetrics.Scope a = ScopeMetrics.Scope a'
  /\ exists l, ScopeMetrics.Metrics a ≡ₚ l
               /\ Forall2 Metrics_rearranged l (ScopeMetrics.Metrics a').

Definition ResourceMetrics_rearranged (a a' : ResourceMetrics.t) : Prop :=
  ResourceMetrics.Resource a = ResourceMetrics.Resource a'
  /\ exists l, ResourceMetrics.ScopeMetrics a ≡ₚ l
               /\ Forall2 ScopeMetrics_rearranged l (ResourceMetrics.ScopeMetrics a').

(** Rearranging either side of a comparison does not change whether it
    yields the empty list. *)
Definition order_independent {T} (equal : T -> T -> outcome (list string))
    (known : T -> bool) (rearranged : T -> T -> Prop) : Prop :=
  forall a a' b b', known a = true -> known b = true ->
    rearranged a a' -> rearranged b b' ->
    (equal a b = Ok [] <-> equal a' b' = Ok []).

End Rearranged.

(** ** The ignore flags, as the specification words them *)

Section IgnoreFlags.
Context {E : External}.

(** A data point that differs from [a] only in its two times. *)
Definition DataPoint_withTimes {N} (a : DataPoint.t N) (start time : Time)
  : DataPoint.t N := {|
  DataPoint.Attributes := DataPoint.Attributes a;
  DataPoint.StartTime := start;
  DataPoint.Time := time;
  DataPoint.Value := DataPoint.Value a;
  DataPoint.Exemplars := DataPoint.Exemplars a
|}.

Definition HistogramDataPoint_withTimes {N} (a : HistogramDataPoint.t N)
    (start time : Time) : HistogramDataPoint.t N := {|
  HistogramDataPoint.Attributes := HistogramDataPoint.Attributes a;
  HistogramDataPoint.StartTime := start;
  HistogramDataPoint.Time := time;
  HistogramDataPoint.Count := HistogramDataPoint.Count a;
  HistogramDataPoint.Bounds := HistogramDataPoint.Bounds a;
  HistogramDataPoint.BucketCounts := HistogramDataPoint.BucketCounts a;
  HistogramDataPoint.Min := HistogramDataPoint.Min a;
  HistogramDataPoint.Max := HistogramDataPoint.Max a;
  HistogramDataPoint.Sum := HistogramDataPoint.Sum a;
  HistogramDataPoint.Exemplars := HistogramDataPoint.Exemplars a
|}.

Definition ExponentialHistogramDataPoint_withTimes {N}
    (a : ExponentialHistogramDataPoint.t N) (start time : Time)
  : ExponentialHistogramDataPoint.t N := {|
  ExponentialHistogramDataPoint.Attributes := ExponentialHistogramDataPoint.Attributes a;
  ExponentialHistogramDataPoint.StartTime := start;
  ExponentialHistogramDataPoint.Time := time;
  ExponentialHistogramDataPoint.Count := ExponentialHistogramDataPoint.Count a;
  ExponentialHistogramDataPoint.Min := ExponentialHistogramDataPoint.Min a;
  ExponentialHistogramDataPoint.Max := ExponentialHistogramDataPoint.Max a;
  ExponentialHistogramDataPoint.Sum := ExponentialHistogramDataPoint.Sum a;
  ExponentialHistogramDataPoint.Scale := ExponentialHistogramDataPoint.Scale a;
  ExponentialHistogramDataPoint.ZeroCount := ExponentialHistogramDataPoint.ZeroCount a;
  ExponentialHistogramDataPoint.PositiveBucket :=
    ExponentialHistogramDataPoint.PositiveBucket a;
  ExponentialHistogramDataPoint.NegativeBucket :=
    ExponentialHistogramDataPoint.NegativeBucket a;
  ExponentialHistogramDataPoint.Exemplars := ExponentialHistogramDataPoint.Exemplars a
|}.

(** "With ignoreTimestamps two data points differing only in start or
    observation time compare equal; without it they compare unequal", for
    a comparator [equal] of data points with times [start], [time] set by
    [withTimes]. Equal: as the data point compares with itself, so with
    the empty list when it is well formed. Unequal: never the empty list,
    and a non-empty list when the comparator returns. *)
Definition timestamps_ignorable {T} (equal : T -> T -> config -> outcome (list string))
    (known wellFormed : T -> bool) (start time : T -> Time)
    (withTimes : T -> Time -> Time -> T) (cfg : config) : Prop :=
  forall (a : T) (s t : Time),
    (ignoreTimestamp cfg = true ->
     equal a (withTimes a s t) cfg = equal a a cfg
     /\ (wellFormed a = true -> equal a (withTimes a s t) cfg = Ok []))
    /\ (ignoreTimestamp cfg = false ->
        Time_Equal (start a) s = false \/ Time_Equal (time a) t = false ->
        equal a (withTimes a s t) cfg <> Ok []
        /\ (known a = true ->
            exists r, equal a (withTimes a s t) cfg = Ok r /\ r <> [])).

(** The comparator never returns the empty list on two values that the
    test [field] tells apart. *)
Definition always_compared {T} (equal : T -> T -> config -> outcome (list string))
    (field : T -> T -> bool) (cfg : config) : Prop :=
  forall a b : T, field a b = false -> equal a b cfg <> Ok [].

Section AtNumber.
Context (N : Type) `{Number N}.

Definition data_points_ignore_timestamps (cfg : config) : Prop :=
  timestamps_ignorable (T:=DataPoint.t N) equalDataPoints DataPoint_known
    DataPoint_wellFormed DataPoint.StartTime DataPoint.Time DataPoint_withTimes cfg
  /\ timestamps_ignorable (T:=HistogramDataPoint.t N) equalHistogramDataPoints
       HistogramDataPoint_known HistogramDataPoint_wellFormed
       HistogramDataPoint.StartTime HistogramDataPoint.Time
       HistogramDataPoint_withTimes cfg
  /\ timestamps_ignorable (T:=ExponentialHistogramDataPoint.t N)
       equalExponentialHistogramDataPoints ExponentialHistogramDataPoint_known
       ExponentialHistogramDataPoint_wellFormed
       ExponentialHistogramDataPoint.StartTime ExponentialHistogramDataPoint.Time
       ExponentialHistogramDataPoint_withTimes cfg.

(** Attribute sets, temporality and monotonicity: under every policy. *)
Definition identity_always_compared (cfg : config) : Prop :=
  always_compared (T:=DataPoint.t N) equalDataPoints
    (fun a b => Set_Equals (DataPoint.Attributes a) (DataPoint.Attributes b)) cfg
  /\ always_compared (T:=HistogramDataPoint.t N) equalHistogramDataPoints
       (fun a b =>
          Set_Equals (HistogramDataPoint.Attributes a) (HistogramDataPoint.Attributes b))
       cfg
  /\ always_compared (T:=ExponentialHistogramDataPoint.t N)
       equalExponentialHistogramDataPoints
       (fun a b =>
          Set_Equals (ExponentialHistogramDataPoint.Attributes a)
            (ExponentialHistogramDataPoint.Attributes b))
       cfg
  /\ always_compared (T:=Sum.t N) equalSums
       (fun a b => go_eqb (Sum.Temporality a) (Sum.Temporality b)) cfg
  /\ always_compared (T:=Sum.t N) equalSums
       (fun a b => go_eqb (Sum.IsMonotonic a) (Sum.IsMonotonic b)) cfg
  /\ always_compared (T:=Histogram.t N) equalHistograms
       (fun a b => go_eqb (Histogram.Temporality a) (Histogram.Temporality b)) cfg
  /\ always_compared (T:=ExponentialHistogram.t N) equalExponentialHistograms
       (fun a b =>
          go_eqb (ExponentialHistogram.Temporality a) (ExponentialHistogram.Temporality b))
       cfg.

(** Scale, offsets and bucket boundaries: compared when values are. *)
Definition shape_compared_with_values (cfg : config) : Prop :=
  (ignoreValue cfg = false ->
   always_compared (T:=ExponentialHistogramDataPoint.t N)
     equalExponentialHistogramDataPoints
     (fun a b =>
        go_eqb (ExponentialHistogramDataPoint.Scale a)
          (ExponentialHistogramDataPoint.Scale b))
     cfg
   /\ always_compared (T:=ExponentialHistogramDataPoint.t N)
        equalExponentialHistogramDataPoints
        (fun a b =>
           go_eqb
             (ExponentialBucket.Offset (ExponentialHistogramDataPoint.PositiveBucket a))
             (ExponentialBucket.Offset (ExponentialHistogramDataPoint.PositiveBucket b)))
        cfg
   /\ always_compared (T:=ExponentialHistogramDataPoint.t N)
        equalExponentialHistogramDataPoints
        (fun a b =>
           go_eqb
             (ExponentialBucket.Offset (ExponentialHistogramDataPoint.NegativeBucket a))
             (ExponentialBucket.Offset (ExponentialHistogramDataPoint.NegativeBucket b)))
        cfg
   /\ always_compared (T:=HistogramDataPoint.t N) equalHistogramDataPoints
        (fun a b =>
           equalSlices (HistogramDataPoint.Bounds a) (HistogramDataPoint.Bounds b))
        cfg)
  /\ (ignoreValue cfg = true ->
      (forall a b : ExponentialHistogramDataPoint.t N,
          ExponentialHistogramDataPoint_known a = true ->
          (equalExponentialHistogramDataPoints a b cfg = Ok [] <->
           Set_Equals (ExponentialHistogramDataPoint.Attributes a)
             (ExponentialHistogramDataPoint.Attributes b) = true
           /\ sameTimes cfg (ExponentialHistogramDataPoint.StartTime a)
                (ExponentialHistogramDataPoint.Time a)
                (ExponentialHistogramDataPoint.StartTime b)
                (ExponentialHistogramDataPoint.Time b)
           /\ sameExemplars cfg (ExponentialHistogramDataPoint.Exemplars a)
                (ExponentialHistogramDataPoint.Exemplars b)))
      /\ (forall a b : HistogramDataPoint.t N,
             HistogramDataPoint_known a = true ->
             (equalHistogramDataPoints a b cfg = Ok [] <->
              Set_Equals (HistogramDataPoint.Attributes a)
                (HistogramDataPoint.Attributes b) = true
              /\ sameTimes cfg (HistogramDataPoint.StartTime a)
                   (HistogramDataPoint.Time a) (HistogramDataPoint.StartTime b)
                   (HistogramDataPoint.Time b)
              /\ sameExemplars cfg (HistogramDataPoint.Exemplars a)
                   (HistogramDataPoint.Exemplars b)))).

End AtNumber.

(** Names, descriptions and units of a metric; scope and resource. *)
Definition names_always_compared (cfg : config) : Prop :=
  always_compared equalMetrics (fun a b => go_eqb (Metrics.Name a) (Metrics.Name b)) cfg
  /\ always_compared equalMetrics
       (fun a b => go_eqb (Metrics.Description a) (Metrics.Description b)) cfg
  /\ always_compared equalMetrics (fun a b => go_eqb (Metrics.Unit a) (Metrics.Unit b)) cfg
  /\ always_compared equalScopeMetrics
       (fun a b => Scope_eqb (ScopeMetrics.Scope a) (ScopeMetrics.Scope b)) cfg
  /\ always_compared equalResourceMetrics
       (fun a b => Resource_Equal (ResourceMetrics.Resource a) (ResourceMetrics.Resource b))
       cfg.

End IgnoreFlags.

(** ** When a comparison panics, and when it returns *)

Section Panics.
Context {E : External}.

(** The message of the one [panic] statement of the file, in
    [equalKeyValue]. *)
Definition unknown_kind_message : string :=
  "unknown attribute value type: " +:+ fmt_v Type_ INVALID.

(** A panic of the comparator is that one, and it happens only under a
    policy that compares exemplars. *)
Definition panics_only_on_unknown_kind {T}
    (equal : T -> T -> config -> outcome (list string)) : Prop :=
  forall a b cfg msg, equal a b cfg = Panic msg ->
    msg = unknown_kind_message /\ ignoreExemplars cfg = false.

Definition always_returns {T} (equal : T -> T -> outcome (list string)) : Prop :=
  forall a b, exists r, equal a b = Ok r.

(** The comparator returns whenever the expected value is [known]. *)
Definition returns_on {T} (equal : T -> T -> outcome (list string))
    (known : T -> bool) : Prop :=
  forall a b, known a = true -> exists r, equal a b = Ok r.

Section AtNumber.
Context (N : Type) `{Number N}.

Definition leaves_panic_only_on_unknown_kind : Prop :=
  (forall (a b : Exemplar.t N) cfg msg,
      equalExemplars a b cfg = Panic msg ->
      msg = unknown_kind_message
      /\ Exemplar_known a = false /\ Exemplar_known b = false)
  /\ panics_only_on_unknown_kind (T:=DataPoint.t N) equalDataPoints
  /\ panics_only_on_unknown_kind (T:=HistogramDataPoint.t N) equalHistogramDataPoints
  /\ panics_only_on_unknown_kind (T:=ExponentialHistogramDataPoint.t N)
       equalExponentialHistogramDataPoints
  /\ panics_only_on_unknown_kind (T:=Gauge.t N) equalGauges
  /\ panics_only_on_unknown_kind (T:=Sum.t N) equalSums
  /\ panics_only_on_unknown_kind (T:=Histogram.t N) equalHistograms
  /\ panics_only_on_unknown_kind (T:=ExponentialHistogram.t N) equalExponentialHistograms.

Definition leaves_always_return (cfg : config) : Prop :=
  always_returns (fun a b : DataPoint.t N => equalDataPoints a b cfg)
  /\ always_returns (fun a b : HistogramDataPoint.t N => equalHistogramDataPoints a b cfg)
  /\ always_returns
       (fun a b : ExponentialHistogramDataPoint.t N =>
          equalExponentialHistogramDataPoints a b cfg)
  /\ always_returns (fun a b : Gauge.t N => equalGauges a b cfg)
  /\ always_returns (fun a b : Sum.t N => equalSums a b cfg)
  /\ always_returns (fun a b : Histogram.t N => equalHistograms a b cfg)
  /\ always_returns
       (fun a b : ExponentialHistogram.t N => equalExponentialHistograms a b cfg).

Definition leaves_return_on_known (cfg : config) : Prop :=
  (forall a b : Exemplar.t N,
      Exemplar_known a = true \/ Exemplar_known b = true ->
      exists r, equalExemplars a b cfg = Ok r)
  /\ returns_on (fun a b : DataPoint.t N => equalDataPoints a b cfg) DataPoint_known
  /\ returns_on (fun a b : HistogramDataPoint.t N => equalHistogramDataPoints a b cfg)
       HistogramDataPoint_known
  /\ returns_on
       (fun a b : ExponentialHistogramDataPoint.t N =>
          equalExponentialHistogramDataPoints a b cfg)
       ExponentialHistogramDataPoint_known
  /\ returns_on (fun a b : Gauge.t N => equalGauges a b cfg) Gauge_known
  /\ returns_on (fun a b : Sum.t N => equalSums a b cfg) Sum_known
  /\ returns_on (fun a b : Histogram.t N => equalHistograms a b cfg) Histogram_known
  /\ returns_on (fun a b : ExponentialHistogram.t N => equalExponentialHistograms a b cfg)
       ExponentialHistogram_known.

End AtNumber.

End Panics.

(** ** Transitivity, and the number of children *)

(** "If compare(a, b) and compare(b, c) are empty, so is compare(a, c)". *)
Definition transitive_on {T} (equal : T -> T -> outcome (list string))
    (known : T -> bool) : Prop :=
  forall a b c, known a = true -> known b = true -> known c = true ->
    equal a b = Ok [] -> equal b c = Ok [] -> equal a c = Ok [].

(** Two values with different numbers of children never compare equal. *)
Definition counts_children {T C} (equal : T -> T -> outcome (list string))
    (children : T -> list C) : Prop :=
  forall a b, length (children a) <> length (children b) -> equal a b <> Ok [].

Section MorePropertiesAtNumber.
Context {E : External} (N : Type) `{Number N}.

Definition leaves_transitive (cfg : config) : Prop :=
  transitive_on (fun a b : Exemplar.t N => equalExemplars a b cfg) Exemplar_known
  /\ transitive_on (fun a b : DataPoint.t N => equalDataPoints a b cfg) DataPoint_known
  /\ transitive_on (fun a b : HistogramDataPoint.t N => equalHistogramDataPoints a b cfg)
       HistogramDataPoint_known
  /\ transitive_on
       (fun a b : ExponentialHistogramDataPoint.t N =>
          equalExponentialHistogramDataPoints a b cfg)
       ExponentialHistogramDataPoint_known.

Definition data_points_counted (cfg : config) : Prop :=
  counts_children (fun a b : Gauge.t N => equalGauges a b cfg) Gauge.DataPoints
  /\ counts_children (fun a b : Sum.t N => equalSums a b cfg) Sum.DataPoints
  /\ counts_children (fun a b : Histogram.t N => equalHistograms a b cfg)
       Histogram.DataPoints
  /\ counts_children
       (fun a b : ExponentialHistogram.t N => equalExponentialHistograms a b cfg)
       ExponentialHistogram.DataPoints.

Definition exemplars_counted (cfg : config) : Prop :=
  counts_children (fun a b : DataPoint.t N => equalDataPoints a b cfg)
    DataPoint.Exemplars
  /\ counts_children
       (fun a b : HistogramDataPoint.t N => equalHistogramDataPoints a b cfg)
       HistogramDataPoint.Exemplars
  /\ counts_children
       (fun a b : ExponentialHistogramDataPoint.t N =>
          equalExponentialHistogramDataPoints a b cfg)
       ExponentialHistogramDataPoint.Exemplars.

End MorePropertiesAtNumber.

(** ** More example trees *)

Module MoreExamples.

(** The policy of the option [IgnoreExemplars] alone. *)
Definition ignoreExemplarsOnly : config :=
  {| ignoreTimestamp := false; ignoreExemplars := true; ignoreValue := false |}.

(** An exemplar whose only filtered attribute holds the zero [Value]. *)
Definition invalidExemplar : Exemplar.t int64 := {|
  Exemplar.FilteredAttributes := [{| Key_ := "k"; Value_ := InvalidValue |}];
  Exemplar.Time := 0%Z;
  Exemplar.Value := 5%Z;
  Exemplar.SpanID := [];
  Exemplar.TraceID := []
|}.

(** An exemplar with one filtered attribute. *)
Definition plainExemplar : Exemplar.t int64 := {|
  Exemplar.FilteredAttributes := [Examples.method_GET];
  Exemplar.Time := 0%Z;
  Exemplar.Value := 6%Z;
  Exemplar.SpanID := [];
  Exemplar.TraceID := []
|}.

Definition invalidPoint : DataPoint.t (E:=Reference.external) int64 := {|
  DataPoint.Attributes := [Examples.method_GET] : @Set_ Reference.external;
  DataPoint.StartTime := 0%Z;
  DataPoint.Time := 1%Z;
  DataPoint.Value := 5%Z;
  DataPoint.Exemplars := [invalidExemplar]
|}.

Definition gaugeOf (points : list (DataPoint.t (E:=Reference.external) int64))
  : Metrics.t (E:=Reference.external) := {|
  Metrics.Name := "requests";
  Metrics.Description := "";
  Metrics.Unit := "";
  Metrics.Data := Some (GaugeInt64 {| Gauge.DataPoints := points |})
|}.

Definition invalidTree : ResourceMetrics.t (E:=Reference.external) :=
  Examples.resourceOf [gaugeOf [invalidPoint]].

End MoreExamples.

(** ** Containment over lists of attributes *)

Section ContainmentVocabulary.
Context {E : External}.

(** A check passes for the concatenation of two attribute lists exactly
    when it passes for each. *)
Definition splits_over_append {T} (check : T -> list KeyValue -> list string) : Prop :=
  forall x attrs1 attrs2,
    check x (attrs1 ++ attrs2) = [] <-> check x attrs1 = [] /\ check x attrs2 = [].

(** The aggregation has one of the eight types of the type switch. *)
Definition Aggregation_recognised (agg : option Aggregation) : bool :=
  match agg with
  | Some (OtherAggregation _) | None => false
  | Some _ => true
  end.

End ContainmentVocabulary.

(** ** The text of a difference *)

(** One line for each element, as [compareDiff] formats it. *)
Definition formatted_lines {E : External} {T} (l : list T) : string :=
  fold_right (fun v rest => fmt_sharp_v T v +:+ nl +:+ rest) "" l.

(** ** Collections as multisets

    "The DataPoints each Gauge contains are compared based on containing
    the same DataPoints, not the order they are stored in", and the same
    for the other collections: one list is a rearrangement of the other up
    to the comparison of the elements. *)

Definition same_multiset {C} (equal : C -> C -> outcome (list string)) (A B : list C)
  : Prop :=
  exists B', B ≡ₚ B' /\ Forall2 (fun x y => equal x y = Ok []) A B'.

Section MultisetsAtNumber.
Context {E : External} (N : Type) `{Number N}.

Definition aggregations_as_multisets (cfg : config) : Prop :=
  (forall a b : Gauge.t N, Gauge_known a = true -> Gauge_known b = true ->
     (equalGauges a b cfg = Ok [] <->
      same_multiset (fun x y => equalDataPoints x y cfg)
        (Gauge.DataPoints a) (Gauge.DataPoints b)))
  /\ (forall a b : Sum.t N, Sum_known a = true -> Sum_known b = true ->
        (equalSums a b cfg = Ok [] <->
         Sum.Temporality a = Sum.Temporality b
         /\ Sum.IsMonotonic a = Sum.IsMonotonic b
         /\ same_multiset (fun x y => equalDataPoints x y cfg)
              (Sum.DataPoints a) (Sum.DataPoints b)))
  /\ (forall a b : Histogram.t N, Histogram_known a = true -> Histogram_known b = true ->
        (equalHistograms a b cfg = Ok [] <->
         Histogram.Temporality a = Histogram.Temporality b
         /\ same_multiset (fun x y => equalHistogramDataPoints x y cfg)
              (Histogram.DataPoints a) (Histogram.DataPoints b)))
  /\ (forall a b : ExponentialHistogram.t N,
        ExponentialHistogram_known a = true -> ExponentialHistogram_known b = true ->
        (equalExponentialHistograms a b cfg = Ok [] <->
         ExponentialHistogram.Temporality a = ExponentialHistogram.Temporality b
         /\ same_multiset (fun x y => equalExponentialHistogramDataPoints x y cfg)
              (ExponentialHistogram.DataPoints a) (ExponentialHistogram.DataPoints b))).

End MultisetsAtNumber.

(** * Properties *)

(** ** The outcome monad *)

Lemma bind_Ok {A B} (f : A -> outcome B) (a : A) : (Ok a ≫= f) = f a.
Proof. reflexivity. Qed.

Lemma bind_Ok_inv {A B} (f : A -> outcome B) (m : outcome A) (b : B) :
  (m ≫= f) = Ok b -> exists a, m = Ok a /\ f a = Ok b.
Proof. destruct m as [a|msg]; simpl; [eauto | discriminate]. Qed.

Lemma fmap_Ok_inv {A B} (f : A -> B) (m : outcome A) (b : B) :
  f <$> m = Ok b -> exists a, m = Ok a /\ b = f a.
Proof. destruct m as [a|msg]; simpl; [intros [= <-]; eauto | discriminate]. Qed.

(** ** The multiset matcher: [diffSlices] is the greedy matcher *)

Section MatcherFacts.
Context {T : Type}.
Implicit Types (a b A B : list T) (visited : list bool).

(** The index loop over [b] is the structural scan of the part of [b] that
    is still ahead. *)
Lemma diffSlices_scan_flags (equal : T -> T -> outcome bool) ai b2 : forall b1 v1 v2,
  length v1 = length b1 -> length v2 = length b2 ->
  diffSlices_scan equal ai (b1 ++ b2) (v1 ++ v2) (length b1) (length b2)
  = (o ← scan_flags (equal ai) b2 v2;
     Ok (match o with
         | Some v2' => (v1 ++ v2', true)
         | None => (v1 ++ v2, false)
         end)).
Proof.
  induction b2 as [|y b2 IH]; intros b1 v1 v2 H1 H2.
  - destruct v2; [reflexivity | discriminate].
  - destruct v2 as [|v v2]; [discriminate|].
    injection H2 as H2. cbn [length diffSlices_scan scan_flags].
    rewrite <- H1 at 1. rewrite list_lookup_middle by reflexivity.
    rewrite list_lookup_middle by reflexivity.
    assert (Hnext : diffSlices_scan equal ai (b1 ++ y :: b2) (v1 ++ v :: v2)
                      (S (length b1)) (length b2)
                    = (o ← scan_flags (equal ai) b2 v2;
                       Ok (match o with
                           | Some v2' => (v1 ++ v :: v2', true)
                           | None => (v1 ++ v :: v2, false)
                           end))).
    { specialize (IH (b1 ++ [y]) (v1 ++ [v]) v2).
      rewrite !length_app in IH. cbn [length] in IH.
      rewrite !Nat.add_1_r in IH. rewrite <- !app_assoc in IH. cbn [app] in IH.
      rewrite IH by lia.
      destruct (scan_flags (equal ai) b2 v2) as [[v2'|]|]; simpl;
        rewrite <- ?app_assoc; reflexivity. }
    destruct v.
    + rewrite Hnext.
      destruct (scan_flags (equal ai) b2 v2) as [[v2'|]|]; reflexivity.
    + destruct (equal ai y) as [[|]|msg]; simpl.
      * rewrite <- H1. rewrite insert_app_r_alt by lia.
        rewrite Nat.sub_diag. reflexivity.
      * rewrite Hnext.
        destruct (scan_flags (equal ai) b2 v2) as [[v2'|]|]; reflexivity.
      * reflexivity.
Qed.

Lemma scan_flags_length (p : T -> outcome bool) b : forall visited visited',
  scan_flags p b visited = Ok (Some visited') -> length visited' = length visited.
Proof.
  induction b as [|y b IH]; intros [|v vs] vs' Hs; simpl in Hs; try discriminate.
  destruct v.
  - apply bind_Ok_inv in Hs as ([o|] & Ho & [= <-]). simpl. f_equal. eauto.
  - destruct (p y) as [[|]|]; simpl in Hs; try discriminate.
    + injection Hs as <-. reflexivity.
    + apply bind_Ok_inv in Hs as ([o|] & Ho & [= <-]). simpl. f_equal. eauto.
Qed.

(** Scanning with flags consumes the first unvisited element that matches. *)
Lemma scan_flags_remove_first (p : T -> outcome bool) b : forall visited,
  remove_firstM p (unvisited b visited)
  = (o ← scan_flags p b visited; Ok (option_map (unvisited b) o)).
Proof.
  induction b as [|y b IH]; intros [|v vs]; try reflexivity.
  cbn [unvisited scan_flags]. destruct v.
  - rewrite IH. destruct (scan_flags p b vs) as [[o|]|]; reflexivity.
  - cbn [remove_firstM]. destruct (p y) as [[|]|]; simpl; try reflexivity.
    rewrite IH. destruct (scan_flags p b vs) as [[o|]|]; reflexivity.
Qed.

Lemma diffSlices_each_greedyM (equal : T -> T -> outcome bool) b a :
  forall visited extraA, length visited = length b ->
  match diffSlices_each equal a b visited extraA with
  | Ok (visited', extraA') =>
      length visited' = length b /\
      exists ea, extraA' = extraA ++ ea /\
        greedyM equal a (unvisited b visited) = Ok (ea, unvisited b visited')
  | Panic msg => greedyM equal a (unvisited b visited) = Panic msg
  end.
Proof.
  induction a as [|ai a IH]; intros visited extraA Hlen.
  - simpl. split; [done|]. exists []. by rewrite app_nil_r.
  - cbn [diffSlices_each greedyM].
    pose proof (diffSlices_scan_flags equal ai b [] [] visited eq_refl Hlen) as Hscan.
    cbn [app length] in Hscan. rewrite Hscan. clear Hscan.
    rewrite scan_flags_remove_first.
    destruct (scan_flags (equal ai) b visited) as [[v'|]|msg] eqn:Hs; simpl.
    + apply scan_flags_length in Hs.
      specialize (IH v' extraA ltac:(lia)).
      destruct (diffSlices_each equal a b v' extraA) as [[v'' ea'']|]; done.
    + specialize (IH visited (extraA ++ [ai]) Hlen).
      destruct (diffSlices_each equal a b visited (extraA ++ [ai])) as [[v'' ea'']|].
      * destruct IH as (Hl & ea & -> & ->). split; [done|].
        exists (ai :: ea). by rewrite <- app_assoc.
      * by rewrite IH.
    + reflexivity.
Qed.

Lemma diffSlices_rest_unvisited b2 : forall b1 (v1 v2 : list bool) extraB,
  length v1 = length b1 -> length v2 = length b2 ->
  diffSlices_rest (b1 ++ b2) (v1 ++ v2) (length b1) (length b2) extraB
  = Ok (extraB ++ unvisited b2 v2).
Proof.
  induction b2 as [|y b2 IH]; intros b1 v1 v2 extraB H1 H2.
  - destruct v2; [|discriminate]. simpl. by rewrite app_nil_r.
  - destruct v2 as [|v v2]; [discriminate|].
    injection H2 as H2. cbn [length diffSlices_rest unvisited].
    rewrite <- H1 at 1. rewrite list_lookup_middle by reflexivity.
    rewrite list_lookup_middle by reflexivity.
    assert (Hnext : forall acc,
               diffSlices_rest (b1 ++ y :: b2) (v1 ++ v :: v2) (S (length b1))
                 (length b2) acc = Ok (acc ++ unvisited b2 v2)).
    { intros acc. specialize (IH (b1 ++ [y]) (v1 ++ [v]) v2 acc).
      rewrite !length_app in IH. cbn [length] in IH.
      rewrite !Nat.add_1_r in IH. rewrite <- !app_assoc in IH. cbn [app] in IH.
      apply IH; lia. }
    destruct v; rewrite Hnext; [done|]. by rewrite <- app_assoc.
Qed.

Lemma unvisited_replicate_false b : unvisited b (replicate (length b) false) = b.
Proof. induction b as [|y b IH]; simpl; congruence. Qed.

(** [diffSlices] computes what the greedy matcher computes, for every
    predicate, panics included. *)
Lemma diffSlices_greedyM a b (equal : T -> T -> outcome bool) :
  diffSlices a b equal = greedyM equal a b.
Proof.
  unfold diffSlices.
  pose proof (diffSlices_each_greedyM equal b a (replicate (length b) false) [])
    as Heach.
  rewrite length_replicate, unvisited_replicate_false in Heach.
  specialize (Heach eq_refl).
  destruct (diffSlices_each equal a b (replicate (length b) false) [])
    as [[v' ea']|msg]; simpl.
  - destruct Heach as (Hl & ea & -> & ->).
    pose proof (diffSlices_rest_unvisited b [] [] v' [] eq_refl Hl) as Hrest.
    cbn [app length] in Hrest. rewrite Hrest. reflexivity.
  - by rewrite Heach.
Qed.

Lemma remove_firstM_pure (p : T -> outcome bool) (q : T -> bool) B :
  (forall y, y ∈ B -> p y = Ok (q y)) ->
  remove_firstM p B = Ok (remove_first q B).
Proof.
  induction B as [|y B IH]; intros Hp; [reflexivity|].
  cbn [remove_firstM remove_first]. rewrite Hp by left. simpl.
  destruct (q y); [reflexivity|].
  rewrite IH; [reflexivity|]. intros z Hz. apply Hp. by right.
Qed.

Lemma remove_first_Some (q : T -> bool) B B' :
  remove_first q B = Some B' ->
  exists l1 y l2, B = l1 ++ y :: l2 /\ B' = l1 ++ l2 /\ q y = true
                  /\ Forall (fun z => q z = false) l1.
Proof.
  revert B'. induction B as [|y B IH]; intros B' Hr; [discriminate|].
  simpl in Hr. destruct (q y) eqn:Hq.
  - injection Hr as <-. exists [], y, B. auto.
  - destruct (remove_first q B) as [B1|]; [|discriminate].
    injection Hr as <-. destruct (IH B1 eq_refl) as (l1 & z & l2 & -> & -> & Hz & Hl1).
    exists (y :: l1), z, l2. auto.
Qed.

Lemma remove_first_None (q : T -> bool) B :
  remove_first q B = None <-> Forall (fun z => q z = false) B.
Proof.
  induction B as [|y B IH]; simpl.
  - split; auto.
  - destruct (q y) eqn:Hq.
    + split; [discriminate|]. intros HF. inversion HF; congruence.
    + destruct (remove_first q B).
      * split; [discriminate|]. intros HF. inversion HF; subst.
        apply IH in H2. discriminate.
      * split; [|reflexivity]. intros _. constructor; [done|]. by apply IH.
Qed.

Lemma greedyM_pure (equal : T -> T -> outcome bool) (eq : T -> T -> bool) A : forall B,
  (forall x y, x ∈ A -> y ∈ B -> equal x y = Ok (eq x y)) ->
  greedyM equal A B = Ok (greedy eq A B).
Proof.
  induction A as [|x A IH]; intros B Hp; [reflexivity|].
  cbn [greedyM greedy].
  rewrite (remove_firstM_pure (equal x) (eq x)) by (intros; apply Hp; [left|done]).
  simpl. destruct (remove_first (eq x) B) as [B'|] eqn:Hr.
  - apply IH. intros x' y' Hx Hy. apply Hp; [by right|].
    apply remove_first_Some in Hr as (l1 & z & l2 & -> & -> & _).
    rewrite elem_of_app in Hy. rewrite elem_of_app, elem_of_cons. tauto.
  - rewrite IH by (intros; apply Hp; [by right|done]).
    simpl. by destruct (greedy eq A B).
Qed.

(** Invariants of the matching. *)
Lemma remove_firstM_Some (p : T -> outcome bool) B B' :
  remove_firstM p B = Ok (Some B') ->
  length B = S (length B') /\ B' `sublist_of` B.
Proof.
  revert B'. induction B as [|y B IH]; intros B' Hr; [discriminate|].
  simpl in Hr. destruct (p y) as [[|]|]; simpl in Hr; try discriminate.
  - injection Hr as <-. split; [done|]. by apply sublist_cons.
  - apply bind_Ok_inv in Hr as ([o|] & Ho & [= <-]).
    destruct (IH _ Ho) as [Hl Hs]. split; [simpl; lia|]. by apply sublist_skip.
Qed.

Lemma remove_firstM_None (p : T -> outcome bool) B :
  remove_firstM p B = Ok None -> Forall (fun y => p y = Ok false) B.
Proof.
  induction B as [|y B IH]; intros Hr; [constructor|].
  simpl in Hr. destruct (p y) as [[|]|] eqn:Hp; simpl in Hr; try discriminate.
  apply bind_Ok_inv in Hr as ([o|] & Ho & [=]). constructor; auto.
Qed.

Lemma greedyM_invariants (equal : T -> T -> outcome bool) A : forall B extraA extraB,
  greedyM equal A B = Ok (extraA, extraB) ->
  length A + length extraB = length B + length extraA
  /\ extraA `sublist_of` A /\ extraB `sublist_of` B.
Proof.
  induction A as [|x A IH]; intros B ea eb Hg.
  - injection Hg as <- <-. simpl. split; [lia|]. split; reflexivity.
  - cbn [greedyM] in Hg. apply bind_Ok_inv in Hg as (o & Ho & Hg).
    destruct o as [B'|].
    + apply remove_firstM_Some in Ho as [Hl Hs].
      apply IH in Hg as (Hlen & Ha & Hb). simpl. split; [lia|].
      split; [by apply sublist_cons | by etransitivity].
    + apply bind_Ok_inv in Hg as ([ea' eb'] & Hg & [= <- <-]).
      apply IH in Hg as (Hlen & Ha & Hb). simpl. split; [lia|].
      split; [by apply sublist_skip | done].
Qed.

End MatcherFacts.

(** ** Matching under a partial equivalence

    The comparators hand [diffSlices] predicates that are symmetric and
    transitive on the elements they are given (not reflexive: a NaN
    differs from itself). For such a predicate the greedy matcher finds a
    perfect matching whenever one exists. *)

Section MatchedPER.
Context {T : Type} (eq : T -> T -> bool) (P : T -> Prop).
Hypothesis eq_sym : forall x y, P x -> P y -> eq x y = true -> eq y x = true.
Hypothesis eq_trans : forall x y z, P x -> P y -> P z ->
  eq x y = true -> eq y z = true -> eq x z = true.

Let R (x y : T) : Prop := eq x y = true.

Lemma matched_nil_l B : matched eq [] B = true <-> B = [].
Proof. unfold matched; simpl. destruct B; split; congruence. Qed.

Lemma matched_cons x A B :
  matched eq (x :: A) B = true <->
  exists B', remove_first (eq x) B = Some B' /\ matched eq A B' = true.
Proof.
  unfold matched; simpl. destruct (remove_first (eq x) B) as [B'|].
  - split; [eauto|]. by intros (B'' & [= <-] & H).
  - destruct (greedy eq A B). split; [discriminate|]. by intros (B'' & [=] & _).
Qed.

(** A perfect greedy matching pairs the elements of [A], in order, with a
    rearrangement of [B]. *)
Lemma matched_Forall2 A : forall B,
  matched eq A B = true -> exists B', B ≡ₚ B' /\ Forall2 R A B'.
Proof using Type.
  induction A as [|x A IH]; intros B Hm.
  - apply matched_nil_l in Hm as ->. exists []. split; constructor.
  - apply matched_cons in Hm as (B1 & Hr & Hm).
    apply remove_first_Some in Hr as (l1 & z & l2 & -> & -> & Hz & _).
    destruct (IH _ Hm) as (B1' & Hp & HF).
    exists (z :: B1'). split.
    + rewrite <- Permutation_middle. by constructor.
    + by constructor.
Qed.

Lemma Forall2_matched A : forall B B',
  Forall P A -> Forall P B -> B ≡ₚ B' -> Forall2 R A B' -> matched eq A B = true.
Proof using eq_sym eq_trans.
  induction A as [|x A IH]; intros B B' HPA HPB Hp HF.
  - inversion HF; subst. apply Permutation_nil_r in Hp as ->. by apply matched_nil_l.
  - inversion HF as [|? y ? B'' Hxy HF']; subst.
    apply Forall_cons in HPA as [HPx HPA].
    assert (HPB' : Forall P (y :: B'')) by (by rewrite <- Hp).
    apply Forall_cons in HPB' as [HPy HPB''].
    apply matched_cons.
    destruct (remove_first (eq x) B) as [B1|] eqn:Hr.
    2:{ apply remove_first_None in Hr. rewrite Forall_forall in Hr.
        assert (Hy : y ∈ B) by (rewrite Hp; left).
        specialize (Hr y Hy). unfold R in Hxy. congruence. }
    exists B1. split; [done|].
    apply remove_first_Some in Hr as (l1 & z & l2 & -> & -> & Hz & _).
    assert (HPz : P z).
    { rewrite Forall_forall in HPB. apply HPB. rewrite elem_of_app. right. left. }
    assert (HPB1 : Forall P (l1 ++ l2)).
    { rewrite Forall_app in *. destruct HPB as [? HPB].
      apply Forall_cons in HPB as [_ ?]. done. }
    rewrite <- Permutation_middle in Hp.
    assert (Hzin : z ∈ y :: B'') by (rewrite <- Hp; left).
    apply elem_of_cons in Hzin as [->|Hzin].
    + apply Permutation_cons_inv in Hp. by apply (IH _ B'').
    + apply list_elem_of_split in Hzin as (m1 & m2 & ->).
      apply Forall2_app_inv_r in HF' as (n1 & n2' & Hn1 & Hn2 & ->).
      apply Forall2_cons_inv_r in Hn2 as (w & n2 & Hwz & Hn2 & ->).
      assert (HPw : P w).
      { rewrite Forall_forall in HPA. apply HPA. rewrite elem_of_app. right. left. }
      apply (IH _ (m1 ++ y :: m2)); [done|done| |].
      * apply (Permutation_cons_inv (a:=z)). rewrite Hp.
        rewrite <- !Permutation_middle. apply perm_swap.
      * apply Forall2_app; [done|]. constructor; [|done].
        unfold R in *.
        apply (eq_trans w z y); [done..|].
        apply (eq_trans z x y); [done..| |done]. by apply eq_sym.
Qed.

(** The elements an element is matched with are related to themselves. *)
Lemma matched_self A B :
  Forall P A -> Forall P B -> matched eq A B = true ->
  Forall (fun x => eq x x = true) A /\ Forall (fun y => eq y y = true) B.
Proof using eq_sym eq_trans.
  intros HPA HPB Hm. apply matched_Forall2 in Hm as (B' & Hp & HF).
  assert (HPB' : Forall P B') by (by rewrite <- Hp).
  assert (H : Forall (fun x => eq x x = true) A /\ Forall (fun y => eq y y = true) B').
  { clear Hp HPB. induction HF as [|x y A B' Hxy HF IH].
    - split; constructor.
    - apply Forall_cons in HPA as [HPx HPA]. apply Forall_cons in HPB' as [HPy HPB'].
      destruct (IH HPA HPB') as [IH1 IH2]. unfold R in Hxy.
      split; constructor; try done.
      + apply (eq_trans x y x); auto.
      + apply (eq_trans y x y); auto. }
  destruct H as [H1 H2]. split; [done|]. by rewrite Hp.
Qed.

Lemma matched_sym A B :
  Forall P A -> Forall P B -> matched eq A B = true -> matched eq B A = true.
Proof using eq_sym eq_trans.
  intros HPA HPB Hm. apply matched_Forall2 in Hm as (B' & Hp & HF).
  assert (HPB' : Forall P B') by (by rewrite <- Hp).
  assert (HF' : Forall2 R B' A).
  { clear Hp HPB. induction HF as [|x y A B' Hxy HF IH]; [constructor|].
    apply Forall_cons in HPA as [HPx HPA]. apply Forall_cons in HPB' as [HPy HPB'].
    constructor; [by apply eq_sym | by apply IH]. }
  symmetry in Hp.
  destruct (Permutation_Forall2 Hp HF') as (A' & HpA & HFA).
  by apply (Forall2_matched B A A').
Qed.

Lemma Forall2_R_trans A B C :
  Forall P A -> Forall P B -> Forall P C ->
  Forall2 R A B -> Forall2 R B C -> Forall2 R A C.
Proof using eq_trans.
  intros HPA HPB HPC HAB. revert C HPC.
  induction HAB as [|x y A B Hxy HAB IH]; intros C HPC HBC.
  - inversion HBC; subst. constructor.
  - inversion HBC as [|? z ? C' Hyz HBC']; subst.
    apply Forall_cons in HPA as [HPx HPA]. apply Forall_cons in HPB as [HPy HPB].
    apply Forall_cons in HPC as [HPz HPC].
    constructor; [exact (eq_trans x y z HPx HPy HPz Hxy Hyz) | by apply IH].
Qed.

Lemma matched_trans A B C :
  Forall P A -> Forall P B -> Forall P C ->
  matched eq A B = true -> matched eq B C = true -> matched eq A C = true.
Proof using eq_sym eq_trans.
  intros HPA HPB HPC HAB HBC.
  apply matched_Forall2 in HAB as (B' & HpB & HFAB).
  apply matched_Forall2 in HBC as (C' & HpC & HFBC).
  destruct (Permutation_Forall2 HpB HFBC) as (C'' & HpC' & HFBC').
  apply (Forall2_matched A C C''); [done|done|by etransitivity|].
  apply (Forall2_R_trans A B' C''); try done.
  - by rewrite <- HpB.
  - by rewrite <- HpC', <- HpC.
Qed.

(** Rearranging either list does not change whether the matching is
    perfect. *)
Lemma matched_perm_l A A' B :
  Forall P A -> Forall P B -> A ≡ₚ A' ->
  matched eq A B = true -> matched eq A' B = true.
Proof using eq_sym eq_trans.
  intros HPA HPB HpA Hm. apply matched_Forall2 in Hm as (B' & Hp & HF).
  destruct (Permutation_Forall2 HpA HF) as (B'' & Hp' & HF').
  apply (Forall2_matched A' B B''); [by rewrite <- HpA|done|by etransitivity|done].
Qed.

Lemma matched_perm_r A B B' :
  Forall P A -> Forall P B -> B ≡ₚ B' ->
  matched eq A B = true -> matched eq A B' = true.
Proof using eq_sym eq_trans.
  intros HPA HPB HpB Hm. apply matched_Forall2 in Hm as (B1 & Hp & HF).
  apply (Forall2_matched A B' B1); [done|by rewrite <- HpB| |done].
  by rewrite <- HpB.
Qed.

End MatchedPER.

(** A list is matched with itself when each element is related to itself. *)
Lemma matched_refl {T} (eq : T -> T -> bool) (A : list T) :
  Forall (fun x => eq x x = true) A -> matched eq A A = true.
Proof.
  induction A as [|x A IH]; intros HF; [reflexivity|].
  apply Forall_cons in HF as [Hx HF]. unfold matched. simpl. rewrite Hx.
  by apply IH.
Qed.

(** ** The diff formatter returns the empty string only for two empty lists *)

Lemma append_empty (s t : string) : s +:+ t = "" -> s = "" /\ t = "".
Proof. destruct s; simpl; [auto | discriminate]. Qed.

Lemma fold_left_append_nonempty {T} (f : T -> string) (l : list T) : forall init,
  init <> "" -> fold_left (fun msg v => msg +:+ f v) l init <> "".
Proof.
  induction l as [|x l IH]; intros init Hinit; simpl; [done|].
  apply IH. intros Happ. by apply append_empty in Happ as [? _].
Qed.

Lemma compareDiff_empty `{External} {T} (extraExpected extraActual : list T) :
  compareDiff extraExpected extraActual = "" <->
  extraExpected = [] /\ extraActual = [].
Proof.
  unfold compareDiff. destruct extraExpected as [|x ea], extraActual as [|y eb];
    cbn [length Nat.eqb Nat.ltb Nat.leb andb].
  - done.
  - split; [|by intros [_ [=]]]. intros Hf. exfalso. revert Hf.
    apply fold_left_append_nonempty. discriminate.
  - split; [|by intros [[=] _]]. intros Hf. exfalso. revert Hf.
    apply fold_left_append_nonempty. discriminate.
  - split; [|by intros [[=] _]]. intros Hf. exfalso. revert Hf.
    apply fold_left_append_nonempty.
    intros Happ. apply append_empty in Happ as [_ [=]].
Qed.

Lemma compareDiff_eqb `{External} {T} (extraExpected extraActual : list T) :
  negb (String.eqb (compareDiff extraExpected extraActual) "") = false <->
  extraExpected = [] /\ extraActual = [].
Proof.
  rewrite negb_false_iff, String.eqb_eq. apply compareDiff_empty.
Qed.

(** ** Claims about the multiset matcher *)

(** C1. For every two sequences and every predicate, [diffSlices] returns
    the unmatched elements of greedy first-available matching: going
    through [A] in order, each element is matched to the first element of
    [B] not yet consumed that satisfies the predicate, which is then
    consumed, or else it is appended to [extraA]; what is left of [B] is
    [extraB]. The formatted difference of a collection is empty exactly
    when both returned lists are empty. *)
Theorem diffSlices_greedy_first_available `{External} {T} (eq : T -> T -> bool)
    (A B : list T) :
  diffSlices A B (fun x y => Ok (eq x y)) = Ok (greedy eq A B)
  /\ (compareDiff (greedy eq A B).1 (greedy eq A B).2 = ""
      <-> greedy eq A B = ([], [])).
Proof.
  split.
  - rewrite diffSlices_greedyM. by apply greedyM_pure.
  - rewrite compareDiff_empty. destruct (greedy eq A B) as [ea eb]; simpl.
    split; [by intros [-> ->] | by intros [= -> ->]].
Qed.

Lemma greedyM_matching_invariant {T} (equal : T -> T -> outcome bool)
    (A B extraA extraB : list T) :
  greedyM equal A B = Ok (extraA, extraB) -> matching_invariant A B extraA extraB.
Proof.
  intros Hg. apply greedyM_invariants in Hg as (Hlen & Ha & Hb).
  pose proof (sublist_length _ _ Ha). pose proof (sublist_length _ _ Hb).
  unfold matching_invariant. repeat split; try done; try lia.
  intros Hne. destruct extraA, extraB; simpl in *; auto. lia.
Qed.

(** C10. The matching [diffSlices] builds is injective into [B]: as many
    elements are matched on each side, so the lengths of the inputs minus
    the lengths of the unmatched lists agree; when the inputs differ in
    length one of the returned lists is not empty; and each returned list
    is a subsequence of its input, in the input's order. With a predicate
    that never panics [diffSlices] does return, and whenever it returns,
    for any predicate, the invariant holds. *)
Theorem diffSlices_matching_injective {T} (A B : list T) :
  (forall eq : T -> T -> bool, exists extraA extraB,
      diffSlices A B (fun x y => Ok (eq x y)) = Ok (extraA, extraB)
      /\ matching_invariant A B extraA extraB)
  /\ (forall (equal : T -> T -> outcome bool) extraA extraB,
         diffSlices A B equal = Ok (extraA, extraB) ->
         matching_invariant A B extraA extraB).
Proof.
  split.
  - intros eq. exists (greedy eq A B).1, (greedy eq A B).2.
    assert (Hd : diffSlices A B (fun x y => Ok (eq x y)) = Ok (greedy eq A B)).
    { rewrite diffSlices_greedyM. by apply greedyM_pure. }
    rewrite <- surjective_pairing. split; [done|].
    apply (greedyM_matching_invariant (fun x y => Ok (eq x y))).
    rewrite <- diffSlices_greedyM, Hd. by rewrite <- surjective_pairing.
  - intros equal extraA extraB Hd. rewrite diffSlices_greedyM in Hd.
    by apply greedyM_matching_invariant in Hd.
Qed.

(** ** Ordered comparison of slices *)

Lemma equalSlices_loop_Forall2 {T} `{Comparable T} (a : list T) : forall b1 b2,
  length a = length b2 ->
  equalSlices_loop a (b1 ++ b2) (length b1) = true
  <-> Forall2 (fun x y => go_eqb x y = true) a b2.
Proof.
  induction a as [|x a IH]; intros b1 b2 Hlen.
  - destruct b2; [|discriminate]. simpl. split; [constructor|done].
  - destruct b2 as [|y b2]; [discriminate|]. injection Hlen as Hlen.
    cbn [equalSlices_loop]. rewrite list_lookup_middle by reflexivity.
    specialize (IH (b1 ++ [y]) b2 Hlen).
    rewrite length_app, Nat.add_1_r, <- app_assoc in IH. cbn [app length] in IH.
    destruct (go_eqb x y) eqn:Hxy; simpl.
    + rewrite IH. split; [by constructor|]. by intros HF; inversion HF.
    + split; [discriminate|]. intros HF; inversion HF; congruence.
Qed.

Lemma equalSlices_Forall2 {T} `{Comparable T} (a b : list T) :
  equalSlices a b = true <-> Forall2 (fun x y => go_eqb x y = true) a b.
Proof.
  unfold equalSlices. destruct (length a =? length b) eqn:Hlen; simpl.
  - apply Nat.eqb_eq in Hlen. apply (equalSlices_loop_Forall2 a [] b Hlen).
  - apply Nat.eqb_neq in Hlen. split; [discriminate|].
    intros HF. by apply Forall2_length in HF.
Qed.

(** ** C3: equality of extrema *)

Lemma elem_of_appendIf (c : bool) (reasons : list string) (s x : string) :
  x ∈ appendIf c reasons s <-> x ∈ reasons \/ (c = true /\ x = s).
Proof.
  unfold appendIf. destruct c.
  - rewrite elem_of_app, list_elem_of_singleton. intuition.
  - intuition congruence.
Qed.

Lemma appendIf_nil (c : bool) (reasons : list string) (s : string) :
  appendIf c reasons s = [] <-> c = false /\ reasons = [].
Proof.
  unfold appendIf. destruct c.
  - split; [|by intros [[=] _]]. intros Happ. by apply app_eq_nil in Happ as [_ [=]].
  - intuition.
Qed.

Lemma eqExtrema_cases {N} `{Number N} (a b : Extrema.t N) :
  eqExtrema a b =
  match Extrema.valid a, Extrema.valid b with
  | true, true => go_eqb (Extrema.value a) (Extrema.value b)
  | false, false => true
  | _, _ => false
  end.
Proof.
  unfold eqExtrema, Extrema.Value.
  by destruct (Extrema.valid a), (Extrema.valid b).
Qed.

Lemma append_nonempty (r reasons : list string) :
  (if 0 <? length r then reasons ++ r else reasons) = reasons ++ r.
Proof. destruct r; simpl; [by rewrite app_nil_r | done]. Qed.

(** Two reasons built by [notEqualStr] from different field names differ. *)
Ltac reason_neq H :=
  unfold notEqualStr in H; cbn [String.append] in H; discriminate H.

Ltac reason_split :=
  split; split; intros;
  repeat match goal with
    | K : _ \/ _ |- _ => destruct K
    | K : _ /\ _ |- _ => destruct K
    | K : False |- _ => destruct K
    | K : true = false |- _ => discriminate K
    | K : @eq string _ _ |- _ => first [ reason_neq K | clear K ]
    end;
  try (split; [reflexivity | assumption]);
  try solve [ repeat first [ right; split; [assumption | reflexivity] | left ] ].

Ltac reason_in :=
  repeat first
    [ rewrite elem_of_appendIf
    | rewrite elem_of_app
    | rewrite elem_of_nil ].

(** C3. Two absent extrema are equal; an absent and a present one differ,
    whatever the present value (zero included); two present ones are equal
    exactly when Go's [==] holds of their values. The reasons "Min not
    equal" and "Max not equal" of a histogram data point and of an
    exponential histogram data point are reported exactly when values are
    not ignored and [eqExtrema] tells the two extrema apart. *)
Theorem eqExtrema_absent_present `{External} {N} `{Number N} :
  (forall a b : Extrema.t N,
      (Extrema.valid a = false -> Extrema.valid b = false -> eqExtrema a b = true)
      /\ (Extrema.valid a <> Extrema.valid b -> eqExtrema a b = false)
      /\ (Extrema.valid a = true -> Extrema.valid b = true ->
          eqExtrema a b = go_eqb (Extrema.value a) (Extrema.value b)))
  /\ (forall (a b : HistogramDataPoint.t N) cfg reasons,
         equalHistogramDataPoints a b cfg = Ok reasons ->
         (notEqualStr "Min" (HistogramDataPoint.Min a) (HistogramDataPoint.Min b)
            ∈ reasons
          <-> ignoreValue cfg = false
              /\ eqExtrema (HistogramDataPoint.Min a) (HistogramDataPoint.Min b) = false)
         /\ (notEqualStr "Max" (HistogramDataPoint.Max a) (HistogramDataPoint.Max b)
               ∈ reasons
             <-> ignoreValue cfg = false
                 /\ eqExtrema (HistogramDataPoint.Max a) (HistogramDataPoint.Max b)
                    = false))
  /\ (forall (a b : ExponentialHistogramDataPoint.t N) cfg reasons,
         equalExponentialHistogramDataPoints a b cfg = Ok reasons ->
         (notEqualStr "Min" (ExponentialHistogramDataPoint.Min a)
            (ExponentialHistogramDataPoint.Min b) ∈ reasons
          <-> ignoreValue cfg = false
              /\ eqExtrema (ExponentialHistogramDataPoint.Min a)
                   (ExponentialHistogramDataPoint.Min b) = false)
         /\ (notEqualStr "Max" (ExponentialHistogramDataPoint.Max a)
               (ExponentialHistogramDataPoint.Max b) ∈ reasons
             <-> ignoreValue cfg = false
                 /\ eqExtrema (ExponentialHistogramDataPoint.Max a)
                      (ExponentialHistogramDataPoint.Max b) = false)).
Proof.
  split; [|split].
  - intros a b. rewrite eqExtrema_cases.
    destruct (Extrema.valid a), (Extrema.valid b); repeat split; congruence.
  - intros a b cfg reasons. unfold equalHistogramDataPoints.
    destruct (ignoreExemplars cfg); cbn [negb].
    + intros [= <-].
      destruct (ignoreValue cfg), (ignoreTimestamp cfg); cbn [negb];
        reason_in; rewrite ?negb_true_iff; reason_split.
    + destruct (diffSlices _ _ _) as [[ea eb]|]; [|discriminate].
      intros [= <-].
      destruct (ignoreValue cfg), (ignoreTimestamp cfg); cbn [negb];
        reason_in; rewrite ?negb_true_iff; reason_split.
  - intros a b cfg reasons. unfold equalExponentialHistogramDataPoints.
    rewrite !append_nonempty.
    destruct (ignoreExemplars cfg); cbn [negb].
    + intros [= <-].
      destruct (ignoreValue cfg), (ignoreTimestamp cfg); cbn [negb];
        unfold equalExponentialBuckets;
        reason_in; rewrite ?negb_true_iff; reason_split.
    + destruct (diffSlices _ _ _) as [[ea eb]|]; [|discriminate].
      intros [= <-].
      destruct (ignoreValue cfg), (ignoreTimestamp cfg); cbn [negb];
        unfold equalExponentialBuckets;
        reason_in; rewrite ?negb_true_iff; reason_split.
Qed.

(** ** C9: comparison of key/value lists *)

Section KeyValueFacts.
Context `{External}.

Lemma equalKeyValue_loop_step v a b i :
  equalKeyValue_loop (v :: a) b i =
  match b !! i with
  | None => Panic "index out of range"
  | Some bi =>
      c ← equalKeyValue_step v bi;
      if (c : bool) then equalKeyValue_loop a b (S i) else Ok false
  end.
Proof.
  cbn [equalKeyValue_loop]. destruct (b !! i) as [bi|]; [|reflexivity].
  unfold equalKeyValue_step.
  destruct (negb (Key_ v =? Key_ bi)%string); [reflexivity|].
  destruct (negb (Type_eqb (Type' (Value_ v)) (Type' (Value_ bi)))); [reflexivity|].
  destruct (Type' (Value_ v)); simpl; try reflexivity;
    match goal with |- context [negb ?c] => by destruct c end.
Qed.

Lemma Type_eqb_eq s t : Type_eqb s t = true <-> s = t.
Proof. destruct s, t; simpl; split; congruence. Qed.

Lemma equalKeyValue_step_known v bi :
  Type' (Value_ v) <> INVALID \/ Type' (Value_ bi) <> INVALID ->
  exists c, equalKeyValue_step v bi = Ok c /\ (c = true <-> KeyValue_equal v bi).
Proof.
  destruct v as [k1 v1], bi as [k2 v2]. unfold equalKeyValue_step, KeyValue_equal.
  cbn [Key_ Value_]. intros Hknown.
  destruct (String.eqb_spec k1 k2) as [->|Hk]; cbn [negb].
  2:{ exists false. split; [done|]. split; [done|]. by intros [? _]. }
  destruct v1, v2; cbn [Type' Type_eqb negb AsBool AsInt64 AsFloat64 AsString
                         AsBoolSlice AsInt64Slice AsFloat64Slice AsStringSlice];
    try (exists false; split; [done|]; split; [done|]; intros [_ Hv]; by inversion Hv);
    try (cbn [Type'] in Hknown; destruct Hknown; congruence);
    eexists; (split; [reflexivity|]);
    rewrite ?equalSlices_Forall2;
    (split; [intros Hc; split; [done|]; by constructor
            | intros [_ Hv]; by inversion Hv]).
Qed.

Lemma equalKeyValue_step_invalid v bi :
  Key_ v = Key_ bi -> Type' (Value_ v) = INVALID -> Type' (Value_ bi) = INVALID ->
  equalKeyValue_step v bi
  = Panic ("unknown attribute value type: " +:+ fmt_v Type_ INVALID).
Proof.
  intros Hk Hv Hb. unfold equalKeyValue_step.
  rewrite Hk, String.eqb_refl, Hv, Hb. reflexivity.
Qed.

Lemma knownKinds_cons kv l :
  knownKinds (kv :: l) = true <-> Type' (Value_ kv) <> INVALID /\ knownKinds l = true.
Proof.
  unfold knownKinds. cbn [forallb]. rewrite andb_true_iff, negb_true_iff.
  rewrite <- not_true_iff_false, Type_eqb_eq. done.
Qed.

Lemma equalKeyValue_loop_known a : forall b1 b2,
  length a = length b2 -> knownKinds a = true \/ knownKinds b2 = true ->
  exists r, equalKeyValue_loop a (b1 ++ b2) (length b1) = Ok r
            /\ (r = true <-> Forall2 KeyValue_equal a b2).
Proof.
  induction a as [|v a IH]; intros b1 b2 Hlen Hknown.
  - destruct b2; [|discriminate]. exists true. split; [done|]. split; [constructor|done].
  - destruct b2 as [|w b2]; [discriminate|]. injection Hlen as Hlen.
    rewrite equalKeyValue_loop_step, list_lookup_middle by reflexivity.
    rewrite !knownKinds_cons in Hknown.
    destruct (equalKeyValue_step_known v w) as (c & -> & Hc); [tauto|].
    specialize (IH (b1 ++ [w]) b2 Hlen ltac:(tauto)).
    rewrite length_app, Nat.add_1_r, <- app_assoc in IH. cbn [app length] in IH.
    destruct IH as (r & Hr & Hiff). cbn [mbind outcome_bind]. destruct c.
    + exists r. split; [done|]. rewrite Hiff. split.
      * intros HF. constructor; [by apply Hc | done].
      * intros HF. by inversion HF.
    + exists false. split; [done|]. split; [done|].
      intros HF. inversion HF; subst. by apply Hc.
Qed.

Lemma equalKeyValue_loop_invalid a1 : forall b0 b1 a2 b2 x y,
  Forall2 KeyValue_equal a1 b1 ->
  Key_ x = Key_ y -> Type' (Value_ x) = INVALID -> Type' (Value_ y) = INVALID ->
  equalKeyValue_loop (a1 ++ x :: a2) (b0 ++ b1 ++ y :: b2) (length b0)
  = Panic ("unknown attribute value type: " +:+ fmt_v Type_ INVALID).
Proof.
  induction a1 as [|v a1 IH]; intros b0 b1 a2 b2 x y HF Hk Hx Hy.
  - inversion HF; subst. cbn [app].
    rewrite equalKeyValue_loop_step, list_lookup_middle by reflexivity.
    by rewrite equalKeyValue_step_invalid.
  - inversion HF as [|? w ? b1' Hvw HF']; subst. cbn [app].
    rewrite equalKeyValue_loop_step, list_lookup_middle by reflexivity.
    assert (Hv : Type' (Value_ v) <> INVALID).
    { destruct Hvw as [_ Hvw]. inversion Hvw; simpl; congruence. }
    destruct (equalKeyValue_step_known v w) as (c & -> & Hc); [tauto|].
    apply Hc in Hvw as ->. cbn [mbind outcome_bind].
    specialize (IH (b0 ++ [w]) b1' a2 b2 x y HF' Hk Hx Hy).
    rewrite length_app, Nat.add_1_r, <- app_assoc in IH. by cbn [app length] in IH.
Qed.

End KeyValueFacts.

Lemma equalKeyValue_known `{External} (a b : list KeyValue) :
  knownKinds a = true \/ knownKinds b = true ->
  exists r, equalKeyValue a b = Ok r /\ (r = true <-> Forall2 KeyValue_equal a b).
Proof.
  intros Hknown. unfold equalKeyValue.
  destruct (length a =? length b) eqn:Hlen; cbn [negb].
  - apply Nat.eqb_eq in Hlen. by apply (equalKeyValue_loop_known a [] b).
  - apply Nat.eqb_neq in Hlen. exists false. split; [done|]. split; [done|].
    intros HF. by apply Forall2_length in HF.
Qed.

(** Whenever one iteration of the loop returns, it tells whether the two
    attributes are equal; no known kind is asked for. *)
Lemma equalKeyValue_step_Ok `{External} v bi c :
  equalKeyValue_step v bi = Ok c -> (c = true <-> KeyValue_equal v bi).
Proof.
  intros Hs.
  destruct (Type_eqb (Type' (Value_ v)) INVALID) eqn:Hv.
  2:{ destruct (equalKeyValue_step_known v bi) as (c' & Hc' & Hiff).
      { left. intros Hinv. apply Type_eqb_eq in Hinv. congruence. }
      rewrite Hs in Hc'. by injection Hc' as ->. }
  destruct (Type_eqb (Type' (Value_ bi)) INVALID) eqn:Hb.
  2:{ destruct (equalKeyValue_step_known v bi) as (c' & Hc' & Hiff).
      { right. intros Hinv. apply Type_eqb_eq in Hinv. congruence. }
      rewrite Hs in Hc'. by injection Hc' as ->. }
  apply Type_eqb_eq in Hv, Hb. unfold equalKeyValue_step in Hs.
  destruct (String.eqb_spec (Key_ v) (Key_ bi)) as [Hk|Hk]; cbn [negb] in Hs.
  - rewrite Hv, Hb in Hs. discriminate Hs.
  - injection Hs as <-. split; [discriminate|]. by intros [? _].
Qed.

Lemma equalKeyValue_step_Panic_inv `{External} v bi msg :
  equalKeyValue_step v bi = Panic msg ->
  Key_ v = Key_ bi /\ Type' (Value_ v) = INVALID /\ Type' (Value_ bi) = INVALID.
Proof.
  unfold equalKeyValue_step.
  destruct (String.eqb_spec (Key_ v) (Key_ bi)) as [Hk|Hk]; cbn [negb]; [|discriminate].
  destruct (Type_eqb (Type' (Value_ v)) (Type' (Value_ bi))) eqn:Ht; cbn [negb];
    [|discriminate].
  apply Type_eqb_eq in Ht. rewrite <- Ht.
  by destruct (Type' (Value_ v)).
Qed.

Lemma equalKeyValue_loop_Ok `{External} a : forall b1 b2 r,
  length a = length b2 ->
  equalKeyValue_loop a (b1 ++ b2) (length b1) = Ok r ->
  (r = true <-> Forall2 KeyValue_equal a b2).
Proof.
  induction a as [|v a IH]; intros b1 b2 r Hlen.
  - destruct b2; [|discriminate]. intros [= <-]. split; [constructor|done].
  - destruct b2 as [|w b2]; [discriminate|]. injection Hlen as Hlen.
    rewrite equalKeyValue_loop_step, list_lookup_middle by reflexivity.
    destruct (equalKeyValue_step v w) as [c|m] eqn:Hstep; cbn [mbind outcome_bind];
      [|discriminate].
    apply equalKeyValue_step_Ok in Hstep.
    specialize (IH (b1 ++ [w]) b2 r Hlen).
    rewrite length_app, Nat.add_1_r, <- app_assoc in IH. cbn [app length] in IH.
    destruct c.
    + intros Hloop. rewrite (IH Hloop). split.
      * intros HF. constructor; [by apply Hstep | done].
      * intros HF. by inversion HF.
    + intros [= <-]. split; [done|]. intros HF. inversion HF; subst.
      by apply Hstep.
Qed.

(** The loop panics only at a pair with the same key and both values of a
    kind outside the eight, after pairs that are all equal. *)
Lemma equalKeyValue_loop_Panic_inv `{External} a msg : forall b1 b2,
  length a = length b2 ->
  equalKeyValue_loop a (b1 ++ b2) (length b1) = Panic msg ->
  exists a1 x a2 c1 y c2,
    a = a1 ++ x :: a2 /\ b2 = c1 ++ y :: c2
    /\ Forall2 KeyValue_equal a1 c1 /\ length a2 = length c2
    /\ Key_ x = Key_ y
    /\ Type' (Value_ x) = INVALID /\ Type' (Value_ y) = INVALID.
Proof.
  induction a as [|v a IH]; intros b1 b2 Hlen; [discriminate|].
  destruct b2 as [|w b2]; [discriminate|]. injection Hlen as Hlen.
  rewrite equalKeyValue_loop_step, list_lookup_middle by reflexivity.
  destruct (equalKeyValue_step v w) as [[|]|m] eqn:Hstep; cbn [mbind outcome_bind].
  - apply equalKeyValue_step_Ok in Hstep. specialize (IH (b1 ++ [w]) b2 Hlen).
    rewrite length_app, Nat.add_1_r, <- app_assoc in IH. cbn [app length] in IH.
    intros Hloop.
    destruct (IH Hloop) as (a1 & x & a2 & c1 & y & c2 & -> & -> & HF & Hl & Hxy).
    exists (v :: a1), x, a2, (w :: c1), y, c2.
    split; [done|]. split; [done|]. split; [|done].
    constructor; [by apply Hstep | done].
  - discriminate.
  - intros _. apply equalKeyValue_step_Panic_inv in Hstep.
    by exists [], v, a, [], w, b2.
Qed.

(** Equal attributes have values of one of the eight kinds: the zero
    [Value] is equal to nothing. *)
Lemma Forall2_KeyValue_equal_known (a b : list KeyValue) :
  Forall2 KeyValue_equal a b -> knownKinds a = true /\ knownKinds b = true.
Proof.
  induction 1 as [|v w a b [_ Hv] HF [IHa IHb]]; [done|].
  rewrite !knownKinds_cons. by inversion Hv.
Qed.

(** C9. When the values of one of two key/value lists all have one of the
    eight known kinds (all the more when those of both do), [equalKeyValue]
    returns, and it returns true exactly when the lists have the same
    length and, position by position, the same key, the same kind and
    values equal under Go's [==] (element by element for slices). When the
    comparison reaches a pair with the same key whose values both have a
    kind outside the eight, it panics instead of returning.
    Whenever it returns, for any two lists, it returns that element-wise
    equality; and it panics only in the case just described: the lists
    have the same length, they agree up to some position, and the pair at
    that position has the same key and both values of a kind outside the
    eight. In every other case a value of such a kind does not make the
    comparison panic: it returns false. *)
Theorem equalKeyValue_known_kinds_or_panic `{External} :
  (forall a b : list KeyValue,
      knownKinds a = true \/ knownKinds b = true ->
      exists r, equalKeyValue a b = Ok r /\ (r = true <-> Forall2 KeyValue_equal a b))
  /\ (forall (a1 b1 a2 b2 : list KeyValue) (x y : KeyValue),
         Forall2 KeyValue_equal a1 b1 -> length a2 = length b2 ->
         Key_ x = Key_ y ->
         Type' (Value_ x) = INVALID -> Type' (Value_ y) = INVALID ->
         exists msg, equalKeyValue (a1 ++ x :: a2) (b1 ++ y :: b2) = Panic msg)
  /\ (forall (a b : list KeyValue) r,
         equalKeyValue a b = Ok r -> (r = true <-> Forall2 KeyValue_equal a b))
  /\ (forall (a b : list KeyValue) msg,
         equalKeyValue a b = Panic msg ->
         exists a1 x a2 b1 y b2,
           a = a1 ++ x :: a2 /\ b = b1 ++ y :: b2
           /\ Forall2 KeyValue_equal a1 b1 /\ length a2 = length b2
           /\ Key_ x = Key_ y
           /\ Type' (Value_ x) = INVALID /\ Type' (Value_ y) = INVALID)
  /\ (forall (a b : list KeyValue) r,
         knownKinds a = false \/ knownKinds b = false ->
         equalKeyValue a b = Ok r -> r = false).
Proof.
  assert (Hreturns : forall (a b : list KeyValue) r,
             equalKeyValue a b = Ok r -> (r = true <-> Forall2 KeyValue_equal a b)).
  { intros a b r. unfold equalKeyValue.
    destruct (length a =? length b) eqn:Hlen; cbn [negb].
    - apply Nat.eqb_eq in Hlen. by apply (equalKeyValue_loop_Ok a [] b).
    - apply Nat.eqb_neq in Hlen. intros [= <-]. split; [done|].
      intros HF. by apply Forall2_length in HF. }
  split; [apply equalKeyValue_known|]. split; [|split; [exact Hreturns|split]].
  - intros a1 b1 a2 b2 x y HF Hlen Hk Hx Hy. unfold equalKeyValue.
    assert (Hl : length (a1 ++ x :: a2) = length (b1 ++ y :: b2)).
    { rewrite !length_app. cbn [length]. apply Forall2_length in HF. lia. }
    apply Nat.eqb_eq in Hl. rewrite Hl. cbn [negb]. eexists.
    by apply (equalKeyValue_loop_invalid a1 [] b1 a2 b2 x y).
  - intros a b msg. unfold equalKeyValue.
    destruct (length a =? length b) eqn:Hlen; cbn [negb]; [|discriminate].
    apply Nat.eqb_eq in Hlen. by apply (equalKeyValue_loop_Panic_inv a msg [] b).
  - intros a b r Hunknown Heq. destruct r; [|done].
    apply Hreturns in Heq.
    destruct (Forall2_KeyValue_equal_known a b) as [Ha Hb]; [by apply Heq|].
    destruct Hunknown; congruence.
Qed.

(** ** C2: presence and variant of aggregations *)

Lemma reflectType_eqb_eq s t : reflectType_eqb s t = true <-> s = t.
Proof.
  destruct s, t; simpl; try (split; congruence).
  rewrite String.eqb_eq. split; congruence.
Qed.

(** C2. Two absent aggregations give no reason; an absent and a present
    one give exactly one reason; two present ones of different concrete
    types (another kind, or the same kind at the other numeric kind) give
    exactly one reason, made of the two type names only, so the data
    points are not looked at; only for two values of the same concrete
    type is the comparator of that type run. *)
Theorem equalAggregations_presence_then_variant `{External} (cfg : config) :
  equalAggregations None None cfg = Ok []
  /\ (forall b, equalAggregations None (Some b) cfg
                = Ok [notEqualStr "Aggregation" (None : option Aggregation) (Some b)])
  /\ (forall a, equalAggregations (Some a) None cfg
                = Ok [notEqualStr "Aggregation" (Some a) (None : option Aggregation)])
  /\ (forall a b, TypeOf a <> TypeOf b ->
        equalAggregations (Some a) (Some b) cfg
        = Ok ["Aggregation types not equal:" +:+ nl +:+ "expected: "
                +:+ fmt_T (TypeOf a) +:+ nl +:+ "actual: " +:+ fmt_T (TypeOf b)])
  /\ (forall v w, exists reason,
        equalAggregations (Some (GaugeInt64 v)) (Some (SumInt64 w)) cfg = Ok [reason])
  /\ (forall v w, exists reason,
        equalAggregations (Some (SumInt64 v)) (Some (SumFloat64 w)) cfg = Ok [reason])
  /\ (forall v w, equalAggregations (Some (GaugeInt64 v)) (Some (GaugeInt64 w)) cfg
        = (r ← equalGauges v w cfg; mret (appendUnder r [] "Gauge[int64] not equal:")))
  /\ (forall v w, equalAggregations (Some (GaugeFloat64 v)) (Some (GaugeFloat64 w)) cfg
        = (r ← equalGauges v w cfg; mret (appendUnder r [] "Gauge[float64] not equal:")))
  /\ (forall v w, equalAggregations (Some (SumInt64 v)) (Some (SumInt64 w)) cfg
        = (r ← equalSums v w cfg; mret (appendUnder r [] "Sum[int64] not equal:")))
  /\ (forall v w, equalAggregations (Some (SumFloat64 v)) (Some (SumFloat64 w)) cfg
        = (r ← equalSums v w cfg; mret (appendUnder r [] "Sum[float64] not equal:")))
  /\ (forall v w, equalAggregations (Some (HistogramInt64 v)) (Some (HistogramInt64 w)) cfg
        = (r ← equalHistograms v w cfg; mret (appendUnder r [] "Histogram not equal:")))
  /\ (forall v w,
        equalAggregations (Some (HistogramFloat64 v)) (Some (HistogramFloat64 w)) cfg
        = (r ← equalHistograms v w cfg; mret (appendUnder r [] "Histogram not equal:")))
  /\ (forall v w,
        equalAggregations (Some (ExponentialHistogramInt64 v))
          (Some (ExponentialHistogramInt64 w)) cfg
        = (r ← equalExponentialHistograms v w cfg;
           mret (appendUnder r [] "ExponentialHistogram not equal:")))
  /\ (forall v w,
        equalAggregations (Some (ExponentialHistogramFloat64 v))
          (Some (ExponentialHistogramFloat64 w)) cfg
        = (r ← equalExponentialHistograms v w cfg;
           mret (appendUnder r [] "ExponentialHistogram not equal:"))).
Proof.
  repeat split; try reflexivity; try (intros; eexists; reflexivity).
  intros a b Hne. unfold equalAggregations.
  destruct (reflectType_eqb (TypeOf a) (TypeOf b)) eqn:Heq; [|reflexivity].
  by apply reflectType_eqb_eq in Heq.
Qed.

(** ** C4: attribute containment *)

Section ContainmentFacts.
Context {E : External}.

Lemma hasAttributes_fold (lookup : Key -> option Value) (attrs : list KeyValue) :
  forall reasons,
  fold_left
    (fun reasons attr =>
       match lookup (Key_ attr) with
       | None => reasons ++ [missingAttrStr (Key_ attr)]
       | Some val =>
           appendIf (negb (Value_eqb val (Value_ attr))) reasons
             (notEqualStr (Key_ attr) (Emit (Value_ attr)) (Emit val))
       end)
    attrs reasons
  = reasons ++ flat_map (attr_reasons lookup) attrs.
Proof.
  induction attrs as [|attr attrs IH]; intros reasons; simpl.
  - by rewrite app_nil_r.
  - rewrite IH. unfold attr_reasons at 2, appendIf.
    destruct (lookup (Key_ attr)) as [val|].
    + destruct (Value_eqb val (Value_ attr)); simpl; by rewrite <- ?app_assoc.
    + by rewrite <- app_assoc.
Qed.

Lemma attr_reasons_contains (lookup : Key -> option Value) (attrs : list KeyValue) :
  flat_map (attr_reasons lookup) attrs = [] <-> contains lookup attrs.
Proof.
  unfold contains. induction attrs as [|attr attrs IH]; simpl.
  - split; [|done]. intros _ attr Hin. by apply elem_of_nil in Hin.
  - split.
    + intros Happ. apply app_eq_nil in Happ as [Hattr Hrest].
      intros attr' Hin. apply elem_of_cons in Hin as [->|Hin]; [|by apply IH].
      unfold attr_reasons in Hattr. destruct (lookup (Key_ attr)) as [val|]; [|done].
      exists val. split; [done|]. by destruct (Value_eqb val (Value_ attr)).
    + intros Hall. rewrite (proj2 IH) by (intros; apply Hall; by right).
      rewrite app_nil_r. destruct (Hall attr ltac:(left)) as (val & Hl & Hv).
      unfold attr_reasons. by rewrite Hl, Hv.
Qed.

Lemma appendUnder_nil (r reasons : list string) (head : string) :
  appendUnder r reasons head = [] <-> r = [] /\ reasons = [].
Proof.
  unfold appendUnder. destruct r as [|x r]; simpl; [tauto|].
  split; [|by intros [[=] _]]. intros Happ.
  apply app_eq_nil in Happ as [_ [=]].
Qed.

Lemma range_fold_appendUnder_nil {A} (f : A -> list string) (head : nat -> string)
    (l : list A) : forall n reasons,
  range_fold (fun reasons n x => appendUnder (f x) reasons (head n)) l n reasons = []
  <-> reasons = [] /\ Forall (fun x => f x = []) l.
Proof.
  induction l as [|x l IH]; intros n reasons; simpl.
  - split; [by intros ->|tauto].
  - rewrite IH, appendUnder_nil, Forall_cons. tauto.
Qed.

Lemma hasAttributesAggregation_nil (agg : option Aggregation) (attrs : list KeyValue) :
  hasAttributesAggregation agg attrs = [] <-> Aggregation_contains agg attrs.
Proof.
  destruct agg as [[v|v|v|v|v|v|v|v|name]|]; simpl; try (split; [discriminate|tauto]).
  all: unfold hasAttributesGauge, hasAttributesSum, hasAttributesHistogram,
         hasAttributesExponentialHistogram.
  all: rewrite (range_fold_appendUnder_nil (fun dp => _ dp attrs)).
  all: unfold hasAttributesDataPoints, hasAttributesHistogramDataPoints,
         hasAttributesExponentialHistogramDataPoints.
  all: split; [intros [_ HF]|intros HF; split; [done|]].
  all: eapply Forall_impl; [exact HF|].
  all: intros dp; cbn beta; rewrite hasAttributes_fold; cbn [app];
         by rewrite attr_reasons_contains.
Qed.

End ContainmentFacts.



(** ** Go's [==] is a partial equivalence *)

Lemma SFeqb_true (x y : float64) :
  SFeqb x y = true <->
  match x, y with
  | S754_zero _, S754_zero _ => True
  | S754_infinity s, S754_infinity t => s = t
  | S754_finite s m e, S754_finite t n f => s = t /\ m = n /\ e = f
  | _, _ => False
  end.
Proof.
  unfold SFeqb, SFcompare.
  destruct x as [s| s | |s m e], y as [t|t| |t n f]; try destruct s; try destruct t;
    try (split; [discriminate|tauto]); try (split; [discriminate|by intros [? _]]);
    try tauto; try (split; [discriminate|done]).
  all: change (Pos.compare_cont Eq m n) with (Pos.compare m n).
  all: destruct (Z.compare_spec e f) as [->| |];
    try (split; [discriminate|intros (_ & _ & ?); lia]).
  all: destruct (Pos.compare_spec m n) as [->| |]; simpl;
    try (split; [discriminate|intros (_ & ? & _); lia]).
  all: tauto.
Qed.

#[global] Instance float64_comparable_laws : ComparableLaws float64.
Proof.
  split.
  - intros x y. change (go_eqb x y) with (SFeqb x y).
    change (go_eqb y x) with (SFeqb y x). rewrite !SFeqb_true.
    destruct x, y; try tauto; intuition congruence.
  - intros x y z. change (go_eqb x y) with (SFeqb x y).
    change (go_eqb y z) with (SFeqb y z). change (go_eqb x z) with (SFeqb x z).
    rewrite !SFeqb_true.
    destruct x, y, z; try tauto; intuition congruence.
Qed.

#[global] Instance float64_number_laws : NumberLaws float64.
Proof.
  split; [apply _|]. intros x. change (go_eqb x x) with (SFeqb x x).
  destruct x as [s|s| |s m e]; try (by destruct s).
  - reflexivity.
  - apply SFeqb_true. auto.
Qed.

#[global] Instance int64_comparable_laws : ComparableLaws Z.
Proof.
  split; unfold go_eqb, int64_comparable.
  - intros x y. rewrite !Z.eqb_eq. congruence.
  - intros x y z. rewrite !Z.eqb_eq. congruence.
Qed.

#[global] Instance int64_number_laws : NumberLaws Z.
Proof. split; [apply _|]. intros x. apply Z.eqb_refl. Qed.

#[global] Instance uint64_comparable_laws : ComparableLaws N.
Proof.
  split; unfold go_eqb, uint64_comparable.
  - intros x y. rewrite !N.eqb_eq. congruence.
  - intros x y z. rewrite !N.eqb_eq. congruence.
Qed.

#[global] Instance bool_comparable_laws : ComparableLaws bool.
Proof.
  split; unfold go_eqb, bool_comparable.
  - intros x y. rewrite !Bool.eqb_true_iff. congruence.
  - intros x y z. rewrite !Bool.eqb_true_iff. congruence.
Qed.

#[global] Instance string_comparable_laws : ComparableLaws string.
Proof.
  split; unfold go_eqb, string_comparable.
  - intros x y. rewrite !String.eqb_eq. congruence.
  - intros x y z. rewrite !String.eqb_eq. congruence.
Qed.

Lemma Byte_eqb_eq (x y : byte) : Byte.eqb x y = true <-> x = y.
Proof. split; [apply Byte.byte_dec_bl | apply Byte.byte_dec_lb]. Qed.

#[global] Instance byte_comparable_laws : ComparableLaws byte.
Proof.
  split; unfold go_eqb, byte_comparable.
  - intros x y. rewrite !Byte_eqb_eq. congruence.
  - intros x y z. rewrite !Byte_eqb_eq. congruence.
Qed.

(** Slices compared in order inherit the laws of their elements. *)
Lemma equalSlices_sym {T} `{ComparableLaws T} (a b : list T) :
  equalSlices a b = true -> equalSlices b a = true.
Proof.
  rewrite !equalSlices_Forall2. induction 1; constructor; [by apply go_eqb_sym|done].
Qed.

Lemma equalSlices_trans {T} `{ComparableLaws T} (a b c : list T) :
  equalSlices a b = true -> equalSlices b c = true -> equalSlices a c = true.
Proof.
  rewrite !equalSlices_Forall2. intros Hab. revert c.
  induction Hab as [|x y a b Hxy Hab IH]; intros c Hbc; inversion Hbc; subst;
    constructor; [by eapply go_eqb_trans | by apply IH].
Qed.

Lemma equalSlices_refl {T} `{Comparable T} (a : list T) :
  Forall (fun x => go_eqb x x = true) a -> equalSlices a a = true.
Proof. rewrite equalSlices_Forall2. induction 1; by constructor. Qed.

Lemma eqExtrema_sym {N} `{NumberLaws N} (a b : Extrema.t N) :
  eqExtrema a b = true -> eqExtrema b a = true.
Proof.
  rewrite !eqExtrema_cases. destruct (Extrema.valid a), (Extrema.valid b); try done.
  apply go_eqb_sym.
Qed.

Lemma eqExtrema_trans {N} `{NumberLaws N} (a b c : Extrema.t N) :
  eqExtrema a b = true -> eqExtrema b c = true -> eqExtrema a c = true.
Proof.
  rewrite !eqExtrema_cases.
  destruct (Extrema.valid a), (Extrema.valid b), (Extrema.valid c); try done.
  apply go_eqb_trans.
Qed.

Lemma Time_Equal_sym t u : Time_Equal t u = true -> Time_Equal u t = true.
Proof. unfold Time_Equal. rewrite !Z.eqb_eq. congruence. Qed.

Lemma Time_Equal_trans t u v :
  Time_Equal t u = true -> Time_Equal u v = true -> Time_Equal t v = true.
Proof. unfold Time_Equal. rewrite !Z.eqb_eq. congruence. Qed.

Lemma Time_Equal_refl t : Time_Equal t t = true.
Proof. apply Z.eqb_refl. Qed.

Lemma Scope_eqb_eq a b : Scope_eqb a b = true <-> a = b.
Proof.
  unfold Scope_eqb. rewrite !andb_true_iff, !String.eqb_eq.
  destruct a, b; simpl. split; [intros [[-> ->] ->]; done | by intros [= -> -> ->]].
Qed.

(** Key/value pairs. *)
Lemma Value_equal_sym v w : Value_equal v w -> Value_equal w v.
Proof.
  destruct 1; constructor; try (by apply go_eqb_sym).
  all: match goal with HF : Forall2 _ _ _ |- _ =>
         induction HF; constructor; [by apply go_eqb_sym | done] end.
Qed.

Lemma Forall2_go_eqb_trans {T} `{ComparableLaws T} (a b c : list T) :
  Forall2 (fun x y => go_eqb x y = true) a b ->
  Forall2 (fun x y => go_eqb x y = true) b c ->
  Forall2 (fun x y => go_eqb x y = true) a c.
Proof.
  intros Hab. revert c.
  induction Hab as [|x y a b Hxy Hab IH]; intros c Hbc; inversion Hbc; subst;
    constructor; [by eapply go_eqb_trans | by apply IH].
Qed.

Lemma Value_equal_trans u v w : Value_equal u v -> Value_equal v w -> Value_equal u w.
Proof.
  destruct 1; inversion 1; subst; constructor;
    first [ by eapply go_eqb_trans | by eapply Forall2_go_eqb_trans ].
Qed.

Lemma KeyValue_equal_sym x y : KeyValue_equal x y -> KeyValue_equal y x.
Proof. intros [Hk Hv]. split; [done | by apply Value_equal_sym]. Qed.

Lemma KeyValue_equal_trans x y z :
  KeyValue_equal x y -> KeyValue_equal y z -> KeyValue_equal x z.
Proof.
  intros [Hk Hv] [Hk' Hv']. split; [congruence | by eapply Value_equal_trans].
Qed.

(** ** The comparators return on known trees, and what they compare *)

Lemma forallb_Forall {A} (f : A -> bool) (l : list A) :
  forallb f l = true <-> Forall (fun x => f x = true) l.
Proof.
  induction l as [|x l IH]; simpl.
  - split; [constructor|done].
  - rewrite andb_true_iff, Forall_cons, IH. done.
Qed.

Lemma agree_Ok (r : list string) : agree (Ok r) = true <-> r = [].
Proof. destruct r; simpl; split; congruence. Qed.

Lemma agree_inv (o : outcome (list string)) : agree o = true <-> o = Ok [].
Proof. destruct o as [[|]|]; simpl; split; congruence. Qed.

Lemma matched_greedy {T} (eq : T -> T -> bool) (A B extraA extraB : list T) :
  greedy eq A B = (extraA, extraB) ->
  matched eq A B = true <-> extraA = [] /\ extraB = [].
Proof.
  intros Hg. unfold matched. rewrite Hg.
  destruct extraA, extraB; split; try done; intros [? ?]; congruence.
Qed.

(** The predicate a comparator hands to [diffSlices], when the comparator
    of the children returns on them. *)
Lemma diffSlices_children {T} (equal : T -> T -> outcome (list string)) (A B : list T) :
  (forall x y, x ∈ A -> y ∈ B -> exists r, equal x y = Ok r) ->
  diffSlices A B (fun a b => r ← equal a b; mret (length r =? 0))
  = Ok (greedy (fun x y => agree (equal x y)) A B).
Proof.
  intros Htot. rewrite diffSlices_greedyM. apply greedyM_pure.
  intros x y Hx Hy. destruct (Htot x y Hx Hy) as (r & ->). by destruct r.
Qed.

Ltac children_known Htot :=
  rewrite diffSlices_children by Htot;
  let ea := fresh "extraA" in let eb := fresh "extraB" in let Hg := fresh "Hgreedy" in
  match goal with
  | |- context [greedy ?eq ?A ?B] =>
      destruct (greedy eq A B) as [ea eb] eqn:Hg;
      apply matched_greedy in Hg
  end.

Section LeafFacts.
Context `{External}.

Lemma equalExponentialBuckets_nil a b cfg :
  equalExponentialBuckets a b cfg = [] <-> sameExponentialBucket a b.
Proof.
  unfold equalExponentialBuckets, sameExponentialBucket.
  rewrite !appendIf_nil, !negb_false_iff. tauto.
Qed.

Lemma equalExemplars_known {N} `{Number N} (a b : Exemplar.t N) cfg :
  Exemplar_known a = true \/ Exemplar_known b = true ->
  exists r, equalExemplars a b cfg = Ok r /\ (r = [] <-> sameExemplar cfg a b).
Proof.
  intros Hknown. unfold equalExemplars, sameExemplar.
  destruct (equalKeyValue_known _ _ Hknown) as (e & -> & He). cbn [mbind outcome_bind].
  eexists. split; [reflexivity|].
  rewrite <- He. clear He.
  destruct (ignoreTimestamp cfg), (ignoreValue cfg); cbn [negb];
    rewrite !appendIf_nil, !negb_false_iff; intuition congruence.
Qed.

End LeafFacts.

(** ** Exemplars *)

Section ExemplarFacts.
Context `{External} {N : Type} `{NumberLaws N} (cfg : config).
Implicit Types a b c : Exemplar.t N.

Lemma agree_equalExemplars a b :
  Exemplar_known a = true \/ Exemplar_known b = true ->
  agree (equalExemplars a b cfg) = true <-> sameExemplar cfg a b.
Proof.
  intros Hknown. destruct (equalExemplars_known a b cfg Hknown) as (r & -> & Hr).
  by rewrite agree_Ok.
Qed.

Lemma sameExemplar_sym a b : sameExemplar cfg a b -> sameExemplar cfg b a.
Proof.
  unfold sameExemplar. intros (Hkv & Ht & Hv & Hs & Htr). repeat split.
  - apply Forall2_flip. eapply Forall2_impl; [exact Hkv|].
    intros x y. apply KeyValue_equal_sym.
  - intros Hc. by apply Time_Equal_sym, Ht.
  - intros Hc. by apply go_eqb_sym, Hv.
  - by apply equalSlices_sym.
  - by apply equalSlices_sym.
Qed.

Lemma sameExemplar_trans a b c :
  sameExemplar cfg a b -> sameExemplar cfg b c -> sameExemplar cfg a c.
Proof.
  unfold sameExemplar.
  intros (Hkv & Ht & Hv & Hs & Htr) (Hkv' & Ht' & Hv' & Hs' & Htr'). repeat split.
  - eapply Forall2_trans; [|exact Hkv|exact Hkv'].
    intros x y z. apply KeyValue_equal_trans.
  - intros Hc. eapply Time_Equal_trans; eauto.
  - intros Hc. eapply go_eqb_trans; eauto.
  - by eapply equalSlices_trans.
  - by eapply equalSlices_trans.
Qed.

Lemma Forall2_go_eqb_refl {T} `{Comparable T} (l : list T) :
  Forall (fun x => go_eqb x x = true) l -> Forall2 (fun x y => go_eqb x y = true) l l.
Proof. induction 1; by constructor. Qed.

Lemma Value_equal_refl v : Value_wellFormed v = true -> Value_equal v v.
Proof.
  destruct v as [|b|z|f|s|l|l|l|l]; simpl; intros Hwf; try discriminate; constructor.
  - apply Bool.eqb_reflx.
  - apply Z.eqb_refl.
  - change (go_eqb f f) with (SFeqb f f).
    pose proof (go_eqb_self (N:=float64) f) as Hf. cbn in Hf.
    change (go_eqb f f) with (SFeqb f f) in Hf. rewrite Hf. exact Hwf.
  - apply String.eqb_refl.
  - apply Forall2_go_eqb_refl, Forall_forall. intros x _. apply Bool.eqb_reflx.
  - apply Forall2_go_eqb_refl, Forall_forall. intros x _. apply Z.eqb_refl.
  - apply Forall2_go_eqb_refl. apply forallb_Forall in Hwf.
    eapply Forall_impl; [exact Hwf|]. intros f Hf. cbn beta in Hf.
    pose proof (go_eqb_self (N:=float64) f) as Hf'. cbn in Hf'.
    change (go_eqb f f) with (SFeqb f f) in *. by rewrite Hf'.
  - apply Forall2_go_eqb_refl, Forall_forall. intros x _. apply String.eqb_refl.
Qed.

Lemma Exemplar_wellFormed_known a : Exemplar_wellFormed a = true -> Exemplar_known a = true.
Proof.
  unfold Exemplar_wellFormed, Exemplar_known, knownKinds.
  rewrite andb_true_iff, !forallb_Forall. intros [Hkv _].
  eapply Forall_impl; [exact Hkv|]. intros [k v]; simpl. by destruct v.
Qed.

Lemma sameExemplar_refl a : Exemplar_wellFormed a = true -> sameExemplar cfg a a.
Proof.
  unfold Exemplar_wellFormed, sameExemplar. rewrite andb_true_iff, forallb_Forall.
  intros [Hkv Hv]. repeat split.
  - induction Hkv as [|x l Hx Hl IH]; constructor; [|done].
    split; [done | by apply Value_equal_refl].
  - intros _. apply Time_Equal_refl.
  - intros _. by rewrite go_eqb_self.
  - apply equalSlices_refl, Forall_forall. intros x _. by apply Byte_eqb_eq.
  - apply equalSlices_refl, Forall_forall. intros x _. by apply Byte_eqb_eq.
Qed.

(** The predicate on exemplars handed to [diffSlices]. *)
Lemma agree_exemplars_sym a b :
  Exemplar_known a = true -> Exemplar_known b = true ->
  agree (equalExemplars a b cfg) = true -> agree (equalExemplars b a cfg) = true.
Proof.
  intros Ha Hb. rewrite !agree_equalExemplars by auto. apply sameExemplar_sym.
Qed.

Lemma agree_exemplars_trans a b c :
  Exemplar_known a = true -> Exemplar_known b = true -> Exemplar_known c = true ->
  agree (equalExemplars a b cfg) = true -> agree (equalExemplars b c cfg) = true ->
  agree (equalExemplars a c cfg) = true.
Proof.
  intros Ha Hb Hc. rewrite !agree_equalExemplars by auto. apply sameExemplar_trans.
Qed.

Lemma agree_exemplars_refl a :
  Exemplar_wellFormed a = true -> agree (equalExemplars a a cfg) = true.
Proof.
  intros Hwf. rewrite agree_equalExemplars by (left; by apply Exemplar_wellFormed_known).
  by apply sameExemplar_refl.
Qed.

Lemma sameExemplars_sym (l k : list (Exemplar.t N)) :
  forallb Exemplar_known l = true -> forallb Exemplar_known k = true ->
  sameExemplars cfg l k -> sameExemplars cfg k l.
Proof.
  rewrite !forallb_Forall. intros Hl Hk Hs Hc.
  eapply matched_sym; [apply agree_exemplars_sym|apply agree_exemplars_trans|..];
    [exact Hl|exact Hk|by apply Hs].
Qed.

Lemma sameExemplars_trans (l k m : list (Exemplar.t N)) :
  forallb Exemplar_known l = true -> forallb Exemplar_known k = true ->
  forallb Exemplar_known m = true ->
  sameExemplars cfg l k -> sameExemplars cfg k m -> sameExemplars cfg l m.
Proof.
  rewrite !forallb_Forall. intros Hl Hk Hm Hs Hs' Hc.
  eapply matched_trans; [apply agree_exemplars_sym|apply agree_exemplars_trans|..];
    [exact Hl|exact Hk|exact Hm|by apply Hs|by apply Hs'].
Qed.

Lemma sameExemplars_refl (l : list (Exemplar.t N)) :
  forallb Exemplar_wellFormed l = true -> sameExemplars cfg l l.
Proof.
  rewrite forallb_Forall. intros Hl Hc. apply matched_refl.
  eapply Forall_impl; [exact Hl|]. intros x. apply agree_exemplars_refl.
Qed.

Lemma wellFormed_known_exemplars (l : list (Exemplar.t N)) :
  forallb Exemplar_wellFormed l = true -> forallb Exemplar_known l = true.
Proof.
  rewrite !forallb_Forall. intros Hl. eapply Forall_impl; [exact Hl|].
  intros x. apply Exemplar_wellFormed_known.
Qed.

(** The exemplars of two data points, as every data-point comparator
    compares them. *)
Lemma exemplars_total (l k : list (Exemplar.t N)) :
  forallb Exemplar_known l = true ->
  forall x y, x ∈ l -> y ∈ k -> exists r, equalExemplars x y cfg = Ok r.
Proof.
  rewrite forallb_Forall, Forall_forall. intros Hl x y Hx Hy.
  destruct (equalExemplars_known x y cfg) as (r & Hr & _); eauto.
Qed.

End ExemplarFacts.

Lemma sameTimes_sym cfg s t s' t' : sameTimes cfg s t s' t' -> sameTimes cfg s' t' s t.
Proof.
  unfold sameTimes. intros Hs Hc. destruct (Hs Hc). split; by apply Time_Equal_sym.
Qed.

Lemma sameTimes_trans cfg s t s' t' s'' t'' :
  sameTimes cfg s t s' t' -> sameTimes cfg s' t' s'' t'' -> sameTimes cfg s t s'' t''.
Proof.
  unfold sameTimes. intros Hs Hs' Hc. destruct (Hs Hc), (Hs' Hc).
  split; by eapply Time_Equal_trans.
Qed.

Lemma sameTimes_refl cfg s t : sameTimes cfg s t s t.
Proof. intros _. split; apply Time_Equal_refl. Qed.

(** ** Data points *)

Ltac run_outcome := cbn [mbind outcome_bind mret outcome_ret].

Ltac same_fields :=
  repeat first
    [ rewrite append_nonempty | rewrite app_nil | rewrite equalExponentialBuckets_nil
    | rewrite appendIf_nil | rewrite appendUnder_nil | rewrite negb_false_iff
    | rewrite String.eqb_eq | rewrite compareDiff_empty ];
  unfold sameExponentialBucket;
  intuition (first [congruence | assumption]).

Section DataPointFacts.
Context `{External} {N : Type} `{NumberLaws N} (cfg : config).

Lemma equalDataPoints_known (a b : DataPoint.t N) :
  DataPoint_known a = true ->
  exists r, equalDataPoints a b cfg = Ok r /\ (r = [] <-> sameDataPoint cfg a b).
Proof.
  intros Hknown. unfold equalDataPoints, sameDataPoint, sameTimes, sameExemplars.
  destruct (ignoreExemplars cfg); cbn [negb].
  - eexists. split; [reflexivity|].
    destruct (ignoreTimestamp cfg), (ignoreValue cfg); cbn [negb]; same_fields.
  - children_known ltac:(by apply exemplars_total). run_outcome.
    eexists. split; [reflexivity|].
    destruct (ignoreTimestamp cfg), (ignoreValue cfg); cbn [negb]; same_fields.
Qed.

Lemma equalHistogramDataPoints_known (a b : HistogramDataPoint.t N) :
  HistogramDataPoint_known a = true ->
  exists r, equalHistogramDataPoints a b cfg = Ok r
            /\ (r = [] <-> sameHistogramDataPoint cfg a b).
Proof.
  intros Hknown.
  unfold equalHistogramDataPoints, sameHistogramDataPoint, sameTimes, sameExemplars.
  destruct (ignoreExemplars cfg); cbn [negb].
  - eexists. split; [reflexivity|].
    destruct (ignoreTimestamp cfg), (ignoreValue cfg); cbn [negb]; same_fields.
  - children_known ltac:(by apply exemplars_total). run_outcome.
    eexists. split; [reflexivity|].
    destruct (ignoreTimestamp cfg), (ignoreValue cfg); cbn [negb]; same_fields.
Qed.

Lemma equalExponentialHistogramDataPoints_known (a b : ExponentialHistogramDataPoint.t N) :
  ExponentialHistogramDataPoint_known a = true ->
  exists r, equalExponentialHistogramDataPoints a b cfg = Ok r
            /\ (r = [] <-> sameExponentialHistogramDataPoint cfg a b).
Proof.
  intros Hknown.
  unfold equalExponentialHistogramDataPoints, sameExponentialHistogramDataPoint,
    sameTimes, sameExemplars.
  destruct (ignoreExemplars cfg); cbn [negb].
  - eexists. split; [reflexivity|].
    destruct (ignoreTimestamp cfg), (ignoreValue cfg); cbn [negb]; same_fields.
  - children_known ltac:(by apply exemplars_total). run_outcome.
    eexists. split; [reflexivity|].
    destruct (ignoreTimestamp cfg), (ignoreValue cfg); cbn [negb]; same_fields.
Qed.

End DataPointFacts.

Lemma eqExtrema_refl {N} `{NumberLaws N} (e : Extrema.t N) :
  Extrema_wellFormed e = true -> eqExtrema e e = true.
Proof.
  unfold Extrema_wellFormed. rewrite eqExtrema_cases, go_eqb_self.
  by destruct (Extrema.valid e).
Qed.

Lemma sameExponentialBucket_sym a b :
  sameExponentialBucket a b -> sameExponentialBucket b a.
Proof. intros [Ho Hc]. split; [by apply go_eqb_sym | by apply equalSlices_sym]. Qed.

Lemma sameExponentialBucket_trans a b c :
  sameExponentialBucket a b -> sameExponentialBucket b c -> sameExponentialBucket a c.
Proof.
  intros [Ho Hc] [Ho' Hc'].
  split; [by eapply go_eqb_trans | by eapply equalSlices_trans].
Qed.

Lemma sameExponentialBucket_refl a : sameExponentialBucket a a.
Proof.
  split; [apply Z.eqb_refl|].
  apply equalSlices_refl, Forall_forall. intros x _. apply N.eqb_refl.
Qed.

Section DataPointPER.
Context `{External} `{!ExternalPER _} {N : Type} `{NumberLaws N} (cfg : config).

Lemma sameDataPoint_sym (a b : DataPoint.t N) :
  DataPoint_known a = true -> DataPoint_known b = true ->
  sameDataPoint cfg a b -> sameDataPoint cfg b a.
Proof.
  intros Ha Hb (Hattr & Ht & Hv & Hex).
  split; [by apply Set_Equals_sym|]. split; [by apply sameTimes_sym|].
  split; [intros Hc; by apply go_eqb_sym, Hv|]. by apply sameExemplars_sym; [exact Ha|exact Hb|].
Qed.

Lemma sameDataPoint_trans (a b c : DataPoint.t N) :
  DataPoint_known a = true -> DataPoint_known b = true -> DataPoint_known c = true ->
  sameDataPoint cfg a b -> sameDataPoint cfg b c -> sameDataPoint cfg a c.
Proof.
  intros Ha Hb Hc (Hattr & Ht & Hv & Hex) (Hattr' & Ht' & Hv' & Hex').
  split; [by eapply Set_Equals_trans|]. split; [by eapply sameTimes_trans|].
  split; [intros Hi; eapply go_eqb_trans; eauto|]. by eapply sameExemplars_trans; [exact Ha|exact Hb|exact Hc|..].
Qed.

Lemma sameHistogramDataPoint_sym (a b : HistogramDataPoint.t N) :
  HistogramDataPoint_known a = true -> HistogramDataPoint_known b = true ->
  sameHistogramDataPoint cfg a b -> sameHistogramDataPoint cfg b a.
Proof.
  intros Ha Hb (Hattr & Ht & Hv & Hex).
  split; [by apply Set_Equals_sym|]. split; [by apply sameTimes_sym|].
  split; [|by apply sameExemplars_sym; [exact Ha|exact Hb|]].
  intros Hc. destruct (Hv Hc) as (G1 & G2 & G3 & G4 & G5 & G6).
  repeat split;
    first [ by apply go_eqb_sym | by apply equalSlices_sym | by apply eqExtrema_sym ].
Qed.

Lemma sameHistogramDataPoint_trans (a b c : HistogramDataPoint.t N) :
  HistogramDataPoint_known a = true -> HistogramDataPoint_known b = true ->
  HistogramDataPoint_known c = true ->
  sameHistogramDataPoint cfg a b -> sameHistogramDataPoint cfg b c ->
  sameHistogramDataPoint cfg a c.
Proof.
  intros Ha Hb Hc (Hattr & Ht & Hv & Hex) (Hattr' & Ht' & Hv' & Hex').
  split; [by eapply Set_Equals_trans|]. split; [by eapply sameTimes_trans|].
  split; [|by eapply sameExemplars_trans; [exact Ha|exact Hb|exact Hc|..]].
  intros Hi. destruct (Hv Hi) as (G1 & G2 & G3 & G4 & G5 & G6).
  destruct (Hv' Hi) as (G1' & G2' & G3' & G4' & G5' & G6').
  repeat split;
    first [ by eapply go_eqb_trans | by eapply equalSlices_trans
          | by eapply eqExtrema_trans ].
Qed.

Lemma sameExponentialHistogramDataPoint_sym (a b : ExponentialHistogramDataPoint.t N) :
  ExponentialHistogramDataPoint_known a = true ->
  ExponentialHistogramDataPoint_known b = true ->
  sameExponentialHistogramDataPoint cfg a b -> sameExponentialHistogramDataPoint cfg b a.
Proof.
  intros Ha Hb (Hattr & Ht & Hv & Hex).
  split; [by apply Set_Equals_sym|]. split; [by apply sameTimes_sym|].
  split; [|by apply sameExemplars_sym; [exact Ha|exact Hb|]].
  intros Hc. destruct (Hv Hc) as (G1 & G2 & G3 & G4 & G5 & G6 & G7 & G8).
  split; [by apply go_eqb_sym|]. split; [by apply eqExtrema_sym|].
  split; [by apply eqExtrema_sym|]. split; [by apply go_eqb_sym|].
  split; [by apply go_eqb_sym|]. split; [by apply go_eqb_sym|].
  split; by apply sameExponentialBucket_sym.
Qed.

Lemma sameExponentialHistogramDataPoint_trans
    (a b c : ExponentialHistogramDataPoint.t N) :
  ExponentialHistogramDataPoint_known a = true ->
  ExponentialHistogramDataPoint_known b = true ->
  ExponentialHistogramDataPoint_known c = true ->
  sameExponentialHistogramDataPoint cfg a b ->
  sameExponentialHistogramDataPoint cfg b c ->
  sameExponentialHistogramDataPoint cfg a c.
Proof.
  intros Ha Hb Hc (Hattr & Ht & Hv & Hex) (Hattr' & Ht' & Hv' & Hex').
  split; [by eapply Set_Equals_trans|]. split; [by eapply sameTimes_trans|].
  split; [|by eapply sameExemplars_trans; [exact Ha|exact Hb|exact Hc|..]].
  intros Hi. destruct (Hv Hi) as (G1 & G2 & G3 & G4 & G5 & G6 & G7 & G8).
  destruct (Hv' Hi) as (G1' & G2' & G3' & G4' & G5' & G6' & G7' & G8').
  split; [by eapply go_eqb_trans|]. split; [by eapply eqExtrema_trans|].
  split; [by eapply eqExtrema_trans|]. split; [by eapply go_eqb_trans|].
  split; [by eapply go_eqb_trans|]. split; [by eapply go_eqb_trans|].
  split; by eapply sameExponentialBucket_trans.
Qed.

(** The predicates on data points handed to [diffSlices]. *)
Lemma agree_equalDataPoints (a b : DataPoint.t N) :
  DataPoint_known a = true ->
  agree (equalDataPoints a b cfg) = true <-> sameDataPoint cfg a b.
Proof.
  intros Ha. destruct (equalDataPoints_known cfg a b Ha) as (r & -> & Hr).
  by rewrite agree_Ok.
Qed.

Lemma agree_equalHistogramDataPoints (a b : HistogramDataPoint.t N) :
  HistogramDataPoint_known a = true ->
  agree (equalHistogramDataPoints a b cfg) = true <-> sameHistogramDataPoint cfg a b.
Proof.
  intros Ha. destruct (equalHistogramDataPoints_known cfg a b Ha) as (r & -> & Hr).
  by rewrite agree_Ok.
Qed.

Lemma agree_equalExponentialHistogramDataPoints (a b : ExponentialHistogramDataPoint.t N) :
  ExponentialHistogramDataPoint_known a = true ->
  agree (equalExponentialHistogramDataPoints a b cfg) = true
  <-> sameExponentialHistogramDataPoint cfg a b.
Proof.
  intros Ha.
  destruct (equalExponentialHistogramDataPoints_known cfg a b Ha) as (r & -> & Hr).
  by rewrite agree_Ok.
Qed.

End DataPointPER.

Section DataPointRefl.
Context `{External} `{!ExternalRefl _} {N : Type} `{NumberLaws N} (cfg : config).

Lemma DataPoint_wellFormed_known (a : DataPoint.t N) :
  DataPoint_wellFormed a = true -> DataPoint_known a = true.
Proof.
  unfold DataPoint_wellFormed, DataPoint_known. rewrite andb_true_iff.
  intros [_ Hex]. by apply wellFormed_known_exemplars.
Qed.

Lemma HistogramDataPoint_wellFormed_known (a : HistogramDataPoint.t N) :
  HistogramDataPoint_wellFormed a = true -> HistogramDataPoint_known a = true.
Proof.
  unfold HistogramDataPoint_wellFormed, HistogramDataPoint_known.
  rewrite !andb_true_iff. intros [_ Hex]. by apply wellFormed_known_exemplars.
Qed.

Lemma ExponentialHistogramDataPoint_wellFormed_known
    (a : ExponentialHistogramDataPoint.t N) :
  ExponentialHistogramDataPoint_wellFormed a = true ->
  ExponentialHistogramDataPoint_known a = true.
Proof.
  unfold ExponentialHistogramDataPoint_wellFormed, ExponentialHistogramDataPoint_known.
  rewrite !andb_true_iff. intros [_ Hex]. by apply wellFormed_known_exemplars.
Qed.

Lemma sameDataPoint_refl (a : DataPoint.t N) :
  DataPoint_wellFormed a = true -> sameDataPoint cfg a a.
Proof.
  unfold DataPoint_wellFormed. rewrite andb_true_iff. intros [Hv Hex].
  split; [apply Set_Equals_refl|]. split; [apply sameTimes_refl|].
  split; [intros _; by rewrite go_eqb_self | by apply sameExemplars_refl].
Qed.

Lemma sameHistogramDataPoint_refl (a : HistogramDataPoint.t N) :
  HistogramDataPoint_wellFormed a = true -> sameHistogramDataPoint cfg a a.
Proof.
  unfold HistogramDataPoint_wellFormed. rewrite !andb_true_iff.
  intros ((((Hb & Hmin) & Hmax) & Hs) & Hex).
  split; [apply Set_Equals_refl|]. split; [apply sameTimes_refl|].
  split; [|by apply sameExemplars_refl]. intros _.
  split; [apply N.eqb_refl|]. split.
  { apply equalSlices_refl. apply forallb_Forall in Hb.
    eapply Forall_impl; [exact Hb|]. intros f Hf. cbn beta in Hf.
    pose proof (go_eqb_self (N:=float64) f) as Hf'. rewrite Hf in Hf'. exact Hf'. }
  split.
  { apply equalSlices_refl, Forall_forall. intros x _. apply N.eqb_refl. }
  split; [by apply eqExtrema_refl|]. split; [by apply eqExtrema_refl|].
  by rewrite go_eqb_self.
Qed.

Lemma sameExponentialHistogramDataPoint_refl (a : ExponentialHistogramDataPoint.t N) :
  ExponentialHistogramDataPoint_wellFormed a = true ->
  sameExponentialHistogramDataPoint cfg a a.
Proof.
  unfold ExponentialHistogramDataPoint_wellFormed. rewrite !andb_true_iff.
  intros (((Hmin & Hmax) & Hs) & Hex).
  split; [apply Set_Equals_refl|]. split; [apply sameTimes_refl|].
  split; [|by apply sameExemplars_refl]. intros _.
  split; [apply N.eqb_refl|]. split; [by apply eqExtrema_refl|].
  split; [by apply eqExtrema_refl|]. split; [by rewrite go_eqb_self|].
  split; [apply Z.eqb_refl|]. split; [apply N.eqb_refl|].
  split; apply sameExponentialBucket_refl.
Qed.

End DataPointRefl.

(** ** Aggregations *)

(** A comparator of children that returns on known children and is a
    partial equivalence on them gives a matching with the same laws. *)
Section Children.
Context {T : Type} (equal : T -> T -> outcome (list string)) (known : T -> bool).
Hypothesis equal_total : forall x y, known x = true -> exists r, equal x y = Ok r.
Hypothesis agree_sym : forall x y, known x = true -> known y = true ->
  agree (equal x y) = true -> agree (equal y x) = true.
Hypothesis agree_trans : forall x y z,
  known x = true -> known y = true -> known z = true ->
  agree (equal x y) = true -> agree (equal y z) = true -> agree (equal x z) = true.

Let eq (x y : T) : bool := agree (equal x y).

Lemma children_total (A B : list T) :
  forallb known A = true ->
  forall x y, x ∈ A -> y ∈ B -> exists r, equal x y = Ok r.
Proof using equal_total.
  rewrite forallb_Forall, Forall_forall. intros HA x y Hx Hy. by apply equal_total, HA.
Qed.

Lemma children_sym (A B : list T) :
  forallb known A = true -> forallb known B = true ->
  matched eq A B = true -> matched eq B A = true.
Proof using agree_sym agree_trans.
  rewrite !forallb_Forall. by apply matched_sym.
Qed.

Lemma children_trans (A B C : list T) :
  forallb known A = true -> forallb known B = true -> forallb known C = true ->
  matched eq A B = true -> matched eq B C = true -> matched eq A C = true.
Proof using agree_sym agree_trans.
  rewrite !forallb_Forall. by apply matched_trans.
Qed.

Lemma children_refl (wellFormed : T -> bool) (A : list T) :
  (forall x, wellFormed x = true -> agree (equal x x) = true) ->
  forallb wellFormed A = true -> matched eq A A = true.
Proof using Type.
  rewrite forallb_Forall. intros Hrefl HA. apply matched_refl.
  eapply Forall_impl; [exact HA|]. exact Hrefl.
Qed.

End Children.

Lemma forallb_impl {A} (f g : A -> bool) (l : list A) :
  (forall x, f x = true -> g x = true) -> forallb f l = true -> forallb g l = true.
Proof.
  rewrite !forallb_Forall. intros Hfg Hl. eapply Forall_impl; [exact Hl|exact Hfg].
Qed.

Section AgreeDataPoints.
Context `{External} `{!ExternalPER _} {N : Type} `{NumberLaws N} (cfg : config).

Lemma equalDataPoints_total (a b : DataPoint.t N) :
  DataPoint_known a = true -> exists r, equalDataPoints a b cfg = Ok r.
Proof. intros Ha. destruct (equalDataPoints_known cfg a b Ha) as (r & ? & _). eauto. Qed.

Lemma agree_dataPoints_sym (a b : DataPoint.t N) :
  DataPoint_known a = true -> DataPoint_known b = true ->
  agree (equalDataPoints a b cfg) = true -> agree (equalDataPoints b a cfg) = true.
Proof.
  intros Ha Hb. rewrite !agree_equalDataPoints by done. by apply sameDataPoint_sym.
Qed.

Lemma agree_dataPoints_trans (a b c : DataPoint.t N) :
  DataPoint_known a = true -> DataPoint_known b = true -> DataPoint_known c = true ->
  agree (equalDataPoints a b cfg) = true -> agree (equalDataPoints b c cfg) = true ->
  agree (equalDataPoints a c cfg) = true.
Proof.
  intros Ha Hb Hc. rewrite !agree_equalDataPoints by done. by apply sameDataPoint_trans.
Qed.

Lemma equalHistogramDataPoints_total (a b : HistogramDataPoint.t N) :
  HistogramDataPoint_known a = true -> exists r, equalHistogramDataPoints a b cfg = Ok r.
Proof.
  intros Ha. destruct (equalHistogramDataPoints_known cfg a b Ha) as (r & ? & _). eauto.
Qed.

Lemma agree_histogramDataPoints_sym (a b : HistogramDataPoint.t N) :
  HistogramDataPoint_known a = true -> HistogramDataPoint_known b = true ->
  agree (equalHistogramDataPoints a b cfg) = true ->
  agree (equalHistogramDataPoints b a cfg) = true.
Proof.
  intros Ha Hb. rewrite !agree_equalHistogramDataPoints by done.
  by apply sameHistogramDataPoint_sym.
Qed.

Lemma agree_histogramDataPoints_trans (a b c : HistogramDataPoint.t N) :
  HistogramDataPoint_known a = true -> HistogramDataPoint_known b = true ->
  HistogramDataPoint_known c = true ->
  agree (equalHistogramDataPoints a b cfg) = true ->
  agree (equalHistogramDataPoints b c cfg) = true ->
  agree (equalHistogramDataPoints a c cfg) = true.
Proof.
  intros Ha Hb Hc. rewrite !agree_equalHistogramDataPoints by done.
  by apply sameHistogramDataPoint_trans.
Qed.

Lemma equalExponentialHistogramDataPoints_total (a b : ExponentialHistogramDataPoint.t N) :
  ExponentialHistogramDataPoint_known a = true ->
  exists r, equalExponentialHistogramDataPoints a b cfg = Ok r.
Proof.
  intros Ha.
  destruct (equalExponentialHistogramDataPoints_known cfg a b Ha) as (r & ? & _). eauto.
Qed.

Lemma agree_exponentialHistogramDataPoints_sym (a b : ExponentialHistogramDataPoint.t N) :
  ExponentialHistogramDataPoint_known a = true ->
  ExponentialHistogramDataPoint_known b = true ->
  agree (equalExponentialHistogramDataPoints a b cfg) = true ->
  agree (equalExponentialHistogramDataPoints b a cfg) = true.
Proof.
  intros Ha Hb. rewrite !agree_equalExponentialHistogramDataPoints by done.
  by apply sameExponentialHistogramDataPoint_sym.
Qed.

Lemma agree_exponentialHistogramDataPoints_trans
    (a b c : ExponentialHistogramDataPoint.t N) :
  ExponentialHistogramDataPoint_known a = true ->
  ExponentialHistogramDataPoint_known b = true ->
  ExponentialHistogramDataPoint_known c = true ->
  agree (equalExponentialHistogramDataPoints a b cfg) = true ->
  agree (equalExponentialHistogramDataPoints b c cfg) = true ->
  agree (equalExponentialHistogramDataPoints a c cfg) = true.
Proof.
  intros Ha Hb Hc. rewrite !agree_equalExponentialHistogramDataPoints by done.
  by apply sameExponentialHistogramDataPoint_trans.
Qed.

(** The four aggregation comparators. *)
Lemma equalGauges_known (a b : Gauge.t N) :
  Gauge_known a = true ->
  exists r, equalGauges a b cfg = Ok r /\ (r = [] <-> sameGauge cfg a b).
Proof.
  intros Hknown. unfold equalGauges, sameGauge.
  children_known ltac:(by apply (children_total _ _ equalDataPoints_total)).
  run_outcome. eexists. split; [reflexivity|]. same_fields.
Qed.

Lemma equalSums_known (a b : Sum.t N) :
  Sum_known a = true ->
  exists r, equalSums a b cfg = Ok r /\ (r = [] <-> sameSum cfg a b).
Proof.
  intros Hknown. unfold equalSums, sameSum.
  children_known ltac:(by apply (children_total _ _ equalDataPoints_total)).
  run_outcome. eexists. split; [reflexivity|]. same_fields.
Qed.

Lemma equalHistograms_known (a b : Histogram.t N) :
  Histogram_known a = true ->
  exists r, equalHistograms a b cfg = Ok r /\ (r = [] <-> sameHistogram cfg a b).
Proof.
  intros Hknown. unfold equalHistograms, sameHistogram.
  children_known ltac:(by apply (children_total _ _ equalHistogramDataPoints_total)).
  run_outcome. eexists. split; [reflexivity|]. same_fields.
Qed.

Lemma equalExponentialHistograms_known (a b : ExponentialHistogram.t N) :
  ExponentialHistogram_known a = true ->
  exists r, equalExponentialHistograms a b cfg = Ok r
            /\ (r = [] <-> sameExponentialHistogram cfg a b).
Proof.
  intros Hknown. unfold equalExponentialHistograms, sameExponentialHistogram.
  children_known
    ltac:(by apply (children_total _ _ equalExponentialHistogramDataPoints_total)).
  run_outcome. eexists. split; [reflexivity|]. same_fields.
Qed.

Lemma sameGauge_sym (a b : Gauge.t N) :
  Gauge_known a = true -> Gauge_known b = true -> sameGauge cfg a b -> sameGauge cfg b a.
Proof.
  apply (children_sym _ _ agree_dataPoints_sym agree_dataPoints_trans).
Qed.

Lemma sameGauge_trans (a b c : Gauge.t N) :
  Gauge_known a = true -> Gauge_known b = true -> Gauge_known c = true ->
  sameGauge cfg a b -> sameGauge cfg b c -> sameGauge cfg a c.
Proof.
  apply (children_trans _ _ agree_dataPoints_sym agree_dataPoints_trans).
Qed.

Lemma sameSum_sym (a b : Sum.t N) :
  Sum_known a = true -> Sum_known b = true -> sameSum cfg a b -> sameSum cfg b a.
Proof.
  intros Ha Hb (Ht & Hm & Hd). split; [by apply go_eqb_sym|].
  split; [by apply go_eqb_sym|].
  by apply (children_sym _ _ agree_dataPoints_sym agree_dataPoints_trans).
Qed.

Lemma sameSum_trans (a b c : Sum.t N) :
  Sum_known a = true -> Sum_known b = true -> Sum_known c = true ->
  sameSum cfg a b -> sameSum cfg b c -> sameSum cfg a c.
Proof.
  intros Ha Hb Hc (Ht & Hm & Hd) (Ht' & Hm' & Hd'). split; [by eapply go_eqb_trans|].
  split; [by eapply go_eqb_trans|].
  by apply (children_trans _ _ agree_dataPoints_sym agree_dataPoints_trans _
              (Sum.DataPoints b)).
Qed.

Lemma sameHistogram_sym (a b : Histogram.t N) :
  Histogram_known a = true -> Histogram_known b = true ->
  sameHistogram cfg a b -> sameHistogram cfg b a.
Proof.
  intros Ha Hb (Ht & Hd). split; [by apply go_eqb_sym|].
  by apply (children_sym _ _ agree_histogramDataPoints_sym
              agree_histogramDataPoints_trans).
Qed.

Lemma sameHistogram_trans (a b c : Histogram.t N) :
  Histogram_known a = true -> Histogram_known b = true -> Histogram_known c = true ->
  sameHistogram cfg a b -> sameHistogram cfg b c -> sameHistogram cfg a c.
Proof.
  intros Ha Hb Hc (Ht & Hd) (Ht' & Hd'). split; [by eapply go_eqb_trans|].
  by apply (children_trans _ _ agree_histogramDataPoints_sym
              agree_histogramDataPoints_trans _ (Histogram.DataPoints b)).
Qed.

Lemma sameExponentialHistogram_sym (a b : ExponentialHistogram.t N) :
  ExponentialHistogram_known a = true -> ExponentialHistogram_known b = true ->
  sameExponentialHistogram cfg a b -> sameExponentialHistogram cfg b a.
Proof.
  intros Ha Hb (Ht & Hd). split; [by apply go_eqb_sym|].
  by apply (children_sym _ _ agree_exponentialHistogramDataPoints_sym
              agree_exponentialHistogramDataPoints_trans).
Qed.

Lemma sameExponentialHistogram_trans (a b c : ExponentialHistogram.t N) :
  ExponentialHistogram_known a = true -> ExponentialHistogram_known b = true ->
  ExponentialHistogram_known c = true ->
  sameExponentialHistogram cfg a b -> sameExponentialHistogram cfg b c ->
  sameExponentialHistogram cfg a c.
Proof.
  intros Ha Hb Hc (Ht & Hd) (Ht' & Hd'). split; [by eapply go_eqb_trans|].
  by apply (children_trans _ _ agree_exponentialHistogramDataPoints_sym
              agree_exponentialHistogramDataPoints_trans _
              (ExponentialHistogram.DataPoints b)).
Qed.

End AgreeDataPoints.

(** ** The aggregation dispatcher and the tree comparators *)

Section TreeFacts.
Context `{External} `{!ExternalPER _} (cfg : config).

Lemma equalAggregations_known (a b : option Aggregation) :
  Aggregation_known a = true ->
  exists r, equalAggregations a b cfg = Ok r /\ (r = [] <-> sameAggregation cfg a b).
Proof.
  intros Hknown.
  destruct a as [[v|v|v|v|v|v|v|v|n]|], b as [[w|w|w|w|w|w|w|w|m]|];
    cbn [equalAggregations TypeOf reflectType_eqb negb sameAggregation
           Aggregation_known] in *;
    try (eexists; split; [reflexivity|]; split; [discriminate|intros []]);
    try (eexists; split; [reflexivity|]; tauto).
  - destruct (equalGauges_known cfg v w Hknown) as (r & -> & Hr).
    run_outcome. eexists. split; [reflexivity|]. rewrite appendUnder_nil. tauto.
  - destruct (equalGauges_known cfg v w Hknown) as (r & -> & Hr).
    run_outcome. eexists. split; [reflexivity|]. rewrite appendUnder_nil. tauto.
  - destruct (equalSums_known cfg v w Hknown) as (r & -> & Hr).
    run_outcome. eexists. split; [reflexivity|]. rewrite appendUnder_nil. tauto.
  - destruct (equalSums_known cfg v w Hknown) as (r & -> & Hr).
    run_outcome. eexists. split; [reflexivity|]. rewrite appendUnder_nil. tauto.
  - destruct (equalHistograms_known cfg v w Hknown) as (r & -> & Hr).
    run_outcome. eexists. split; [reflexivity|]. rewrite appendUnder_nil. tauto.
  - destruct (equalHistograms_known cfg v w Hknown) as (r & -> & Hr).
    run_outcome. eexists. split; [reflexivity|]. rewrite appendUnder_nil. tauto.
  - destruct (equalExponentialHistograms_known cfg v w Hknown) as (r & -> & Hr).
    run_outcome. eexists. split; [reflexivity|]. rewrite appendUnder_nil. tauto.
  - destruct (equalExponentialHistograms_known cfg v w Hknown) as (r & -> & Hr).
    run_outcome. eexists. split; [reflexivity|]. rewrite appendUnder_nil. tauto.
  - destruct (n =? m)%string; cbn [negb]; eexists; (split; [reflexivity|]);
      split; try discriminate; intros [].
Qed.

Lemma sameAggregation_sym (a b : option Aggregation) :
  Aggregation_known a = true -> Aggregation_known b = true ->
  sameAggregation cfg a b -> sameAggregation cfg b a.
Proof.
  destruct a as [[v|v|v|v|v|v|v|v|n]|], b as [[w|w|w|w|w|w|w|w|m]|];
    cbn [sameAggregation Aggregation_known]; try done.
  - apply sameGauge_sym.
  - apply sameGauge_sym.
  - apply sameSum_sym.
  - apply sameSum_sym.
  - apply sameHistogram_sym.
  - apply sameHistogram_sym.
  - apply sameExponentialHistogram_sym.
  - apply sameExponentialHistogram_sym.
Qed.

Lemma sameAggregation_trans (a b c : option Aggregation) :
  Aggregation_known a = true -> Aggregation_known b = true ->
  Aggregation_known c = true ->
  sameAggregation cfg a b -> sameAggregation cfg b c -> sameAggregation cfg a c.
Proof.
  destruct a as [[v|v|v|v|v|v|v|v|n]|], b as [[w|w|w|w|w|w|w|w|m]|];
    cbn [sameAggregation Aggregation_known]; try done;
    destruct c as [[u|u|u|u|u|u|u|u|k]|];
    cbn [sameAggregation Aggregation_known]; try done.
  - apply sameGauge_trans.
  - apply sameGauge_trans.
  - apply sameSum_trans.
  - apply sameSum_trans.
  - apply sameHistogram_trans.
  - apply sameHistogram_trans.
  - apply sameExponentialHistogram_trans.
  - apply sameExponentialHistogram_trans.
Qed.

(** Metrics. *)
Lemma equalMetrics_known (a b : Metrics.t) :
  Metrics_known a = true ->
  exists r, equalMetrics a b cfg = Ok r /\ (r = [] <-> sameMetrics cfg a b).
Proof.
  intros Hknown. unfold equalMetrics, sameMetrics.
  destruct (equalAggregations_known (Metrics.Data a) (Metrics.Data b) Hknown)
    as (r & -> & Hr).
  run_outcome. eexists. split; [reflexivity|]. same_fields.
Qed.

Lemma sameMetrics_sym (a b : Metrics.t) :
  Metrics_known a = true -> Metrics_known b = true ->
  sameMetrics cfg a b -> sameMetrics cfg b a.
Proof.
  intros Ha Hb (Hn & Hd & Hu & Hdata). split; [by apply go_eqb_sym|].
  split; [by apply go_eqb_sym|]. split; [by apply go_eqb_sym|].
  by apply sameAggregation_sym.
Qed.

Lemma sameMetrics_trans (a b c : Metrics.t) :
  Metrics_known a = true -> Metrics_known b = true -> Metrics_known c = true ->
  sameMetrics cfg a b -> sameMetrics cfg b c -> sameMetrics cfg a c.
Proof.
  intros Ha Hb Hc (Hn & Hd & Hu & Hdata) (Hn' & Hd' & Hu' & Hdata').
  split; [by eapply go_eqb_trans|]. split; [by eapply go_eqb_trans|].
  split; [by eapply go_eqb_trans|].
  by apply (sameAggregation_trans _ (Metrics.Data b)).
Qed.

Lemma agree_equalMetrics (a b : Metrics.t) :
  Metrics_known a = true -> agree (equalMetrics a b cfg) = true <-> sameMetrics cfg a b.
Proof.
  intros Ha. destruct (equalMetrics_known a b Ha) as (r & -> & Hr). by rewrite agree_Ok.
Qed.

Lemma equalMetrics_total (a b : Metrics.t) :
  Metrics_known a = true -> exists r, equalMetrics a b cfg = Ok r.
Proof. intros Ha. destruct (equalMetrics_known a b Ha) as (r & ? & _). eauto. Qed.

Lemma agree_metrics_sym (a b : Metrics.t) :
  Metrics_known a = true -> Metrics_known b = true ->
  agree (equalMetrics a b cfg) = true -> agree (equalMetrics b a cfg) = true.
Proof. intros Ha Hb. rewrite !agree_equalMetrics by done. by apply sameMetrics_sym. Qed.

Lemma agree_metrics_trans (a b c : Metrics.t) :
  Metrics_known a = true -> Metrics_known b = true -> Metrics_known c = true ->
  agree (equalMetrics a b cfg) = true -> agree (equalMetrics b c cfg) = true ->
  agree (equalMetrics a c cfg) = true.
Proof.
  intros Ha Hb Hc. rewrite !agree_equalMetrics by done. by apply sameMetrics_trans.
Qed.

(** ScopeMetrics. *)
Lemma equalScopeMetrics_known (a b : ScopeMetrics.t) :
  ScopeMetrics_known a = true ->
  exists r, equalScopeMetrics a b cfg = Ok r /\ (r = [] <-> sameScopeMetrics cfg a b).
Proof.
  intros Hknown. unfold equalScopeMetrics, sameScopeMetrics.
  children_known ltac:(by apply (children_total _ _ equalMetrics_total)).
  run_outcome. eexists. split; [reflexivity|]. same_fields.
Qed.

Lemma sameScopeMetrics_sym (a b : ScopeMetrics.t) :
  ScopeMetrics_known a = true -> ScopeMetrics_known b = true ->
  sameScopeMetrics cfg a b -> sameScopeMetrics cfg b a.
Proof.
  intros Ha Hb (Hs & Hm). split.
  - apply Scope_eqb_eq. by apply Scope_eqb_eq in Hs.
  - by apply (children_sym _ _ agree_metrics_sym agree_metrics_trans).
Qed.

Lemma sameScopeMetrics_trans (a b c : ScopeMetrics.t) :
  ScopeMetrics_known a = true -> ScopeMetrics_known b = true ->
  ScopeMetrics_known c = true ->
  sameScopeMetrics cfg a b -> sameScopeMetrics cfg b c -> sameScopeMetrics cfg a c.
Proof.
  intros Ha Hb Hc (Hs & Hm) (Hs' & Hm'). split.
  - apply Scope_eqb_eq. apply Scope_eqb_eq in Hs, Hs'. congruence.
  - by apply (children_trans _ _ agree_metrics_sym agree_metrics_trans _
                (ScopeMetrics.Metrics b)).
Qed.

Lemma agree_equalScopeMetrics (a b : ScopeMetrics.t) :
  ScopeMetrics_known a = true ->
  agree (equalScopeMetrics a b cfg) = true <-> sameScopeMetrics cfg a b.
Proof.
  intros Ha. destruct (equalScopeMetrics_known a b Ha) as (r & -> & Hr).
  by rewrite agree_Ok.
Qed.

Lemma equalScopeMetrics_total (a b : ScopeMetrics.t) :
  ScopeMetrics_known a = true -> exists r, equalScopeMetrics a b cfg = Ok r.
Proof. intros Ha. destruct (equalScopeMetrics_known a b Ha) as (r & ? & _). eauto. Qed.

Lemma agree_scopeMetrics_sym (a b : ScopeMetrics.t) :
  ScopeMetrics_known a = true -> ScopeMetrics_known b = true ->
  agree (equalScopeMetrics a b cfg) = true -> agree (equalScopeMetrics b a cfg) = true.
Proof.
  intros Ha Hb. rewrite !agree_equalScopeMetrics by done. by apply sameScopeMetrics_sym.
Qed.

Lemma agree_scopeMetrics_trans (a b c : ScopeMetrics.t) :
  ScopeMetrics_known a = true -> ScopeMetrics_known b = true ->
  ScopeMetrics_known c = true ->
  agree (equalScopeMetrics a b cfg) = true -> agree (equalScopeMetrics b c cfg) = true ->
  agree (equalScopeMetrics a c cfg) = true.
Proof.
  intros Ha Hb Hc. rewrite !agree_equalScopeMetrics by done.
  by apply sameScopeMetrics_trans.
Qed.

(** ResourceMetrics. *)
Lemma equalResourceMetrics_known (a b : ResourceMetrics.t) :
  ResourceMetrics_known a = true ->
  exists r, equalResourceMetrics a b cfg = Ok r
            /\ (r = [] <-> sameResourceMetrics cfg a b).
Proof.
  intros Hknown. unfold equalResourceMetrics, sameResourceMetrics.
  children_known ltac:(by apply (children_total _ _ equalScopeMetrics_total)).
  run_outcome. eexists. split; [reflexivity|]. same_fields.
Qed.

Lemma sameResourceMetrics_sym (a b : ResourceMetrics.t) :
  ResourceMetrics_known a = true -> ResourceMetrics_known b = true ->
  sameResourceMetrics cfg a b -> sameResourceMetrics cfg b a.
Proof.
  intros Ha Hb (Hr & Hs). split; [by apply Resource_Equal_sym|].
  by apply (children_sym _ _ agree_scopeMetrics_sym agree_scopeMetrics_trans).
Qed.

Lemma sameResourceMetrics_trans (a b c : ResourceMetrics.t) :
  ResourceMetrics_known a = true -> ResourceMetrics_known b = true ->
  ResourceMetrics_known c = true ->
  sameResourceMetrics cfg a b -> sameResourceMetrics cfg b c ->
  sameResourceMetrics cfg a c.
Proof.
  intros Ha Hb Hc (Hr & Hs) (Hr' & Hs'). split; [by eapply Resource_Equal_trans|].
  by apply (children_trans _ _ agree_scopeMetrics_sym agree_scopeMetrics_trans _
              (ResourceMetrics.ScopeMetrics b)).
Qed.

End TreeFacts.

(** ** Reflexivity on well-formed trees *)

Section ReflFacts.
Context `{External} `{!ExternalRefl _} (cfg : config).

Section Numbers.
Context {N : Type} `{NumberLaws N}.

Lemma agree_dataPoints_refl (a : DataPoint.t N) :
  DataPoint_wellFormed a = true -> agree (equalDataPoints a a cfg) = true.
Proof.
  intros Hwf. rewrite agree_equalDataPoints by (by apply DataPoint_wellFormed_known).
  by apply sameDataPoint_refl.
Qed.

Lemma agree_histogramDataPoints_refl (a : HistogramDataPoint.t N) :
  HistogramDataPoint_wellFormed a = true ->
  agree (equalHistogramDataPoints a a cfg) = true.
Proof.
  intros Hwf.
  rewrite agree_equalHistogramDataPoints
    by (by apply HistogramDataPoint_wellFormed_known).
  by apply sameHistogramDataPoint_refl.
Qed.

Lemma agree_exponentialHistogramDataPoints_refl (a : ExponentialHistogramDataPoint.t N) :
  ExponentialHistogramDataPoint_wellFormed a = true ->
  agree (equalExponentialHistogramDataPoints a a cfg) = true.
Proof.
  intros Hwf.
  rewrite agree_equalExponentialHistogramDataPoints
    by (by apply ExponentialHistogramDataPoint_wellFormed_known).
  by apply sameExponentialHistogramDataPoint_refl.
Qed.

Lemma Gauge_wellFormed_known (a : Gauge.t N) :
  Gauge_wellFormed a = true -> Gauge_known a = true.
Proof. apply forallb_impl, DataPoint_wellFormed_known. Qed.

Lemma Sum_wellFormed_known (a : Sum.t N) : Sum_wellFormed a = true -> Sum_known a = true.
Proof. apply forallb_impl, DataPoint_wellFormed_known. Qed.

Lemma Histogram_wellFormed_known (a : Histogram.t N) :
  Histogram_wellFormed a = true -> Histogram_known a = true.
Proof. apply forallb_impl, HistogramDataPoint_wellFormed_known. Qed.

Lemma ExponentialHistogram_wellFormed_known (a : ExponentialHistogram.t N) :
  ExponentialHistogram_wellFormed a = true -> ExponentialHistogram_known a = true.
Proof. apply forallb_impl, ExponentialHistogramDataPoint_wellFormed_known. Qed.

Lemma sameGauge_refl (a : Gauge.t N) : Gauge_wellFormed a = true -> sameGauge cfg a a.
Proof. apply children_refl, agree_dataPoints_refl. Qed.

Lemma sameSum_refl (a : Sum.t N) : Sum_wellFormed a = true -> sameSum cfg a a.
Proof.
  intros Hwf. split; [apply N.eqb_refl|]. split; [apply Bool.eqb_reflx|].
  revert Hwf. apply children_refl, agree_dataPoints_refl.
Qed.

Lemma sameHistogram_refl (a : Histogram.t N) :
  Histogram_wellFormed a = true -> sameHistogram cfg a a.
Proof.
  intros Hwf. split; [apply N.eqb_refl|].
  revert Hwf. apply children_refl, agree_histogramDataPoints_refl.
Qed.

Lemma sameExponentialHistogram_refl (a : ExponentialHistogram.t N) :
  ExponentialHistogram_wellFormed a = true -> sameExponentialHistogram cfg a a.
Proof.
  intros Hwf. split; [apply N.eqb_refl|].
  revert Hwf. apply children_refl, agree_exponentialHistogramDataPoints_refl.
Qed.

End Numbers.

Lemma Aggregation_wellFormed_known (a : option Aggregation) :
  Aggregation_wellFormed a = true -> Aggregation_known a = true.
Proof.
  destruct a as [[v|v|v|v|v|v|v|v|n]|]; cbn [Aggregation_wellFormed Aggregation_known];
    try done.
  - apply Gauge_wellFormed_known.
  - apply Gauge_wellFormed_known.
  - apply Sum_wellFormed_known.
  - apply Sum_wellFormed_known.
  - apply Histogram_wellFormed_known.
  - apply Histogram_wellFormed_known.
  - apply ExponentialHistogram_wellFormed_known.
  - apply ExponentialHistogram_wellFormed_known.
Qed.

Lemma sameAggregation_refl (a : option Aggregation) :
  Aggregation_wellFormed a = true -> sameAggregation cfg a a.
Proof.
  destruct a as [[v|v|v|v|v|v|v|v|n]|]; cbn [Aggregation_wellFormed sameAggregation];
    try done.
  - apply sameGauge_refl.
  - apply sameGauge_refl.
  - apply sameSum_refl.
  - apply sameSum_refl.
  - apply sameHistogram_refl.
  - apply sameHistogram_refl.
  - apply sameExponentialHistogram_refl.
  - apply sameExponentialHistogram_refl.
Qed.

Lemma Metrics_wellFormed_known (a : Metrics.t) :
  Metrics_wellFormed a = true -> Metrics_known a = true.
Proof. apply Aggregation_wellFormed_known. Qed.

Lemma sameMetrics_refl (a : Metrics.t) : Metrics_wellFormed a = true -> sameMetrics cfg a a.
Proof.
  intros Hwf. repeat split; try apply String.eqb_refl. by apply sameAggregation_refl.
Qed.

Lemma agree_metrics_refl (a : Metrics.t) :
  Metrics_wellFormed a = true -> agree (equalMetrics a a cfg) = true.
Proof.
  intros Hwf. rewrite agree_equalMetrics by (by apply Metrics_wellFormed_known).
  by apply sameMetrics_refl.
Qed.

Lemma ScopeMetrics_wellFormed_known (a : ScopeMetrics.t) :
  ScopeMetrics_wellFormed a = true -> ScopeMetrics_known a = true.
Proof. apply forallb_impl, Metrics_wellFormed_known. Qed.

Lemma sameScopeMetrics_refl (a : ScopeMetrics.t) :
  ScopeMetrics_wellFormed a = true -> sameScopeMetrics cfg a a.
Proof.
  intros Hwf. split; [by apply Scope_eqb_eq|].
  revert Hwf. apply children_refl, agree_metrics_refl.
Qed.

Lemma agree_scopeMetrics_refl (a : ScopeMetrics.t) :
  ScopeMetrics_wellFormed a = true -> agree (equalScopeMetrics a a cfg) = true.
Proof.
  intros Hwf.
  rewrite agree_equalScopeMetrics by (by apply ScopeMetrics_wellFormed_known).
  by apply sameScopeMetrics_refl.
Qed.

Lemma ResourceMetrics_wellFormed_known (a : ResourceMetrics.t) :
  ResourceMetrics_wellFormed a = true -> ResourceMetrics_known a = true.
Proof. apply forallb_impl, ScopeMetrics_wellFormed_known. Qed.

Lemma sameResourceMetrics_refl (a : ResourceMetrics.t) :
  ResourceMetrics_wellFormed a = true -> sameResourceMetrics cfg a a.
Proof.
  intros Hwf. split; [apply Resource_Equal_refl|].
  revert Hwf. apply children_refl, agree_scopeMetrics_refl.
Qed.

End ReflFacts.

(** ** The small model satisfies what is assumed of the external packages *)

Lemma Reference_external_PER : ExternalPER Reference.external.
Proof.
  split; cbn; intros *; rewrite !bool_decide_eq_true; congruence.
Qed.

Lemma Reference_external_Refl : ExternalRefl Reference.external.
Proof. split; cbn; intros *; by rewrite bool_decide_eq_true. Qed.

(** ** C5: reflexivity *)

(** C5 as stated fails: a floating-point data point whose value is a NaN
    has all the shape the data model asks for, and compared with itself
    under the default policy it yields the reason "Value not equal". *)
Lemma nan_data_point_differs_from_itself :
  DataPoint_known Examples.nanPoint = true
  /\ equalDataPoints Examples.nanPoint Examples.nanPoint Examples.compareAll
     = Ok [notEqualStr (E:=Reference.external) "Value" S754_nan S754_nan].
Proof. split; reflexivity. Qed.

Lemma reflexive_from_same {T} (equal : T -> T -> outcome (list string))
    (known wellFormed : T -> bool) (same : T -> T -> Prop) :
  (forall x, wellFormed x = true -> known x = true) ->
  (forall a b, known a = true -> exists r, equal a b = Ok r /\ (r = [] <-> same a b)) ->
  (forall x, wellFormed x = true -> same x x) ->
  reflexive_on equal wellFormed.
Proof.
  intros Hk Hchar Hrefl x Hwf. destruct (Hchar x x (Hk x Hwf)) as (r & -> & Hr).
  f_equal. apply Hr. by apply Hrefl.
Qed.

Lemma leaves_reflexive_laws `{External} `{!ExternalRefl _} N `{NumberLaws N} cfg :
  leaves_reflexive N cfg.
Proof.
  repeat split.
  - apply (reflexive_from_same _ Exemplar_known _ (sameExemplar cfg)).
    + apply Exemplar_wellFormed_known.
    + intros a b Ha. apply equalExemplars_known. by left.
    + by apply sameExemplar_refl.
  - apply (reflexive_from_same _ DataPoint_known _ (sameDataPoint cfg)).
    + apply DataPoint_wellFormed_known.
    + by apply equalDataPoints_known.
    + by apply sameDataPoint_refl.
  - apply (reflexive_from_same _ HistogramDataPoint_known _
             (sameHistogramDataPoint cfg)).
    + apply HistogramDataPoint_wellFormed_known.
    + by apply equalHistogramDataPoints_known.
    + by apply sameHistogramDataPoint_refl.
  - apply (reflexive_from_same _ ExponentialHistogramDataPoint_known _
             (sameExponentialHistogramDataPoint cfg)).
    + apply ExponentialHistogramDataPoint_wellFormed_known.
    + by apply equalExponentialHistogramDataPoints_known.
    + by apply sameExponentialHistogramDataPoint_refl.
Qed.

(** C5, amended. For every policy and every entity, at every level, in
    which no compared number is a NaN (values, sums, present extrema,
    bounds, floating-point filtered attributes), every filtered attribute
    has one of the eight kinds and every aggregation one of the eight
    shapes, comparing the entity with itself yields the empty list,
    provided the external equality of attribute sets and of resources is
    reflexive. *)
Theorem comparison_reflexive_without_NaN {E : External} {HE : ExternalRefl E}
    (cfg : config) :
  leaves_reflexive int64 cfg
  /\ leaves_reflexive float64 cfg
  /\ reflexive_on (fun a b => equalAggregations a b cfg) Aggregation_wellFormed
  /\ reflexive_on (fun a b => equalMetrics a b cfg) Metrics_wellFormed
  /\ reflexive_on (fun a b => equalScopeMetrics a b cfg) ScopeMetrics_wellFormed
  /\ reflexive_on (fun a b => equalResourceMetrics a b cfg) ResourceMetrics_wellFormed.
Proof.
  split; [apply leaves_reflexive_laws; apply _|].
  split; [apply leaves_reflexive_laws; apply _|].
  repeat split.
  - apply (reflexive_from_same _ Aggregation_known _ (sameAggregation cfg)).
    + apply Aggregation_wellFormed_known.
    + by apply equalAggregations_known.
    + by apply sameAggregation_refl.
  - apply (reflexive_from_same _ Metrics_known _ (sameMetrics cfg)).
    + apply Metrics_wellFormed_known.
    + by apply equalMetrics_known.
    + by apply sameMetrics_refl.
  - apply (reflexive_from_same _ ScopeMetrics_known _ (sameScopeMetrics cfg)).
    + apply ScopeMetrics_wellFormed_known.
    + by apply equalScopeMetrics_known.
    + by apply sameScopeMetrics_refl.
  - apply (reflexive_from_same _ ResourceMetrics_known _ (sameResourceMetrics cfg)).
    + apply ResourceMetrics_wellFormed_known.
    + by apply equalResourceMetrics_known.
    + by apply sameResourceMetrics_refl.
Qed.

(** The tree of the scenario compared with itself, under the default
    policy. *)
Lemma comparison_reflexive_without_NaN_witness :
  equalResourceMetrics (Examples.resourceMetrics 5) (Examples.resourceMetrics 5)
    Examples.compareAll = Ok [].
Proof.
  destruct (comparison_reflexive_without_NaN (E:=Reference.external)
              (HE:=Reference_external_Refl) Examples.compareAll)
    as (_ & _ & _ & _ & _ & Hrm).
  apply Hrm. reflexivity.
Defined.

(** ** C7: symmetry of detection *)

Lemma detects_from_same {T} (equal : T -> T -> outcome (list string))
    (known : T -> bool) (same : T -> T -> Prop) :
  (forall a b, known a = true -> exists r, equal a b = Ok r /\ (r = [] <-> same a b)) ->
  (forall a b, known a = true -> known b = true -> same a b -> same b a) ->
  detects_symmetrically equal known.
Proof.
  intros Hchar Hsym a b Ha Hb r Hr Hne.
  destruct (Hchar b a Hb) as (r' & Hr' & Hiff). exists r'. split; [done|].
  intros ->. destruct (Hchar a b Ha) as (r0 & Hr0 & Hiff0).
  rewrite Hr in Hr0. injection Hr0 as <-. apply Hne, Hiff0, Hsym; [done..|].
  by apply Hiff.
Qed.

Lemma leaves_detect_symmetrically_laws `{External} `{!ExternalPER _} N `{NumberLaws N}
    cfg :
  leaves_detect_symmetrically N cfg.
Proof.
  repeat split.
  - apply (detects_from_same _ _ (sameExemplar cfg)).
    + intros a b Ha. apply equalExemplars_known. by left.
    + intros a b _ _. by apply sameExemplar_sym.
  - apply (detects_from_same _ _ (sameDataPoint cfg)).
    + by apply equalDataPoints_known.
    + by apply sameDataPoint_sym.
  - apply (detects_from_same _ _ (sameHistogramDataPoint cfg)).
    + by apply equalHistogramDataPoints_known.
    + by apply sameHistogramDataPoint_sym.
  - apply (detects_from_same _ _ (sameExponentialHistogramDataPoint cfg)).
    + by apply equalExponentialHistogramDataPoints_known.
    + by apply sameExponentialHistogramDataPoint_sym.
Qed.

(** C7. At every level and under every policy, when comparing [a] with [b]
    yields a non-empty list, comparing [b] with [a] yields a non-empty
    list too. The trees are those on which the comparators return (every
    filtered attribute has one of the eight kinds), and the external
    equality of attribute sets and of resources is taken symmetric and
    transitive. *)
Theorem detection_symmetric {E : External} {HE : ExternalPER E} (cfg : config) :
  leaves_detect_symmetrically int64 cfg
  /\ leaves_detect_symmetrically float64 cfg
  /\ detects_symmetrically (fun a b => equalAggregations a b cfg) Aggregation_known
  /\ detects_symmetrically (fun a b => equalMetrics a b cfg) Metrics_known
  /\ detects_symmetrically (fun a b => equalScopeMetrics a b cfg) ScopeMetrics_known
  /\ detects_symmetrically (fun a b => equalResourceMetrics a b cfg)
       ResourceMetrics_known.
Proof.
  split; [apply leaves_detect_symmetrically_laws; apply _|].
  split; [apply leaves_detect_symmetrically_laws; apply _|].
  repeat split.
  - apply (detects_from_same _ _ (sameAggregation cfg)).
    + by apply equalAggregations_known.
    + by apply sameAggregation_sym.
  - apply (detects_from_same _ _ (sameMetrics cfg)).
    + by apply equalMetrics_known.
    + by apply sameMetrics_sym.
  - apply (detects_from_same _ _ (sameScopeMetrics cfg)).
    + by apply equalScopeMetrics_known.
    + by apply sameScopeMetrics_sym.
  - apply (detects_from_same _ _ (sameResourceMetrics cfg)).
    + by apply equalResourceMetrics_known.
    + by apply sameResourceMetrics_sym.
Qed.

(** The scenario's two trees, with values 5 and 6: the difference found
    from one side is found from the other. *)
Lemma detection_symmetric_witness :
  exists r', equalResourceMetrics (Examples.resourceMetrics 6)
               (Examples.resourceMetrics 5) Examples.compareAll = Ok r'
             /\ r' <> [].
Proof.
  destruct (detection_symmetric (E:=Reference.external)
              (HE:=Reference_external_PER) Examples.compareAll)
    as (_ & _ & _ & _ & _ & Hrm).
  eapply (Hrm (Examples.resourceMetrics 5) (Examples.resourceMetrics 6));
    [reflexivity | reflexivity | reflexivity | discriminate].
Defined.

(** ** C6: the order of children does not matter, the order of counts does *)

(** Matching a list with a rearrangement of it whose elements are
    replaced by related ones. *)
Section MatchedRearranged.
Context {T : Type} (eq : T -> T -> bool) (P : T -> Prop) (S : T -> T -> Prop).
Hypothesis eq_sym : forall x y, P x -> P y -> eq x y = true -> eq y x = true.
Hypothesis eq_trans : forall x y z, P x -> P y -> P z ->
  eq x y = true -> eq y z = true -> eq x z = true.
Hypothesis S_P : forall x x', S x x' -> P x -> P x'.
Hypothesis S_eq : forall x x', S x x' -> P x -> eq x x = true -> eq x x' = true.
Hypothesis S_eq' : forall x x', S x x' -> P x -> eq x' x' = true -> eq x' x = true.

Lemma Forall2_S_P l l' : Forall2 S l l' -> Forall P l -> Forall P l'.
Proof using S_P.
  induction 1 as [|x x' l l' Hx Hl IH]; intros HP; [constructor|].
  apply Forall_cons in HP as [HPx HP]. constructor; [by eapply S_P | by apply IH].
Qed.

Lemma matched_rearranged l l1 l' :
  Forall P l -> l ≡ₚ l1 -> Forall2 S l1 l' ->
  matched eq l l = true -> matched eq l l' = true.
Proof using eq_sym eq_trans S_P S_eq.
  intros HP Hp HS Hm.
  assert (HP1 : Forall P l1) by (by rewrite <- Hp).
  assert (HP' : Forall P l') by (by eapply Forall2_S_P).
  destruct (matched_self eq P eq_sym eq_trans l l HP HP Hm) as [Hself _].
  rewrite Hp in Hself.
  apply (matched_perm_l eq P eq_sym eq_trans l1 l l'); [done|done|by symmetry|].
  apply (Forall2_matched eq P eq_sym eq_trans l1 l' l'); [done|done|done|].
  clear Hp Hm HP HP'. induction HS as [|x x' l1 l' Hx Hl IH]; [constructor|].
  apply Forall_cons in HP1 as [HPx HP1]. apply Forall_cons in Hself as [Hxx Hself].
  constructor; [by apply S_eq | by apply IH].
Qed.

Lemma matched_rearranged' l l1 l' :
  Forall P l -> l ≡ₚ l1 -> Forall2 S l1 l' ->
  matched eq l' l' = true -> matched eq l' l = true.
Proof using eq_sym eq_trans S_P S_eq'.
  intros HP Hp HS Hm.
  assert (HP1 : Forall P l1) by (by rewrite <- Hp).
  assert (HP' : Forall P l') by (by eapply Forall2_S_P).
  destruct (matched_self eq P eq_sym eq_trans l' l' HP' HP' Hm) as [Hself _].
  apply (matched_perm_r eq P eq_sym eq_trans l' l1 l); [done|done|by symmetry|].
  apply (Forall2_matched eq P eq_sym eq_trans l' l1 l1); [done|done|done|].
  clear Hp Hm HP HP'. induction HS as [|x x' l1 l' Hx Hl IH]; [constructor|].
  apply Forall_cons in HP1 as [HPx HP1]. apply Forall_cons in Hself as [Hxx Hself].
  constructor; [by apply S_eq' | by apply IH].
Qed.

End MatchedRearranged.

(** A partial equivalence that relates an element to its rearrangements
    does not tell rearranged elements apart. *)
Lemma order_independent_from_same {T} (equal : T -> T -> outcome (list string))
    (known : T -> bool) (rearranged same : T -> T -> Prop) :
  (forall a b, known a = true -> exists r, equal a b = Ok r /\ (r = [] <-> same a b)) ->
  (forall a b, known a = true -> known b = true -> same a b -> same b a) ->
  (forall a b c, known a = true -> known b = true -> known c = true ->
                 same a b -> same b c -> same a c) ->
  (forall a a', rearranged a a' -> known a = true -> known a' = true) ->
  (forall a a', rearranged a a' -> known a = true -> same a a -> same a a') ->
  (forall a a', rearranged a a' -> known a = true -> same a' a' -> same a' a) ->
  order_independent equal known rearranged.
Proof.
  intros Hchar Hsym Htrans Hk Hr Hr' a a' b b' Ha Hb Haa' Hbb'.
  pose proof (Hk _ _ Haa' Ha) as Ha'. pose proof (Hk _ _ Hbb' Hb) as Hb'.
  destruct (Hchar a b Ha) as (r & -> & Hiff).
  destruct (Hchar a' b' Ha') as (r' & -> & Hiff').
  assert (Hsame : same a b <-> same a' b').
  { split; intros Hs.
    - assert (Haa : same a a) by (apply (Htrans a b a); auto).
      assert (Hbb : same b b) by (apply (Htrans b a b); auto).
      apply (Htrans a' a b'); [done..| |].
      + apply Hsym; [done..|]. by apply Hr.
      + apply (Htrans a b b'); [done..|]. by apply Hr.
    - assert (Haa : same a' a') by (apply (Htrans a' b' a'); auto).
      assert (Hbb : same b' b') by (apply (Htrans b' a' b'); auto).
      apply (Htrans a a' b); [done..| |].
      + apply Hsym; [done..|]. by apply Hr'.
      + apply (Htrans a' b' b); [done..|]. by apply Hr'. }
  split; intros [= ->]; f_equal; tauto.
Qed.

Lemma forallb_perm {A} (f : A -> bool) (l l' : list A) :
  l ≡ₚ l' -> forallb f l = true -> forallb f l' = true.
Proof. rewrite !forallb_Forall. by intros ->. Qed.

(** Rearranged children under a comparator with the laws of [Children]. *)
Section ChildrenRearranged.
Context {T : Type} (equal : T -> T -> outcome (list string)) (known : T -> bool).
Hypothesis agree_sym : forall x y, known x = true -> known y = true ->
  agree (equal x y) = true -> agree (equal y x) = true.
Hypothesis agree_trans : forall x y z,
  known x = true -> known y = true -> known z = true ->
  agree (equal x y) = true -> agree (equal y z) = true -> agree (equal x z) = true.

Let eq (x y : T) : bool := agree (equal x y).

Lemma children_perm (A A' : list T) :
  A ≡ₚ A' -> forallb known A = true ->
  (matched eq A A = true -> matched eq A A' = true)
  /\ (matched eq A' A' = true -> matched eq A' A = true).
Proof using agree_sym agree_trans.
  intros Hp HA. pose proof (forallb_perm _ _ _ Hp HA) as HA'.
  rewrite forallb_Forall in HA, HA'. split; intros Hm.
  - by apply (matched_perm_r eq _ agree_sym agree_trans A A A').
  - by apply (matched_perm_r eq _ agree_sym agree_trans A' A' A).
Qed.

End ChildrenRearranged.

Section RearrangedFacts.
Context {E : External} {HE : ExternalPER E} (cfg : config).

Lemma Aggregation_rearranged_known (a a' : option Aggregation) :
  Aggregation_rearranged a a' -> Aggregation_known a = true ->
  Aggregation_known a' = true.
Proof.
  destruct a as [[v|v|v|v|v|v|v|v|n]|], a' as [[w|w|w|w|w|w|w|w|m]|];
    cbn [Aggregation_rearranged Aggregation_known]; try done;
    intros Hr; apply forallb_perm; tauto.
Qed.

Lemma sameAggregation_rearranged (a a' : option Aggregation) :
  Aggregation_rearranged a a' -> Aggregation_known a = true ->
  (sameAggregation cfg a a -> sameAggregation cfg a a')
  /\ (sameAggregation cfg a' a' -> sameAggregation cfg a' a).
Proof.
  destruct a as [[v|v|v|v|v|v|v|v|n]|], a' as [[w|w|w|w|w|w|w|w|m]|];
    cbn [Aggregation_rearranged Aggregation_known sameAggregation]; try done.
  - intros Hp Hk.
    apply (children_perm _ _ (agree_dataPoints_sym cfg) (agree_dataPoints_trans cfg));
      done.
  - intros Hp Hk.
    apply (children_perm _ _ (agree_dataPoints_sym cfg) (agree_dataPoints_trans cfg));
      done.
  - intros (Hp & Ht & Hm) Hk. unfold sameSum. rewrite <- Ht, <- Hm.
    destruct (children_perm _ _ (agree_dataPoints_sym cfg) (agree_dataPoints_trans cfg)
                _ _ Hp Hk) as [H1 H2].
    split; intros (? & ? & ?); auto.
  - intros (Hp & Ht & Hm) Hk. unfold sameSum. rewrite <- Ht, <- Hm.
    destruct (children_perm _ _ (agree_dataPoints_sym cfg) (agree_dataPoints_trans cfg)
                _ _ Hp Hk) as [H1 H2].
    split; intros (? & ? & ?); auto.
  - intros (Hp & Ht) Hk. unfold sameHistogram. rewrite <- Ht.
    destruct (children_perm _ _ (agree_histogramDataPoints_sym cfg)
                (agree_histogramDataPoints_trans cfg) _ _ Hp Hk) as [H1 H2].
    split; intros (? & ?); auto.
  - intros (Hp & Ht) Hk. unfold sameHistogram. rewrite <- Ht.
    destruct (children_perm _ _ (agree_histogramDataPoints_sym cfg)
                (agree_histogramDataPoints_trans cfg) _ _ Hp Hk) as [H1 H2].
    split; intros (? & ?); auto.
  - intros (Hp & Ht) Hk. unfold sameExponentialHistogram. rewrite <- Ht.
    destruct (children_perm _ _ (agree_exponentialHistogramDataPoints_sym cfg)
                (agree_exponentialHistogramDataPoints_trans cfg) _ _ Hp Hk) as [H1 H2].
    split; intros (? & ?); auto.
  - intros (Hp & Ht) Hk. unfold sameExponentialHistogram. rewrite <- Ht.
    destruct (children_perm _ _ (agree_exponentialHistogramDataPoints_sym cfg)
                (agree_exponentialHistogramDataPoints_trans cfg) _ _ Hp Hk) as [H1 H2].
    split; intros (? & ?); auto.
Qed.

Lemma Metrics_rearranged_known (a a' : Metrics.t) :
  Metrics_rearranged a a' -> Metrics_known a = true -> Metrics_known a' = true.
Proof. intros (_ & _ & _ & Hd). by apply Aggregation_rearranged_known. Qed.

Lemma sameMetrics_rearranged (a a' : Metrics.t) :
  Metrics_rearranged a a' -> Metrics_known a = true ->
  (sameMetrics cfg a a -> sameMetrics cfg a a')
  /\ (sameMetrics cfg a' a' -> sameMetrics cfg a' a).
Proof.
  intros (Hn & Hd & Hu & Hdata) Hk. unfold sameMetrics. rewrite <- Hn, <- Hd, <- Hu.
  destruct (sameAggregation_rearranged _ _ Hdata Hk) as [H1 H2].
  split; intros (? & ? & ? & ?); auto.
Qed.

Lemma agree_metrics_rearranged (a a' : Metrics.t) :
  Metrics_rearranged a a' -> Metrics_known a = true ->
  (agree (equalMetrics a a cfg) = true -> agree (equalMetrics a a' cfg) = true)
  /\ (agree (equalMetrics a' a' cfg) = true -> agree (equalMetrics a' a cfg) = true).
Proof.
  intros Hr Hk. pose proof (Metrics_rearranged_known _ _ Hr Hk) as Hk'.
  rewrite !agree_equalMetrics by done. by apply sameMetrics_rearranged.
Qed.

Lemma ScopeMetrics_rearranged_known (a a' : ScopeMetrics.t) :
  ScopeMetrics_rearranged a a' -> ScopeMetrics_known a = true ->
  ScopeMetrics_known a' = true.
Proof.
  intros (_ & l & Hp & HF). unfold ScopeMetrics_known. rewrite !forallb_Forall, Hp.
  apply Forall2_S_P with (S := Metrics_rearranged); [|done].
  intros x x'. apply Metrics_rearranged_known.
Qed.

Lemma sameScopeMetrics_rearranged (a a' : ScopeMetrics.t) :
  ScopeMetrics_rearranged a a' -> ScopeMetrics_known a = true ->
  (sameScopeMetrics cfg a a -> sameScopeMetrics cfg a a')
  /\ (sameScopeMetrics cfg a' a' -> sameScopeMetrics cfg a' a).
Proof.
  intros (Hs & l & Hp & HF) Hk. unfold sameScopeMetrics. rewrite <- Hs.
  unfold ScopeMetrics_known in Hk. rewrite forallb_Forall in Hk.
  split; intros (Hscope & Hm); (split; [done|]).
  - eapply (matched_rearranged _ (fun x => Metrics_known x = true) Metrics_rearranged
              (agree_metrics_sym cfg) (agree_metrics_trans cfg)); try done.
    + intros x x'. apply Metrics_rearranged_known.
    + intros x x' Hr Hx. exact (proj1 (agree_metrics_rearranged x x' Hr Hx)).
  - eapply (matched_rearranged' _ (fun x => Metrics_known x = true) Metrics_rearranged
              (agree_metrics_sym cfg) (agree_metrics_trans cfg)); try done.
    + intros x x'. apply Metrics_rearranged_known.
    + intros x x' Hr Hx. exact (proj2 (agree_metrics_rearranged x x' Hr Hx)).
Qed.

Lemma agree_scopeMetrics_rearranged (a a' : ScopeMetrics.t) :
  ScopeMetrics_rearranged a a' -> ScopeMetrics_known a = true ->
  (agree (equalScopeMetrics a a cfg) = true -> agree (equalScopeMetrics a a' cfg) = true)
  /\ (agree (equalScopeMetrics a' a' cfg) = true ->
      agree (equalScopeMetrics a' a cfg) = true).
Proof.
  intros Hr Hk. pose proof (ScopeMetrics_rearranged_known _ _ Hr Hk) as Hk'.
  rewrite !agree_equalScopeMetrics by done. by apply sameScopeMetrics_rearranged.
Qed.

Lemma ResourceMetrics_rearranged_known (a a' : ResourceMetrics.t) :
  ResourceMetrics_rearranged a a' -> ResourceMetrics_known a = true ->
  ResourceMetrics_known a' = true.
Proof.
  intros (_ & l & Hp & HF). unfold ResourceMetrics_known. rewrite !forallb_Forall, Hp.
  apply Forall2_S_P with (S := ScopeMetrics_rearranged); [|done].
  intros x x'. apply ScopeMetrics_rearranged_known.
Qed.

Lemma sameResourceMetrics_rearranged (a a' : ResourceMetrics.t) :
  ResourceMetrics_rearranged a a' -> ResourceMetrics_known a = true ->
  (sameResourceMetrics cfg a a -> sameResourceMetrics cfg a a')
  /\ (sameResourceMetrics cfg a' a' -> sameResourceMetrics cfg a' a).
Proof.
  intros (Hs & l & Hp & HF) Hk. unfold sameResourceMetrics. rewrite <- Hs.
  unfold ResourceMetrics_known in Hk. rewrite forallb_Forall in Hk.
  split; intros (Hres & Hm); (split; [done|]).
  - eapply (matched_rearranged _ (fun x => ScopeMetrics_known x = true)
              ScopeMetrics_rearranged
              (agree_scopeMetrics_sym cfg) (agree_scopeMetrics_trans cfg)); try done.
    + intros x x'. apply ScopeMetrics_rearranged_known.
    + intros x x' Hr Hx. exact (proj1 (agree_scopeMetrics_rearranged x x' Hr Hx)).
  - eapply (matched_rearranged' _ (fun x => ScopeMetrics_known x = true)
              ScopeMetrics_rearranged
              (agree_scopeMetrics_sym cfg) (agree_scopeMetrics_trans cfg)); try done.
    + intros x x'. apply ScopeMetrics_rearranged_known.
    + intros x x' Hr Hx. exact (proj2 (agree_scopeMetrics_rearranged x x' Hr Hx)).
Qed.

End RearrangedFacts.

(** A tree is a rearrangement of itself. *)
Lemma Aggregation_rearranged_refl {E : External} (a : option Aggregation) :
  Aggregation_rearranged a a.
Proof. by destruct a as [[v|v|v|v|v|v|v|v|n]|]; simpl. Qed.

Lemma Metrics_rearranged_refl {E : External} (a : Metrics.t) : Metrics_rearranged a a.
Proof. repeat split. apply Aggregation_rearranged_refl. Qed.

Lemma ScopeMetrics_rearranged_refl {E : External} (a : ScopeMetrics.t) :
  ScopeMetrics_rearranged a a.
Proof.
  split; [done|]. exists (ScopeMetrics.Metrics a). split; [done|].
  apply Forall2_same_length_lookup. split; [done|].
  intros i x y Hx Hy. rewrite Hx in Hy. injection Hy as <-.
  apply Metrics_rearranged_refl.
Qed.

Lemma ResourceMetrics_rearranged_refl {E : External} (a : ResourceMetrics.t) :
  ResourceMetrics_rearranged a a.
Proof.
  split; [done|]. exists (ResourceMetrics.ScopeMetrics a). split; [done|].
  apply Forall2_same_length_lookup. split; [done|].
  intros i x y Hx Hy. rewrite Hx in Hy. injection Hy as <-.
  apply ScopeMetrics_rearranged_refl.
Qed.

(** C6. Under every policy, rearranging the ScopeMetrics of a
    ResourceMetrics, the Metrics of a ScopeMetrics or the data points of an
    aggregation, on either side and at any depth, does not change whether
    the comparison yields the empty list (for trees on which the
    comparators return, the external equalities being symmetric and
    transitive). Rearranging the counts of an exponential bucket, the
    bounds or the bucket counts of a histogram data point can change it:
    each of the three data points below equals itself and differs from
    itself with the sequence rearranged. *)
Theorem children_order_independent {E : External} {HE : ExternalPER E} (cfg : config) :
  order_independent (fun a b => equalAggregations a b cfg)
    Aggregation_known Aggregation_rearranged
  /\ order_independent (fun a b => equalMetrics a b cfg) Metrics_known Metrics_rearranged
  /\ order_independent (fun a b => equalScopeMetrics a b cfg)
       ScopeMetrics_known ScopeMetrics_rearranged
  /\ order_independent (fun a b => equalResourceMetrics a b cfg)
       ResourceMetrics_known ResourceMetrics_rearranged
  /\ ([2%N; 1%N] ≡ₚ [1%N; 2%N]
      /\ equalExponentialHistogramDataPoints (Examples.exponentialPoint 0 [1%N; 2%N])
           (Examples.exponentialPoint 0 [1%N; 2%N]) Examples.compareAll = Ok []
      /\ equalExponentialHistogramDataPoints (Examples.exponentialPoint 0 [2%N; 1%N])
           (Examples.exponentialPoint 0 [1%N; 2%N]) Examples.compareAll
         = Ok [notEqualStr (E:=Reference.external) "Counts" [2%N; 1%N] [1%N; 2%N]])
  /\ ([Examples.two; Examples.one] ≡ₚ [Examples.one; Examples.two]
      /\ equalHistogramDataPoints
           (Examples.histogramPoint [Examples.one; Examples.two] [3%N; 4%N])
           (Examples.histogramPoint [Examples.one; Examples.two] [3%N; 4%N])
           Examples.compareAll = Ok []
      /\ equalHistogramDataPoints
           (Examples.histogramPoint [Examples.two; Examples.one] [3%N; 4%N])
           (Examples.histogramPoint [Examples.one; Examples.two] [3%N; 4%N])
           Examples.compareAll
         = Ok [notEqualStr (E:=Reference.external) "Bounds"
                 [Examples.two; Examples.one] [Examples.one; Examples.two]])
  /\ ([4%N; 3%N] ≡ₚ [3%N; 4%N]
      /\ equalHistogramDataPoints
           (Examples.histogramPoint [Examples.one; Examples.two] [4%N; 3%N])
           (Examples.histogramPoint [Examples.one; Examples.two] [3%N; 4%N])
           Examples.compareAll
         = Ok [notEqualStr (E:=Reference.external) "BucketCounts"
                 [4%N; 3%N] [3%N; 4%N]]).
Proof.
  split; [|split; [|split; [|split]]].
  - apply (order_independent_from_same _ _ _ (sameAggregation cfg)).
    + by apply equalAggregations_known.
    + by apply sameAggregation_sym.
    + by apply sameAggregation_trans.
    + apply Aggregation_rearranged_known.
    + intros a a' Hr Hk. exact (proj1 (sameAggregation_rearranged cfg a a' Hr Hk)).
    + intros a a' Hr Hk. exact (proj2 (sameAggregation_rearranged cfg a a' Hr Hk)).
  - apply (order_independent_from_same _ _ _ (sameMetrics cfg)).
    + by apply equalMetrics_known.
    + by apply sameMetrics_sym.
    + by apply sameMetrics_trans.
    + apply Metrics_rearranged_known.
    + intros a a' Hr Hk. exact (proj1 (sameMetrics_rearranged cfg a a' Hr Hk)).
    + intros a a' Hr Hk. exact (proj2 (sameMetrics_rearranged cfg a a' Hr Hk)).
  - apply (order_independent_from_same _ _ _ (sameScopeMetrics cfg)).
    + by apply equalScopeMetrics_known.
    + by apply sameScopeMetrics_sym.
    + by apply sameScopeMetrics_trans.
    + apply ScopeMetrics_rearranged_known.
    + intros a a' Hr Hk. exact (proj1 (sameScopeMetrics_rearranged cfg a a' Hr Hk)).
    + intros a a' Hr Hk. exact (proj2 (sameScopeMetrics_rearranged cfg a a' Hr Hk)).
  - apply (order_independent_from_same _ _ _ (sameResourceMetrics cfg)).
    + by apply equalResourceMetrics_known.
    + by apply sameResourceMetrics_sym.
    + by apply sameResourceMetrics_trans.
    + apply ResourceMetrics_rearranged_known.
    + intros a a' Hr Hk. exact (proj1 (sameResourceMetrics_rearranged cfg a a' Hr Hk)).
    + intros a a' Hr Hk. exact (proj2 (sameResourceMetrics_rearranged cfg a a' Hr Hk)).
  - repeat split; try reflexivity; apply perm_swap.
Qed.

(** A tree with two metrics compared with the same tree whose metrics are
    swapped. *)
Lemma children_order_independent_witness :
  equalResourceMetrics
    (Examples.resourceOf [Examples.metric "errors" 1; Examples.metric "requests" 5])
    (Examples.resourceOf [Examples.metric "requests" 5; Examples.metric "errors" 1])
    Examples.compareAll = Ok [].
Proof.
  destruct (children_order_independent (E:=Reference.external)
              (HE:=Reference_external_PER) Examples.compareAll)
    as (_ & _ & _ & Hrm & _).
  apply (Hrm (Examples.resourceOf [Examples.metric "requests" 5; Examples.metric "errors" 1])
             (Examples.resourceOf [Examples.metric "errors" 1; Examples.metric "requests" 5])
             (Examples.resourceOf [Examples.metric "requests" 5; Examples.metric "errors" 1])
             (Examples.resourceOf [Examples.metric "requests" 5; Examples.metric "errors" 1]));
    [reflexivity | reflexivity | | apply ResourceMetrics_rearranged_refl | reflexivity].
  split; [reflexivity|].
  exists [Examples.scopeOf [Examples.metric "requests" 5; Examples.metric "errors" 1]].
  split; [reflexivity|]. constructor; [|constructor].
  split; [reflexivity|].
  exists [Examples.metric "errors" 1; Examples.metric "requests" 5].
  split; [apply perm_swap|].
  constructor; [apply Metrics_rearranged_refl|].
  constructor; [apply Metrics_rearranged_refl|constructor].
Defined.

(** ** The ignore flags *)

Lemma always_compared_from_nil {T} (equal : T -> T -> config -> outcome (list string))
    (field : T -> T -> bool) (cfg : config) :
  (forall a b, equal a b cfg = Ok [] -> field a b = true) ->
  always_compared equal field cfg.
Proof. intros Hnil a b Hf Heq. apply Hnil in Heq. congruence. Qed.

Lemma timestamps_ignorable_from {T} (equal : T -> T -> config -> outcome (list string))
    (known wellFormed : T -> bool) (start time : T -> Time)
    (withTimes : T -> Time -> Time -> T) (cfg : config) :
  (forall a s t, ignoreTimestamp cfg = true ->
     equal a (withTimes a s t) cfg = equal a a cfg) ->
  (forall a, wellFormed a = true -> equal a a cfg = Ok []) ->
  (forall a b, equal a b cfg = Ok [] ->
     sameTimes cfg (start a) (time a) (start b) (time b)) ->
  (forall a b, known a = true -> exists r, equal a b cfg = Ok r) ->
  (forall a s t, start (withTimes a s t) = s /\ time (withTimes a s t) = t) ->
  timestamps_ignorable equal known wellFormed start time withTimes cfg.
Proof.
  intros Hsame Hrefl Htimes Htotal Hproj a s t. split.
  - intros Hts. split; [by apply Hsame|].
    intros Hwf. rewrite Hsame by done. by apply Hrefl.
  - intros Hts Hdiff.
    assert (equal a (withTimes a s t) cfg <> Ok []) as Hne.
    { intros Heq. apply Htimes in Heq. destruct (Heq Hts) as [Hs Ht].
      destruct (Hproj a s t) as [Es Et]. rewrite Es in Hs. rewrite Et in Ht.
      destruct Hdiff; congruence. }
    split; [done|]. intros Hknown.
    destruct (Htotal a (withTimes a s t) Hknown) as (r & Hr).
    exists r. split; [done|]. intros ->. done.
Qed.

(** Reads the fields off a comparator that returned the empty list; the
    comparison of the children may have panicked, in which case there is
    nothing to read. *)
Ltac nil_fields :=
  repeat match goal with
         | |- context [diffSlices ?a ?b ?f] =>
             destruct (diffSlices a b f) as [[? ?]|]; run_outcome
         end;
  try discriminate;
  try (intros [= Heq]; revert Heq);
  same_fields.

Section NilFacts.
Context `{External} {N : Type} `{Number N} (cfg : config).

Lemma equalDataPoints_nil_inv (a b : DataPoint.t N) :
  equalDataPoints a b cfg = Ok [] ->
  Set_Equals (DataPoint.Attributes a) (DataPoint.Attributes b) = true
  /\ sameTimes cfg (DataPoint.StartTime a) (DataPoint.Time a)
       (DataPoint.StartTime b) (DataPoint.Time b)
  /\ (ignoreValue cfg = false -> go_eqb (DataPoint.Value a) (DataPoint.Value b) = true).
Proof.
  unfold equalDataPoints, sameTimes.
  destruct (ignoreExemplars cfg), (ignoreTimestamp cfg), (ignoreValue cfg);
    cbn [negb]; nil_fields.
Qed.

Lemma equalHistogramDataPoints_nil_inv (a b : HistogramDataPoint.t N) :
  equalHistogramDataPoints a b cfg = Ok [] ->
  Set_Equals (HistogramDataPoint.Attributes a) (HistogramDataPoint.Attributes b) = true
  /\ sameTimes cfg (HistogramDataPoint.StartTime a) (HistogramDataPoint.Time a)
       (HistogramDataPoint.StartTime b) (HistogramDataPoint.Time b)
  /\ (ignoreValue cfg = false ->
      equalSlices (HistogramDataPoint.Bounds a) (HistogramDataPoint.Bounds b) = true).
Proof.
  unfold equalHistogramDataPoints, sameTimes.
  destruct (ignoreExemplars cfg), (ignoreTimestamp cfg), (ignoreValue cfg);
    cbn [negb]; nil_fields.
Qed.

Lemma equalExponentialHistogramDataPoints_nil_inv
    (a b : ExponentialHistogramDataPoint.t N) :
  equalExponentialHistogramDataPoints a b cfg = Ok [] ->
  Set_Equals (ExponentialHistogramDataPoint.Attributes a)
    (ExponentialHistogramDataPoint.Attributes b) = true
  /\ sameTimes cfg (ExponentialHistogramDataPoint.StartTime a)
       (ExponentialHistogramDataPoint.Time a)
       (ExponentialHistogramDataPoint.StartTime b)
       (ExponentialHistogramDataPoint.Time b)
  /\ (ignoreValue cfg = false ->
      go_eqb (ExponentialHistogramDataPoint.Scale a)
        (ExponentialHistogramDataPoint.Scale b) = true
      /\ go_eqb (ExponentialBucket.Offset (ExponentialHistogramDataPoint.PositiveBucket a))
           (ExponentialBucket.Offset (ExponentialHistogramDataPoint.PositiveBucket b))
         = true
      /\ go_eqb (ExponentialBucket.Offset (ExponentialHistogramDataPoint.NegativeBucket a))
           (ExponentialBucket.Offset (ExponentialHistogramDataPoint.NegativeBucket b))
         = true).
Proof.
  unfold equalExponentialHistogramDataPoints, sameTimes.
  destruct (ignoreExemplars cfg), (ignoreTimestamp cfg), (ignoreValue cfg);
    cbn [negb]; nil_fields.
Qed.

Lemma equalSums_nil_inv (a b : Sum.t N) :
  equalSums a b cfg = Ok [] ->
  go_eqb (Sum.Temporality a) (Sum.Temporality b) = true
  /\ go_eqb (Sum.IsMonotonic a) (Sum.IsMonotonic b) = true.
Proof. unfold equalSums. nil_fields. Qed.

Lemma equalHistograms_nil_inv (a b : Histogram.t N) :
  equalHistograms a b cfg = Ok [] ->
  go_eqb (Histogram.Temporality a) (Histogram.Temporality b) = true.
Proof. unfold equalHistograms. nil_fields. Qed.

Lemma equalExponentialHistograms_nil_inv (a b : ExponentialHistogram.t N) :
  equalExponentialHistograms a b cfg = Ok [] ->
  go_eqb (ExponentialHistogram.Temporality a) (ExponentialHistogram.Temporality b) = true.
Proof. unfold equalExponentialHistograms. nil_fields. Qed.

End NilFacts.

Section TreeNilFacts.
Context `{External} (cfg : config).

Lemma equalMetrics_nil_inv (a b : Metrics.t) :
  equalMetrics a b cfg = Ok [] ->
  go_eqb (Metrics.Name a) (Metrics.Name b) = true
  /\ go_eqb (Metrics.Description a) (Metrics.Description b) = true
  /\ go_eqb (Metrics.Unit a) (Metrics.Unit b) = true.
Proof.
  unfold equalMetrics.
  destruct (equalAggregations _ _ _) as [r|]; run_outcome; [|discriminate].
  intros [= Heq]. revert Heq. same_fields.
Qed.

Lemma equalScopeMetrics_nil_inv (a b : ScopeMetrics.t) :
  equalScopeMetrics a b cfg = Ok [] ->
  Scope_eqb (ScopeMetrics.Scope a) (ScopeMetrics.Scope b) = true.
Proof. unfold equalScopeMetrics. nil_fields. Qed.

Lemma equalResourceMetrics_nil_inv (a b : ResourceMetrics.t) :
  equalResourceMetrics a b cfg = Ok [] ->
  Resource_Equal (ResourceMetrics.Resource a) (ResourceMetrics.Resource b) = true.
Proof. unfold equalResourceMetrics. nil_fields. Qed.

Lemma names_always_compared_holds : names_always_compared cfg.
Proof.
  repeat split; apply always_compared_from_nil; intros a b Heq.
  - by apply equalMetrics_nil_inv in Heq as (? & ? & ?).
  - by apply equalMetrics_nil_inv in Heq as (? & ? & ?).
  - by apply equalMetrics_nil_inv in Heq as (? & ? & ?).
  - by apply equalScopeMetrics_nil_inv.
  - by apply equalResourceMetrics_nil_inv.
Qed.

End TreeNilFacts.

Section IgnoreFlagFacts.
Context `{External} (N : Type) `{NumberLaws N} (cfg : config).

Lemma identity_always_compared_holds : identity_always_compared N cfg.
Proof.
  repeat split; apply always_compared_from_nil; intros a b Heq.
  - by apply equalDataPoints_nil_inv in Heq as (? & ? & ?).
  - by apply equalHistogramDataPoints_nil_inv in Heq as (? & ? & ?).
  - by apply equalExponentialHistogramDataPoints_nil_inv in Heq as (? & ? & ?).
  - by apply equalSums_nil_inv in Heq as (? & ?).
  - by apply equalSums_nil_inv in Heq as (? & ?).
  - exact (equalHistograms_nil_inv cfg a b Heq).
  - exact (equalExponentialHistograms_nil_inv cfg a b Heq).
Qed.

Lemma shape_compared_with_values_holds : shape_compared_with_values N cfg.
Proof.
  split.
  - intros Hv. repeat split; apply always_compared_from_nil; intros a b Heq.
    + apply equalExponentialHistogramDataPoints_nil_inv in Heq as (_ & _ & Hs).
      by destruct (Hs Hv) as (? & ? & ?).
    + apply equalExponentialHistogramDataPoints_nil_inv in Heq as (_ & _ & Hs).
      by destruct (Hs Hv) as (? & ? & ?).
    + apply equalExponentialHistogramDataPoints_nil_inv in Heq as (_ & _ & Hs).
      by destruct (Hs Hv) as (? & ? & ?).
    + apply equalHistogramDataPoints_nil_inv in Heq as (_ & _ & Hs). by apply Hs.
  - intros Hv. split; intros a b Hknown.
    + destruct (equalExponentialHistogramDataPoints_known cfg a b Hknown)
        as (r & -> & Hr).
      unfold sameExponentialHistogramDataPoint in Hr. rewrite Hv in Hr.
      split.
      * intros [= ->]. destruct Hr as [Hr _]. specialize (Hr eq_refl). tauto.
      * intros (Ha & Ht & He). f_equal. apply Hr.
        split; [done|]. split; [done|]. split; [intros [=]|done].
    + destruct (equalHistogramDataPoints_known cfg a b Hknown) as (r & -> & Hr).
      unfold sameHistogramDataPoint in Hr. rewrite Hv in Hr.
      split.
      * intros [= ->]. destruct Hr as [Hr _]. specialize (Hr eq_refl). tauto.
      * intros (Ha & Ht & He). f_equal. apply Hr.
        split; [done|]. split; [done|]. split; [intros [=]|done].
Qed.

Context `{!ExternalRefl _}.

Lemma data_points_ignore_timestamps_holds : data_points_ignore_timestamps N cfg.
Proof.
  destruct (leaves_reflexive_laws N cfg) as (_ & Hdp & Hhdp & Hehdp).
  split; [|split].
  - apply timestamps_ignorable_from; [|exact Hdp| | |done].
    + intros a s t Hts. unfold equalDataPoints. by rewrite Hts.
    + intros a b Heq. by apply equalDataPoints_nil_inv in Heq as (_ & ? & _).
    + intros a b Hknown.
      destruct (equalDataPoints_known cfg a b Hknown) as (r & ? & _). by exists r.
  - apply timestamps_ignorable_from; [|exact Hhdp| | |done].
    + intros a s t Hts. unfold equalHistogramDataPoints. by rewrite Hts.
    + intros a b Heq. by apply equalHistogramDataPoints_nil_inv in Heq as (_ & ? & _).
    + intros a b Hknown.
      destruct (equalHistogramDataPoints_known cfg a b Hknown) as (r & ? & _).
      by exists r.
  - apply timestamps_ignorable_from; [|exact Hehdp| | |done].
    + intros a s t Hts. unfold equalExponentialHistogramDataPoints. by rewrite Hts.
    + intros a b Heq.
      by apply equalExponentialHistogramDataPoints_nil_inv in Heq as (_ & ? & _).
    + intros a b Hknown.
      destruct (equalExponentialHistogramDataPoints_known cfg a b Hknown)
        as (r & ? & _).
      by exists r.
Qed.

End IgnoreFlagFacts.

(** ** C8: what the ignore flags suppress *)

(** C8 as stated fails, twice. Under the policy that ignores values, two
    exponential-histogram data points that differ only in scale, two that
    differ only in the offset of the positive buckets, and two histogram
    data points that differ only in their bucket boundaries, compare
    equal: scale, offsets and boundaries are suppressed with the values.
    And under the policy that ignores timestamps, a data point whose
    value is a NaN and a copy of it that differs only in its two times do
    not compare equal: the value differs from itself. *)
Lemma ignoreValue_suppresses_scale_offset_bounds :
  equalExponentialHistogramDataPoints (Examples.exponentialPoint 1 [1%N; 2%N])
    (Examples.exponentialPoint 2 [1%N; 2%N]) Examples.ignoreValues = Ok []
  /\ equalExponentialHistogramDataPoints (Examples.shiftedPoint 0) (Examples.shiftedPoint 3)
       Examples.ignoreValues = Ok []
  /\ equalHistogramDataPoints (Examples.histogramPoint [Examples.one] [3%N; 4%N])
       (Examples.histogramPoint [Examples.two] [3%N; 4%N]) Examples.ignoreValues = Ok []
  /\ equalSlices [Examples.one] [Examples.two] = false
  /\ equalDataPoints Examples.nanPoint (DataPoint_withTimes Examples.nanPoint 7%Z 9%Z)
       Examples.ignoreTimestamps
     = Ok [notEqualStr (E:=Reference.external) "Value" S754_nan S754_nan].
Proof. repeat split; reflexivity. Qed.

(** C8, amended. For every policy, at both numeric kinds:
    with [ignoreTimestamp] set, a well-formed data point of any of the
    three kinds (no NaN among its numbers, filtered attributes of the
    eight kinds) and a copy that differs only in its start time and time
    compare equal, and for any data point the copy compares as the data
    point compares with itself; with it unset and one of the two times
    different, the comparison never gives the empty list, and gives a
    non-empty one when every filtered attribute has one of the eight
    kinds.
    Under every policy the empty list is returned only when attribute
    sets, temporality, monotonicity, metric name, description and unit,
    scope and resource agree.
    Scale, bucket offsets and bucket boundaries are compared together with
    the values: with [ignoreValue] unset the empty list is returned only
    when they agree, and with it set the comparison of two histogram or
    exponential-histogram data points looks at attribute sets, times and
    exemplars only.
    The external equality of attribute sets and of resources is taken
    reflexive. *)
Theorem ignore_flags_semantics {E : External} {HE : ExternalRefl E} (cfg : config) :
  data_points_ignore_timestamps int64 cfg
  /\ data_points_ignore_timestamps float64 cfg
  /\ identity_always_compared int64 cfg
  /\ identity_always_compared float64 cfg
  /\ names_always_compared cfg
  /\ shape_compared_with_values int64 cfg
  /\ shape_compared_with_values float64 cfg.
Proof.
  split; [apply data_points_ignore_timestamps_holds; apply _|].
  split; [apply data_points_ignore_timestamps_holds; apply _|].
  split; [apply identity_always_compared_holds; apply _|].
  split; [apply identity_always_compared_holds; apply _|].
  split; [apply names_always_compared_holds|].
  split; apply shape_compared_with_values_holds; apply _.
Qed.

(** The scenario's data point and a copy observed at other times: equal
    under the policy that ignores timestamps, unequal under the default
    policy. *)
Lemma ignore_flags_semantics_witness :
  equalDataPoints (Examples.dataPoint 5)
    (DataPoint_withTimes (Examples.dataPoint 5) 7%Z 9%Z) Examples.ignoreTimestamps = Ok []
  /\ equalDataPoints (Examples.dataPoint 5)
       (DataPoint_withTimes (Examples.dataPoint 5) 7%Z 9%Z) Examples.compareAll <> Ok [].
Proof.
  split.
  - destruct (ignore_flags_semantics (E:=Reference.external)
                (HE:=Reference_external_Refl) Examples.ignoreTimestamps)
      as ((Hdp & _) & _).
    destruct (Hdp (Examples.dataPoint 5) 7%Z 9%Z) as [Hset _].
    apply Hset; reflexivity.
  - destruct (ignore_flags_semantics (E:=Reference.external)
                (HE:=Reference_external_Refl) Examples.compareAll)
      as ((Hdp & _) & _).
    destruct (Hdp (Examples.dataPoint 5) 7%Z 9%Z) as [_ Hunset].
    apply Hunset; [reflexivity | left; reflexivity].
Defined.

(** ** The properties at concrete inputs *)

(** The matcher on [1; 2; 2; 3] against [2; 4; 1]: 1 and the first 2 are
    matched, the second 2 and 3 are not, and 4 is left over. *)
Lemma diffSlices_greedy_first_available_witness :
  diffSlices [1; 2; 2; 3] [2; 4; 1] (fun x y => Ok (x =? y)) = Ok ([2; 3], [4])
  /\ compareDiff (E:=Reference.external) [2; 3] [4] <> "".
Proof.
  destruct (diffSlices_greedy_first_available (H:=Reference.external) Nat.eqb
              [1; 2; 2; 3] [2; 4; 1]) as [Hd Hc].
  split; [exact Hd|]. intros Hempty. apply Hc in Hempty. discriminate Hempty.
Defined.

Lemma diffSlices_matching_injective_witness :
  matching_invariant [1; 2; 2; 3] [2; 4; 1] [2; 3] [4].
Proof.
  destruct (diffSlices_matching_injective [1; 2; 2; 3] [2; 4; 1]) as [_ Hinv].
  apply (Hinv (fun x y => Ok (x =? y))). reflexivity.
Defined.

(** An absent minimum against a present minimum of zero. *)
Lemma eqExtrema_absent_present_witness :
  eqExtrema Examples.absent {| Extrema.value := 0%Z; Extrema.valid := true |} = false.
Proof.
  destruct (eqExtrema_absent_present (H:=Reference.external) (N:=int64)) as [Hex _].
  destruct (Hex Examples.absent {| Extrema.value := 0%Z; Extrema.valid := true |})
    as (_ & Hdiff & _).
  apply Hdiff. discriminate.
Defined.

(** C9 as stated fails: a value of a kind outside the eight does not
    always make the comparison panic. Against an attribute of a known
    kind, against another key, and in lists of different lengths, the
    zero [Value] is compared and the result is false. *)
Lemma unknown_kind_returns_false :
  knownKinds [{| Key_ := "k"; Value_ := InvalidValue |}] = false
  /\ equalKeyValue (E:=Reference.external)
       [{| Key_ := "k"; Value_ := InvalidValue |}]
       [{| Key_ := "k"; Value_ := StringValue "GET" |}] = Ok false
  /\ equalKeyValue (E:=Reference.external)
       [{| Key_ := "k"; Value_ := InvalidValue |}]
       [{| Key_ := "j"; Value_ := InvalidValue |}] = Ok false
  /\ equalKeyValue (E:=Reference.external)
       [{| Key_ := "k"; Value_ := InvalidValue |}] [] = Ok false.
Proof. repeat split; reflexivity. Qed.

(** Two lists with the attribute [method = GET] compare; two whose only
    value is the zero [Value] make the comparison panic, and a panic shows
    that the lists hold such a pair. *)
Lemma equalKeyValue_known_kinds_or_panic_witness :
  (exists r, equalKeyValue (E:=Reference.external) [Examples.method_GET]
               [Examples.method_GET] = Ok r
             /\ (r = true <->
                 Forall2 KeyValue_equal [Examples.method_GET] [Examples.method_GET]))
  /\ (exists msg,
         equalKeyValue (E:=Reference.external)
           [{| Key_ := "k"; Value_ := InvalidValue |}]
           [{| Key_ := "k"; Value_ := InvalidValue |}] = Panic msg)
  /\ ~ Forall2 KeyValue_equal
         [{| Key_ := "k"; Value_ := InvalidValue |}]
         [{| Key_ := "k"; Value_ := StringValue "GET" |}]
  /\ (exists a1 x a2 b1 y b2,
         [Examples.method_GET; {| Key_ := "k"; Value_ := InvalidValue |}]
         = a1 ++ x :: a2
         /\ [Examples.method_GET; {| Key_ := "k"; Value_ := InvalidValue |}]
            = b1 ++ y :: b2
         /\ Forall2 KeyValue_equal a1 b1 /\ length a2 = length b2
         /\ Key_ x = Key_ y
         /\ Type' (Value_ x) = INVALID /\ Type' (Value_ y) = INVALID).
Proof.
  destruct (equalKeyValue_known_kinds_or_panic (H:=Reference.external))
    as (Hknown & Hpanic & Hreturns & Honly & _).
  split; [|split; [|split]].
  - apply Hknown. left. reflexivity.
  - apply (Hpanic [] [] [] []); [constructor | reflexivity..].
  - intros HF.
    apply (Hreturns [{| Key_ := "k"; Value_ := InvalidValue |}]
             [{| Key_ := "k"; Value_ := StringValue "GET" |}] false eq_refl) in HF.
    discriminate HF.
  - apply (Honly _ _ ("unknown attribute value type: " +:+ "")). reflexivity.
Defined.

(** A gauge against a sum with the same data point. *)
Lemma equalAggregations_presence_then_variant_witness :
  equalAggregations (E:=Reference.external)
    (Some (GaugeInt64 {| Gauge.DataPoints := [Examples.dataPoint 5] |}))
    (Some (SumInt64 {| Sum.DataPoints := [Examples.dataPoint 5];
                       Sum.Temporality := 1%N; Sum.IsMonotonic := true |}))
    Examples.compareAll
  = Ok ["Aggregation types not equal:" +:+ nl +:+ "expected: "
          +:+ "metricdata.Gauge[int64]" +:+ nl +:+ "actual: " +:+ "metricdata.Sum[int64]"].
Proof.
  destruct (equalAggregations_presence_then_variant (H:=Reference.external)
              Examples.compareAll) as (_ & _ & _ & Hdiff & _).
  apply (Hdiff (GaugeInt64 {| Gauge.DataPoints := [Examples.dataPoint 5] |})).
  discriminate.
Defined.


(** * Further properties of the code *)

(** ** [equalSlices] *)

(** X1. [equalSlices] is true exactly when the two slices have the same
    length and agree under Go's [==] at every index; slices of different
    lengths are never equal, and a slice is equal to itself exactly when
    each element is [==] to itself, which fails for a NaN. *)
Theorem equalSlices_positionwise {T} `{Comparable T} (a b : list T) :
  (equalSlices a b = true <->
   length a = length b
   /\ forall i x y, a !! i = Some x -> b !! i = Some y -> go_eqb x y = true)
  /\ (length a <> length b -> equalSlices a b = false)
  /\ equalSlices a a = forallb (fun x => go_eqb x x) a.
Proof.
  split; [|split].
  - by rewrite equalSlices_Forall2, Forall2_same_length_lookup.
  - intros Hlen. apply not_true_is_false. rewrite equalSlices_Forall2.
    intros HF. by apply Forall2_length in HF.
  - apply eq_true_iff_eq. rewrite equalSlices_Forall2, forallb_Forall.
    rewrite Forall2_same_length_lookup, Forall_lookup. split.
    + intros [_ Hall] i x Hx. by apply (Hall i).
    + intros Hall. split; [done|]. intros i x y Hx Hy.
      rewrite Hx in Hy. injection Hy as <-. by apply (Hall i).
Qed.

(** Two float slices holding the same NaN are not equal. *)
Lemma equalSlices_positionwise_witness :
  equalSlices [Examples.one; Examples.two] [Examples.one] = false
  /\ equalSlices [S754_nan : float64] [S754_nan : float64] = false.
Proof.
  split.
  - apply (equalSlices_positionwise [Examples.one; Examples.two] [Examples.one]).
    simpl. lia.
  - destruct (equalSlices_positionwise [S754_nan : float64] [S754_nan : float64])
      as (_ & _ & ->). reflexivity.
Defined.

(** ** [diffSlices] *)

Section DiffSlicesFacts.
Context {T : Type}.

Lemma greedyM_nil_r (equal : T -> T -> outcome bool) (A : list T) :
  greedyM equal A [] = Ok (A, []).
Proof. induction A as [|x A IH]; simpl; [done|]. by rewrite IH. Qed.

(** What is left on the two sides cannot be paired: the predicate was
    evaluated on every such pair and returned false. *)
Lemma greedyM_leaves_no_match (equal : T -> T -> outcome bool) (A : list T) :
  forall B extraA extraB,
  greedyM equal A B = Ok (extraA, extraB) ->
  forall x y, x ∈ extraA -> y ∈ extraB -> equal x y = Ok false.
Proof.
  induction A as [|a A IH]; intros B extraA extraB Hg x y Hx Hy.
  - injection Hg as <- <-. by apply elem_of_nil in Hx.
  - cbn [greedyM] in Hg.
    destruct (remove_firstM (equal a) B) as [[B'|]|] eqn:Hr; simpl in Hg;
      [by apply (IH B' extraA extraB)| |discriminate].
    destruct (greedyM equal A B) as [[ea eb]|] eqn:Hg'; simpl in Hg; [|discriminate].
    injection Hg as <- <-.
    apply elem_of_cons in Hx as [->|Hx]; [|by apply (IH B ea eb)].
    apply remove_firstM_None in Hr. rewrite Forall_forall in Hr. apply Hr.
    apply greedyM_invariants in Hg' as (_ & _ & Hsub).
    by apply (elem_of_sublist _ _ _ Hy Hsub).
Qed.

(** A panic of the matcher is a panic of the predicate. *)
Lemma remove_firstM_Panic (p : T -> outcome bool) (B : list T) msg :
  remove_firstM p B = Panic msg -> exists y, y ∈ B /\ p y = Panic msg.
Proof.
  induction B as [|y B IH]; simpl; [discriminate|].
  destruct (p y) as [[|]|m] eqn:Hp; simpl.
  - discriminate.
  - destruct (remove_firstM p B) as [o|m]; simpl; [discriminate|].
    intros [= <-]. destruct IH as (z & Hz & Hpz); [done|].
    exists z. split; [by right|done].
  - intros [= <-]. exists y. split; [by left|done].
Qed.

Lemma remove_firstM_elem_of (p : T -> outcome bool) (B B' : list T) :
  remove_firstM p B = Ok (Some B') -> forall y, y ∈ B' -> y ∈ B.
Proof.
  intros Hr y Hy. apply remove_firstM_Some in Hr as [_ Hsub].
  by apply (elem_of_sublist _ _ _ Hy Hsub).
Qed.

Lemma greedyM_Panic (equal : T -> T -> outcome bool) (A : list T) msg :
  forall B, greedyM equal A B = Panic msg ->
  exists x y, x ∈ A /\ y ∈ B /\ equal x y = Panic msg.
Proof.
  induction A as [|a A IH]; intros B; simpl; [discriminate|].
  destruct (remove_firstM (equal a) B) as [[B'|]|m] eqn:Hr; simpl.
  - intros Hg. destruct (IH _ Hg) as (x & y & Hx & Hy & Hxy).
    exists x, y. split; [by right|]. split; [|done].
    by apply (remove_firstM_elem_of _ _ _ Hr).
  - destruct (greedyM equal A B) as [[ea eb]|m] eqn:Hg; simpl; [discriminate|].
    intros [= <-]. destruct (IH _ Hg) as (x & y & Hx & Hy & Hxy).
    exists x, y. split; [by right|done].
  - intros [= <-]. apply remove_firstM_Panic in Hr as (y & Hy & Hp).
    exists a, y. split; [by left|done].
Qed.

End DiffSlicesFacts.

(** X2. Whenever [diffSlices] returns, no element it reports as unmatched
    in [a] could have been paired with one it reports as unmatched in
    [b]: the predicate was evaluated on each such pair and was false. *)
Theorem diffSlices_leaves_no_match {T} (equal : T -> T -> outcome bool)
    (a b extraA extraB : list T) :
  diffSlices a b equal = Ok (extraA, extraB) ->
  forall x y, x ∈ extraA -> y ∈ extraB -> equal x y = Ok false.
Proof. rewrite diffSlices_greedyM. apply greedyM_leaves_no_match. Qed.

(** On [1; 2; 2; 3] against [2; 4; 1]: the unmatched 3 and the unmatched 4. *)
Lemma diffSlices_leaves_no_match_witness : Ok (3 =? 4) = Ok false.
Proof.
  apply (diffSlices_leaves_no_match (fun x y => Ok (x =? y)) [1; 2; 2; 3] [2; 4; 1]
           [2; 3] [4] eq_refl 3 4).
  - apply elem_of_cons. right. apply elem_of_cons. by left.
  - apply elem_of_cons. by left.
Defined.

(** X3. Under a predicate that is symmetric and transitive, [diffSlices]
    returns two empty lists exactly when [b] is a rearrangement of [a] up
    to the predicate: some permutation of [b] agrees with [a] position by
    position. *)
Theorem diffSlices_empty_iff_rearrangement {T} (eq : T -> T -> bool) (a b : list T) :
  (forall x y, eq x y = true -> eq y x = true) ->
  (forall x y z, eq x y = true -> eq y z = true -> eq x z = true) ->
  diffSlices a b (fun x y => Ok (eq x y)) = Ok ([], [])
  <-> exists b', b ≡ₚ b' /\ Forall2 (fun x y => eq x y = true) a b'.
Proof.
  intros Hsym Htrans.
  assert (Hd : diffSlices a b (fun x y => Ok (eq x y)) = Ok (greedy eq a b)).
  { rewrite diffSlices_greedyM. by apply greedyM_pure. }
  rewrite Hd. split.
  - intros [= Hg]. apply (matched_Forall2 eq). unfold matched. by rewrite Hg.
  - intros (b' & Hp & HF).
    assert (Hm : matched eq a b = true).
    { apply (Forall2_matched eq (fun _ => True)) with (B' := b'); auto.
      - intros x y z _ _ _. apply Htrans.
      - by apply Forall_true.
      - by apply Forall_true. }
    unfold matched in Hm. by destruct (greedy eq a b) as [[|] [|]].
Qed.

Lemma diffSlices_empty_iff_rearrangement_witness :
  diffSlices [1; 2; 2] [2; 1; 2] (fun x y => Ok (x =? y)) = Ok ([], []).
Proof.
  apply (diffSlices_empty_iff_rearrangement Nat.eqb [1; 2; 2] [2; 1; 2]).
  - intros x y Hxy. apply Nat.eqb_eq in Hxy. apply Nat.eqb_eq. by symmetry.
  - intros x y z Hxy Hyz. apply Nat.eqb_eq in Hxy, Hyz. apply Nat.eqb_eq. congruence.
  - exists [1; 2; 2]. split; [|repeat constructor].
    apply perm_swap.
Defined.

(** X4. With an empty slice on either side [diffSlices] never calls the
    predicate: everything on the other side is returned as unmatched,
    even for a predicate that would panic. And [diffSlices] itself never
    indexes out of range: when it panics, the predicate panicked, with the
    same message, on an element of [a] and an element of [b]. *)
Theorem diffSlices_empty_input_and_panic {T} (equal : T -> T -> outcome bool)
    (a b : list T) :
  diffSlices [] b equal = Ok ([], b)
  /\ diffSlices a [] equal = Ok (a, [])
  /\ (forall msg, diffSlices a b equal = Panic msg ->
        exists x y, x ∈ a /\ y ∈ b /\ equal x y = Panic msg).
Proof.
  rewrite !diffSlices_greedyM. split; [done|]. split; [apply greedyM_nil_r|].
  intros msg. apply greedyM_Panic.
Qed.

(** A predicate that always panics is not called when [a] is empty. *)
Lemma diffSlices_empty_input_and_panic_witness :
  diffSlices [] [1; 2] (fun _ _ => Panic "unreachable") = Ok ([], [1; 2]).
Proof.
  apply (diffSlices_empty_input_and_panic (fun _ _ => Panic "unreachable") [] [1; 2]).
Defined.

(** ** Panics *)

Lemma children_panic {T} (equal : T -> T -> outcome (list string)) (A B : list T) msg :
  diffSlices A B (fun a b => r ← equal a b; mret (length r =? 0)) = Panic msg ->
  exists x y, x ∈ A /\ y ∈ B /\ equal x y = Panic msg.
Proof.
  rewrite diffSlices_greedyM. intros Hg.
  apply greedyM_Panic in Hg as (x & y & Hx & Hy & Hxy).
  exists x, y. split; [done|]. split; [done|].
  destruct (equal x y) as [r|m]; cbn in Hxy; [discriminate|by injection Hxy as ->].
Qed.

(** A comparator that hands its children to [diffSlices] and does nothing
    else that can panic. *)
Ltac panic_of_children Hchild :=
  match goal with
  | |- context [diffSlices ?a ?b ?f] =>
      let Hd := fresh "Hd" in
      destruct (diffSlices a b f) as [[? ?]|?] eqn:Hd; run_outcome;
      [ discriminate
      | intros [= <-]; apply children_panic in Hd as (? & ? & _ & _ & Hd);
        exact (Hchild _ _ _ Hd) ]
  end.

Section PanicFacts.
Context `{External}.

Lemma equalKeyValue_step_Panic v bi msg :
  equalKeyValue_step v bi = Panic msg -> msg = unknown_kind_message.
Proof.
  unfold equalKeyValue_step, unknown_kind_message.
  destruct (negb (Key_ v =? Key_ bi)%string); [discriminate|].
  destruct (negb (Type_eqb (Type' (Value_ v)) (Type' (Value_ bi)))); [discriminate|].
  destruct (Type' (Value_ v)); try discriminate. by intros [= <-].
Qed.

Lemma equalKeyValue_loop_Panic a msg : forall b1 b2,
  length a = length b2 ->
  equalKeyValue_loop a (b1 ++ b2) (length b1) = Panic msg -> msg = unknown_kind_message.
Proof.
  induction a as [|v a IH]; intros b1 b2 Hlen; [discriminate|].
  destruct b2 as [|w b2]; [discriminate|]. injection Hlen as Hlen.
  rewrite equalKeyValue_loop_step, list_lookup_middle by reflexivity.
  destruct (equalKeyValue_step v w) as [[|]|m] eqn:Hstep; cbn [mbind outcome_bind].
  - specialize (IH (b1 ++ [w]) b2 Hlen).
    rewrite length_app, Nat.add_1_r, <- app_assoc in IH. exact IH.
  - discriminate.
  - intros [= <-]. by apply equalKeyValue_step_Panic in Hstep.
Qed.

Lemma equalKeyValue_Panic a b msg :
  equalKeyValue a b = Panic msg ->
  msg = unknown_kind_message /\ knownKinds a = false /\ knownKinds b = false.
Proof.
  intros Hp. split.
  - unfold equalKeyValue in Hp.
    destruct (length a =? length b) eqn:Hlen; cbn [negb] in Hp; [|discriminate].
    apply Nat.eqb_eq in Hlen. by apply (equalKeyValue_loop_Panic a msg [] b).
  - destruct (knownKinds a) eqn:Ha.
    { destruct (equalKeyValue_known a b) as (r & Hr & _); [by left|congruence]. }
    destruct (knownKinds b) eqn:Hb; [|done].
    destruct (equalKeyValue_known a b) as (r & Hr & _); [by right|congruence].
Qed.

Lemma equalExemplars_Panic {N} `{Number N} (a b : Exemplar.t N) cfg msg :
  equalExemplars a b cfg = Panic msg ->
  msg = unknown_kind_message /\ Exemplar_known a = false /\ Exemplar_known b = false.
Proof.
  unfold equalExemplars, Exemplar_known.
  destruct (equalKeyValue _ _) as [r|m] eqn:Hkv; run_outcome; [discriminate|].
  intros [= <-]. by apply equalKeyValue_Panic in Hkv.
Qed.

Section Numbers.
Context (N : Type) `{Number N}.

Lemma exemplars_Panic cfg (a b : Exemplar.t N) msg :
  equalExemplars a b cfg = Panic msg -> msg = unknown_kind_message.
Proof. intros Hp. by apply equalExemplars_Panic in Hp as [? _]. Qed.

Lemma equalDataPoints_Panic : panics_only_on_unknown_kind (T:=DataPoint.t N) equalDataPoints.
Proof.
  intros a b cfg msg. unfold equalDataPoints.
  destruct (ignoreExemplars cfg); cbn [negb]; [discriminate|].
  intros Hp. split; [|done]. revert Hp.
  panic_of_children (fun a b => exemplars_Panic cfg a b).
Qed.

Lemma equalHistogramDataPoints_Panic :
  panics_only_on_unknown_kind (T:=HistogramDataPoint.t N) equalHistogramDataPoints.
Proof.
  intros a b cfg msg. unfold equalHistogramDataPoints.
  destruct (ignoreExemplars cfg); cbn [negb]; [discriminate|].
  intros Hp. split; [|done]. revert Hp.
  panic_of_children (fun a b => exemplars_Panic cfg a b).
Qed.

Lemma equalExponentialHistogramDataPoints_Panic :
  panics_only_on_unknown_kind (T:=ExponentialHistogramDataPoint.t N)
    equalExponentialHistogramDataPoints.
Proof.
  intros a b cfg msg. unfold equalExponentialHistogramDataPoints.
  destruct (ignoreExemplars cfg); cbn [negb]; [discriminate|].
  intros Hp. split; [|done]. revert Hp.
  panic_of_children (fun a b => exemplars_Panic cfg a b).
Qed.

Lemma equalGauges_Panic : panics_only_on_unknown_kind (T:=Gauge.t N) equalGauges.
Proof.
  intros a b cfg msg. unfold equalGauges.
  panic_of_children (fun a b => equalDataPoints_Panic a b cfg).
Qed.

Lemma equalSums_Panic : panics_only_on_unknown_kind (T:=Sum.t N) equalSums.
Proof.
  intros a b cfg msg. unfold equalSums.
  panic_of_children (fun a b => equalDataPoints_Panic a b cfg).
Qed.

Lemma equalHistograms_Panic :
  panics_only_on_unknown_kind (T:=Histogram.t N) equalHistograms.
Proof.
  intros a b cfg msg. unfold equalHistograms.
  panic_of_children (fun a b => equalHistogramDataPoints_Panic a b cfg).
Qed.

Lemma equalExponentialHistograms_Panic :
  panics_only_on_unknown_kind (T:=ExponentialHistogram.t N) equalExponentialHistograms.
Proof.
  intros a b cfg msg. unfold equalExponentialHistograms.
  panic_of_children (fun a b => equalExponentialHistogramDataPoints_Panic a b cfg).
Qed.

Lemma leaves_panic_only_on_unknown_kind_holds : leaves_panic_only_on_unknown_kind N.
Proof.
  split; [intros a b cfg msg; apply equalExemplars_Panic|].
  split; [apply equalDataPoints_Panic|].
  split; [apply equalHistogramDataPoints_Panic|].
  split; [apply equalExponentialHistogramDataPoints_Panic|].
  split; [apply equalGauges_Panic|].
  split; [apply equalSums_Panic|].
  split; [apply equalHistograms_Panic|apply equalExponentialHistograms_Panic].
Qed.

End Numbers.

(** The type assertions of [equalAggregations] never fail: the dynamic
    types were compared first. *)
Lemma equalAggregations_Panic : panics_only_on_unknown_kind equalAggregations.
Proof.
  intros a b cfg msg.
  destruct a as [[v|v|v|v|v|v|v|v|n]|], b as [[w|w|w|w|w|w|w|w|m]|];
    cbn [equalAggregations TypeOf reflectType_eqb negb]; try discriminate.
  - destruct (equalGauges v w cfg) as [r|m] eqn:Hc; run_outcome; [discriminate|].
    intros [= <-]. by apply equalGauges_Panic in Hc.
  - destruct (equalGauges v w cfg) as [r|m] eqn:Hc; run_outcome; [discriminate|].
    intros [= <-]. by apply equalGauges_Panic in Hc.
  - destruct (equalSums v w cfg) as [r|m] eqn:Hc; run_outcome; [discriminate|].
    intros [= <-]. by apply equalSums_Panic in Hc.
  - destruct (equalSums v w cfg) as [r|m] eqn:Hc; run_outcome; [discriminate|].
    intros [= <-]. by apply equalSums_Panic in Hc.
  - destruct (equalHistograms v w cfg) as [r|m] eqn:Hc; run_outcome; [discriminate|].
    intros [= <-]. by apply equalHistograms_Panic in Hc.
  - destruct (equalHistograms v w cfg) as [r|m] eqn:Hc; run_outcome; [discriminate|].
    intros [= <-]. by apply equalHistograms_Panic in Hc.
  - destruct (equalExponentialHistograms v w cfg) as [r|m] eqn:Hc; run_outcome;
      [discriminate|].
    intros [= <-]. by apply equalExponentialHistograms_Panic in Hc.
  - destruct (equalExponentialHistograms v w cfg) as [r|m] eqn:Hc; run_outcome;
      [discriminate|].
    intros [= <-]. by apply equalExponentialHistograms_Panic in Hc.
  - destruct (n =? m)%string; cbn [negb]; discriminate.
Qed.

Lemma equalMetrics_Panic : panics_only_on_unknown_kind equalMetrics.
Proof.
  intros a b cfg msg. unfold equalMetrics.
  destruct (equalAggregations _ _ _) as [r|m] eqn:Hc; run_outcome; [discriminate|].
  intros [= <-]. by apply equalAggregations_Panic in Hc.
Qed.

Lemma equalScopeMetrics_Panic : panics_only_on_unknown_kind equalScopeMetrics.
Proof.
  intros a b cfg msg. unfold equalScopeMetrics.
  panic_of_children (fun a b => equalMetrics_Panic a b cfg).
Qed.

Lemma equalResourceMetrics_Panic : panics_only_on_unknown_kind equalResourceMetrics.
Proof.
  intros a b cfg msg. unfold equalResourceMetrics.
  panic_of_children (fun a b => equalScopeMetrics_Panic a b cfg).
Qed.

Lemma always_returns_from_panics {T} (equal : T -> T -> config -> outcome (list string))
    (cfg : config) :
  panics_only_on_unknown_kind equal -> ignoreExemplars cfg = true ->
  always_returns (fun a b => equal a b cfg).
Proof.
  intros Hp Hign a b. destruct (equal a b cfg) as [r|msg] eqn:Heq; [by exists r|].
  apply Hp in Heq as [_ Hf]. congruence.
Qed.

End PanicFacts.

(** X5. No comparator fails on an index out of range or on a type
    assertion: when a comparison panics, at any level, the message is that
    of [equalKeyValue]'s "unknown attribute value type", the policy
    compares exemplars, and at the exemplar where it happens the filtered
    attributes of both sides hold a value of a kind outside the eight. *)
Theorem panic_only_for_unknown_attribute_kind {E : External} :
  (forall a b msg, equalKeyValue a b = Panic msg ->
     msg = unknown_kind_message /\ knownKinds a = false /\ knownKinds b = false)
  /\ leaves_panic_only_on_unknown_kind int64
  /\ leaves_panic_only_on_unknown_kind float64
  /\ panics_only_on_unknown_kind equalAggregations
  /\ panics_only_on_unknown_kind equalMetrics
  /\ panics_only_on_unknown_kind equalScopeMetrics
  /\ panics_only_on_unknown_kind equalResourceMetrics.
Proof.
  split; [apply equalKeyValue_Panic|].
  split; [apply leaves_panic_only_on_unknown_kind_holds|].
  split; [apply leaves_panic_only_on_unknown_kind_holds|].
  split; [apply equalAggregations_Panic|].
  split; [apply equalMetrics_Panic|].
  split; [apply equalScopeMetrics_Panic|apply equalResourceMetrics_Panic].
Qed.

(** X6. Under a policy that ignores exemplars every comparison returns,
    for all trees: the filtered attributes, the only place where a
    comparison can panic, are never looked at. *)
Theorem ignoreExemplars_never_panics {E : External} (cfg : config) :
  ignoreExemplars cfg = true ->
  leaves_always_return int64 cfg
  /\ leaves_always_return float64 cfg
  /\ always_returns (fun a b => equalAggregations a b cfg)
  /\ always_returns (fun a b => equalMetrics a b cfg)
  /\ always_returns (fun a b => equalScopeMetrics a b cfg)
  /\ always_returns (fun a b => equalResourceMetrics a b cfg).
Proof.
  intros Hign.
  assert (Hleaves : forall N `{Number N}, leaves_always_return N cfg).
  { intros N HN. repeat split; apply always_returns_from_panics; try done.
    - apply equalDataPoints_Panic.
    - apply equalHistogramDataPoints_Panic.
    - apply equalExponentialHistogramDataPoints_Panic.
    - apply equalGauges_Panic.
    - apply equalSums_Panic.
    - apply equalHistograms_Panic.
    - apply equalExponentialHistograms_Panic. }
  split; [apply Hleaves|]. split; [apply Hleaves|].
  repeat split; apply always_returns_from_panics; try done.
  - apply equalAggregations_Panic.
  - apply equalMetrics_Panic.
  - apply equalScopeMetrics_Panic.
  - apply equalResourceMetrics_Panic.
Qed.

(** ** Returning, transitivity and the number of children *)

(** The tree whose exemplar holds the zero [Value], compared with itself:
    a panic under the default policy. *)
Lemma panic_only_for_unknown_attribute_kind_witness :
  equalResourceMetrics MoreExamples.invalidTree MoreExamples.invalidTree
    Examples.compareAll = Panic (unknown_kind_message (E:=Reference.external))
  /\ ignoreExemplars Examples.compareAll = false.
Proof.
  destruct (panic_only_for_unknown_attribute_kind (E:=Reference.external))
    as (_ & _ & _ & _ & _ & _ & Hrm).
  destruct (equalResourceMetrics MoreExamples.invalidTree MoreExamples.invalidTree
              Examples.compareAll) as [r|msg] eqn:Heq; [discriminate Heq|].
  destruct (Hrm _ _ _ _ Heq) as [-> Hign]. split; [reflexivity | exact Hign].
Defined.

(** The same comparison returns when exemplars are ignored. *)
Lemma ignoreExemplars_never_panics_witness :
  exists r, equalResourceMetrics MoreExamples.invalidTree MoreExamples.invalidTree
              MoreExamples.ignoreExemplarsOnly = Ok r.
Proof.
  destruct (ignoreExemplars_never_panics (E:=Reference.external)
              MoreExamples.ignoreExemplarsOnly eq_refl) as (_ & _ & _ & _ & _ & Hrm).
  apply Hrm.
Defined.

Lemma returns_from_same {T} (equal : T -> T -> outcome (list string))
    (known : T -> bool) (same : T -> T -> Prop) :
  (forall a b, known a = true -> exists r, equal a b = Ok r /\ (r = [] <-> same a b)) ->
  returns_on equal known.
Proof. intros Hchar a b Ha. destruct (Hchar a b Ha) as (r & Hr & _). by exists r. Qed.

Lemma leaves_return_on_known_laws `{External} N `{NumberLaws N} cfg :
  leaves_return_on_known N cfg.
Proof.
  split.
  { intros a b Hk. destruct (equalExemplars_known a b cfg Hk) as (r & Hr & _).
    by exists r. }
  split; [apply (returns_from_same _ _ (sameDataPoint cfg)); apply equalDataPoints_known|].
  split.
  { apply (returns_from_same _ _ (sameHistogramDataPoint cfg)).
    apply equalHistogramDataPoints_known. }
  split.
  { apply (returns_from_same _ _ (sameExponentialHistogramDataPoint cfg)).
    apply equalExponentialHistogramDataPoints_known. }
  split; [apply (returns_from_same _ _ (sameGauge cfg)); apply equalGauges_known|].
  split; [apply (returns_from_same _ _ (sameSum cfg)); apply equalSums_known|].
  split; [apply (returns_from_same _ _ (sameHistogram cfg)); apply equalHistograms_known|].
  apply (returns_from_same _ _ (sameExponentialHistogram cfg)).
  apply equalExponentialHistograms_known.
Qed.

(** X7. A comparison returns, at every level and under every policy,
    whenever every filtered attribute of the expected tree has one of the
    eight kinds, whatever the actual tree holds (for two exemplars: when
    those of either one do). *)
Theorem comparison_returns_on_known {E : External} (cfg : config) :
  leaves_return_on_known int64 cfg
  /\ leaves_return_on_known float64 cfg
  /\ returns_on (fun a b => equalAggregations a b cfg) Aggregation_known
  /\ returns_on (fun a b => equalMetrics a b cfg) Metrics_known
  /\ returns_on (fun a b => equalScopeMetrics a b cfg) ScopeMetrics_known
  /\ returns_on (fun a b => equalResourceMetrics a b cfg) ResourceMetrics_known.
Proof.
  split; [apply leaves_return_on_known_laws; apply _|].
  split; [apply leaves_return_on_known_laws; apply _|].
  split; [apply (returns_from_same _ _ (sameAggregation cfg));
          apply equalAggregations_known|].
  split; [apply (returns_from_same _ _ (sameMetrics cfg)); apply equalMetrics_known|].
  split; [apply (returns_from_same _ _ (sameScopeMetrics cfg));
          apply equalScopeMetrics_known|].
  apply (returns_from_same _ _ (sameResourceMetrics cfg)).
  apply equalResourceMetrics_known.
Qed.

(** The scenario's tree against the tree with the zero [Value]. *)
Lemma comparison_returns_on_known_witness :
  exists r, equalResourceMetrics (Examples.resourceMetrics 5) MoreExamples.invalidTree
              Examples.compareAll = Ok r.
Proof.
  destruct (comparison_returns_on_known (E:=Reference.external) Examples.compareAll)
    as (_ & _ & _ & _ & _ & Hrm).
  apply Hrm. reflexivity.
Defined.

Lemma transitive_from_same {T} (equal : T -> T -> outcome (list string))
    (known : T -> bool) (same : T -> T -> Prop) :
  (forall a b, known a = true -> exists r, equal a b = Ok r /\ (r = [] <-> same a b)) ->
  (forall a b c, known a = true -> known b = true -> known c = true ->
                 same a b -> same b c -> same a c) ->
  transitive_on equal known.
Proof.
  intros Hchar Htrans a b c Ha Hb Hc Hab Hbc.
  destruct (Hchar a b Ha) as (r1 & Hr1 & Hiff1). rewrite Hab in Hr1.
  injection Hr1 as <-.
  destruct (Hchar b c Hb) as (r2 & Hr2 & Hiff2). rewrite Hbc in Hr2.
  injection Hr2 as <-.
  destruct (Hchar a c Ha) as (r & -> & Hiff). f_equal. apply Hiff.
  apply (Htrans a b c); [done..| by apply Hiff1 | by apply Hiff2].
Qed.

Lemma leaves_transitive_laws `{External} `{!ExternalPER _} N `{NumberLaws N} cfg :
  leaves_transitive N cfg.
Proof.
  repeat split.
  - apply (transitive_from_same _ _ (sameExemplar cfg)).
    + intros a b Ha. apply equalExemplars_known. by left.
    + intros a b c _ _ _. by apply sameExemplar_trans.
  - apply (transitive_from_same _ _ (sameDataPoint cfg)).
    + by apply equalDataPoints_known.
    + by apply sameDataPoint_trans.
  - apply (transitive_from_same _ _ (sameHistogramDataPoint cfg)).
    + by apply equalHistogramDataPoints_known.
    + by apply sameHistogramDataPoint_trans.
  - apply (transitive_from_same _ _ (sameExponentialHistogramDataPoint cfg)).
    + by apply equalExponentialHistogramDataPoints_known.
    + by apply sameExponentialHistogramDataPoint_trans.
Qed.

(** X8. Comparing equal is transitive: at every level and under every
    policy, when comparing [a] with [b] and [b] with [c] both yield the
    empty list, so does comparing [a] with [c]. The trees are those whose
    filtered attributes all have one of the eight kinds, and the external
    equality of attribute sets and of resources is taken symmetric and
    transitive. *)
Theorem comparison_transitive {E : External} {HE : ExternalPER E} (cfg : config) :
  leaves_transitive int64 cfg
  /\ leaves_transitive float64 cfg
  /\ transitive_on (fun a b => equalAggregations a b cfg) Aggregation_known
  /\ transitive_on (fun a b => equalMetrics a b cfg) Metrics_known
  /\ transitive_on (fun a b => equalScopeMetrics a b cfg) ScopeMetrics_known
  /\ transitive_on (fun a b => equalResourceMetrics a b cfg) ResourceMetrics_known.
Proof.
  split; [apply leaves_transitive_laws; apply _|].
  split; [apply leaves_transitive_laws; apply _|].
  repeat split.
  - apply (transitive_from_same _ _ (sameAggregation cfg)).
    + by apply equalAggregations_known.
    + by apply sameAggregation_trans.
  - apply (transitive_from_same _ _ (sameMetrics cfg)).
    + by apply equalMetrics_known.
    + by apply sameMetrics_trans.
  - apply (transitive_from_same _ _ (sameScopeMetrics cfg)).
    + by apply equalScopeMetrics_known.
    + by apply sameScopeMetrics_trans.
  - apply (transitive_from_same _ _ (sameResourceMetrics cfg)).
    + by apply equalResourceMetrics_known.
    + by apply sameResourceMetrics_trans.
Qed.

(** Three trees that differ in their timestamps only, under the policy
    that ignores timestamps. *)
Lemma comparison_transitive_witness :
  equalDataPoints (Examples.dataPoint 5)
    (DataPoint_withTimes (Examples.dataPoint 5) 7%Z 9%Z) Examples.ignoreTimestamps = Ok [].
Proof.
  destruct (comparison_transitive (E:=Reference.external) (HE:=Reference_external_PER)
              Examples.ignoreTimestamps) as ((_ & Hdp & _) & _).
  apply (Hdp (Examples.dataPoint 5) (DataPoint_withTimes (Examples.dataPoint 5) 3%Z 4%Z));
    reflexivity.
Defined.

(** ** The number of children *)

Lemma diffSlices_counts {T} (equal : T -> T -> outcome bool) (A B extraA extraB : list T) :
  diffSlices A B equal = Ok (extraA, extraB) -> length A <> length B ->
  ~ (extraA = [] /\ extraB = []).
Proof.
  rewrite diffSlices_greedyM. intros Hg Hlen [-> ->].
  apply greedyM_matching_invariant in Hg as (_ & _ & _ & Hne & _).
  destruct (Hne Hlen); congruence.
Qed.

(** The comparator returned the empty list although the numbers of
    children differ. *)
Ltac counted :=
  match goal with
  | |- context [diffSlices ?a ?b ?f] =>
      let Hd := fresh "Hd" in
      destruct (diffSlices a b f) as [[? ?]|?] eqn:Hd; run_outcome; [|discriminate];
      match goal with
      | Hlen : length _ <> length _ |- _ =>
          pose proof (diffSlices_counts _ _ _ _ _ Hd Hlen)
      end;
      intros [= Heq]; revert Heq; same_fields
  end.

Section CountFacts.
Context `{External} (N : Type) `{Number N} (cfg : config).

Lemma data_points_counted_holds : data_points_counted N cfg.
Proof.
  repeat split; intros a b Hlen.
  - unfold equalGauges. counted.
  - unfold equalSums. counted.
  - unfold equalHistograms. counted.
  - unfold equalExponentialHistograms. counted.
Qed.

Lemma exemplars_counted_holds : ignoreExemplars cfg = false -> exemplars_counted N cfg.
Proof.
  intros Hign. repeat split; intros a b Hlen.
  - unfold equalDataPoints. rewrite Hign.
    destruct (ignoreTimestamp cfg), (ignoreValue cfg); cbn [negb]; counted.
  - unfold equalHistogramDataPoints. rewrite Hign.
    destruct (ignoreTimestamp cfg), (ignoreValue cfg); cbn [negb]; counted.
  - unfold equalExponentialHistogramDataPoints. rewrite Hign.
    destruct (ignoreTimestamp cfg), (ignoreValue cfg); cbn [negb]; counted.
Qed.

End CountFacts.

(** X9. Children are compared as multisets, not as sets: at every level
    that holds a collection, two values with different numbers of children
    never compare equal, whatever the children are. For the exemplars of
    a data point this holds under a policy that compares exemplars. *)
Theorem children_are_counted {E : External} (cfg : config) :
  counts_children (fun a b => equalResourceMetrics a b cfg) ResourceMetrics.ScopeMetrics
  /\ counts_children (fun a b => equalScopeMetrics a b cfg) ScopeMetrics.Metrics
  /\ data_points_counted int64 cfg
  /\ data_points_counted float64 cfg
  /\ (ignoreExemplars cfg = false ->
      exemplars_counted int64 cfg /\ exemplars_counted float64 cfg).
Proof.
  split; [intros a b Hlen; unfold equalResourceMetrics; counted|].
  split; [intros a b Hlen; unfold equalScopeMetrics; counted|].
  split; [apply data_points_counted_holds|].
  split; [apply data_points_counted_holds|].
  intros Hign. split; by apply exemplars_counted_holds.
Qed.

(** A gauge holding the scenario's data point twice against one holding it
    once. *)
Lemma children_are_counted_witness :
  equalGauges {| Gauge.DataPoints := [Examples.dataPoint 5; Examples.dataPoint 5] |}
    {| Gauge.DataPoints := [Examples.dataPoint 5] |} Examples.compareAll <> Ok [].
Proof.
  destruct (children_are_counted (E:=Reference.external) Examples.compareAll)
    as (_ & _ & (Hg & _) & _).
  apply (Hg {| Gauge.DataPoints := [Examples.dataPoint 5; Examples.dataPoint 5] |}).
  simpl. lia.
Defined.

(** ** Attribute containment *)

Section MoreContainmentFacts.
Context {E : External}.

Lemma contains_app (lookup : Key -> option Value) (attrs1 attrs2 : list KeyValue) :
  contains lookup (attrs1 ++ attrs2) <-> contains lookup attrs1 /\ contains lookup attrs2.
Proof.
  unfold contains. split.
  - intros Hall. split; intros attr Hin; apply Hall; rewrite elem_of_app; tauto.
  - intros [H1 H2] attr Hin. apply elem_of_app in Hin as [Hin|Hin]; auto.
Qed.

Lemma Forall_split {A} (P Q R : A -> Prop) (l : list A) :
  (forall x, P x <-> Q x /\ R x) -> Forall P l <-> Forall Q l /\ Forall R l.
Proof.
  intros Hsplit. rewrite <- Forall_and. apply Forall_iff. exact Hsplit.
Qed.

Lemma Aggregation_contains_app (agg : option Aggregation) (attrs1 attrs2 : list KeyValue) :
  Aggregation_contains agg (attrs1 ++ attrs2)
  <-> Aggregation_contains agg attrs1 /\ Aggregation_contains agg attrs2.
Proof.
  destruct agg as [[v|v|v|v|v|v|v|v|name]|]; simpl; try tauto.
  all: apply Forall_split; intros dp; apply contains_app.
Qed.

Lemma hasAttributesAggregation_splits : splits_over_append hasAttributesAggregation.
Proof.
  intros agg attrs1 attrs2. rewrite !hasAttributesAggregation_nil.
  apply Aggregation_contains_app.
Qed.

Lemma hasAttributesMetrics_splits : splits_over_append hasAttributesMetrics.
Proof.
  intros m attrs1 attrs2. unfold hasAttributesMetrics. rewrite !appendUnder_nil.
  rewrite (hasAttributesAggregation_splits (Metrics.Data m)). tauto.
Qed.

Lemma hasAttributesScopeMetrics_splits : splits_over_append hasAttributesScopeMetrics.
Proof.
  intros sm attrs1 attrs2. unfold hasAttributesScopeMetrics.
  rewrite (range_fold_appendUnder_nil (fun m => hasAttributesMetrics m (attrs1 ++ attrs2))).
  rewrite (range_fold_appendUnder_nil (fun m => hasAttributesMetrics m attrs1)).
  rewrite (range_fold_appendUnder_nil (fun m => hasAttributesMetrics m attrs2)).
  rewrite (Forall_split _ _ _ _ (fun m => hasAttributesMetrics_splits m attrs1 attrs2)).
  tauto.
Qed.

Lemma hasAttributesResourceMetrics_splits :
  splits_over_append hasAttributesResourceMetrics.
Proof.
  intros rm attrs1 attrs2. unfold hasAttributesResourceMetrics.
  rewrite (range_fold_appendUnder_nil
             (fun sm => hasAttributesScopeMetrics sm (attrs1 ++ attrs2))).
  rewrite (range_fold_appendUnder_nil (fun sm => hasAttributesScopeMetrics sm attrs1)).
  rewrite (range_fold_appendUnder_nil (fun sm => hasAttributesScopeMetrics sm attrs2)).
  rewrite (Forall_split _ _ _ _
             (fun sm => hasAttributesScopeMetrics_splits sm attrs1 attrs2)).
  tauto.
Qed.

Lemma appendUnder_app (r reasons : list string) (head : string) :
  appendUnder r reasons head = reasons ++ appendUnder r [] head.
Proof.
  unfold appendUnder. destruct (0 <? length r); [|by rewrite app_nil_r].
  by rewrite <- !app_assoc.
Qed.

(** The loop [for n, x := range l] that appends a headed block for each
    element, as a concatenation. *)
Lemma range_fold_appendUnder {A} (f : A -> list string) (head : nat -> string)
    (l : list A) : forall n reasons,
  range_fold (fun reasons n x => appendUnder (f x) reasons (head n)) l n reasons
  = reasons ++ mjoin (imap (fun i x => appendUnder (f x) [] (head (n + i))) l).
Proof.
  induction l as [|x l IH]; intros n reasons; cbn [range_fold].
  - by rewrite app_nil_r.
  - rewrite IH, imap_cons, (appendUnder_app _ reasons). cbn [mjoin list_join].
    rewrite Nat.add_0_r, <- app_assoc. do 2 f_equal. f_equal.
    apply imap_ext. intros i y _. cbn. by rewrite Nat.add_succ_r.
Qed.

End MoreContainmentFacts.

(** X10. The containment check composes over the attributes asked for:
    the reasons of a data point (or exemplar) for the concatenation of two
    lists are the reasons for the first followed by those for the second,
    and the check of an aggregation, a metric, a scope or a whole tree
    passes for the concatenation exactly when it passes for each list. *)
Theorem hasAttributes_splits_over_attributes {E : External} :
  (forall T (dp : DataPoint.t T) attrs1 attrs2,
      hasAttributesDataPoints dp (attrs1 ++ attrs2)
      = hasAttributesDataPoints dp attrs1 ++ hasAttributesDataPoints dp attrs2)
  /\ (forall T (dp : HistogramDataPoint.t T) attrs1 attrs2,
         hasAttributesHistogramDataPoints dp (attrs1 ++ attrs2)
         = hasAttributesHistogramDataPoints dp attrs1
           ++ hasAttributesHistogramDataPoints dp attrs2)
  /\ (forall T (dp : ExponentialHistogramDataPoint.t T) attrs1 attrs2,
         hasAttributesExponentialHistogramDataPoints dp (attrs1 ++ attrs2)
         = hasAttributesExponentialHistogramDataPoints dp attrs1
           ++ hasAttributesExponentialHistogramDataPoints dp attrs2)
  /\ (forall T (exemplar : Exemplar.t T) attrs1 attrs2,
         hasAttributesExemplars exemplar (attrs1 ++ attrs2)
         = hasAttributesExemplars exemplar attrs1 ++ hasAttributesExemplars exemplar attrs2)
  /\ splits_over_append hasAttributesAggregation
  /\ splits_over_append hasAttributesMetrics
  /\ splits_over_append hasAttributesScopeMetrics
  /\ splits_over_append hasAttributesResourceMetrics.
Proof.
  split; [|split; [|split; [|split; [|split; [|split; [|split]]]]]].
  - intros T dp attrs1 attrs2. unfold hasAttributesDataPoints.
    rewrite !hasAttributes_fold. cbn [app]. apply flat_map_app.
  - intros T dp attrs1 attrs2. unfold hasAttributesHistogramDataPoints.
    rewrite !hasAttributes_fold. cbn [app]. apply flat_map_app.
  - intros T dp attrs1 attrs2. unfold hasAttributesExponentialHistogramDataPoints.
    rewrite !hasAttributes_fold. cbn [app]. apply flat_map_app.
  - intros T ex attrs1 attrs2. unfold hasAttributesExemplars.
    rewrite !hasAttributes_fold. cbn [app]. apply flat_map_app.
  - apply hasAttributesAggregation_splits.
  - apply hasAttributesMetrics_splits.
  - apply hasAttributesScopeMetrics_splits.
  - apply hasAttributesResourceMetrics_splits.
Qed.

(** The whole scenario tree has the attribute [method = GET] and has the
    empty list of attributes, so it has their concatenation. *)
Lemma hasAttributes_splits_over_attributes_witness :
  hasAttributesResourceMetrics (E:=Reference.external) (Examples.resourceMetrics 5)
    ([Examples.method_GET] ++ []) = [].
Proof.
  destruct (hasAttributes_splits_over_attributes (E:=Reference.external))
    as (_ & _ & _ & _ & _ & _ & _ & Hrm).
  apply Hrm. split; reflexivity.
Defined.

(** X11. The reasons of a containment check over a collection are the
    blocks of its elements in order, each non-empty block under a header
    that carries the index of the element: the data points of the four
    kinds of aggregation, the metrics of a scope, the scopes of a
    resource. *)
Theorem hasAttributes_reasons_by_index {E : External} (attrs : list KeyValue) :
  (forall T (gauge : Gauge.t T),
      hasAttributesGauge gauge attrs
      = mjoin (imap (fun n dp =>
                       appendUnder (hasAttributesDataPoints dp attrs) []
                         ("gauge datapoint " +:+ fmt_d n +:+ " attributes:" +:+ nl))
                 (Gauge.DataPoints gauge)))
  /\ (forall T (sum : Sum.t T),
         hasAttributesSum sum attrs
         = mjoin (imap (fun n dp =>
                          appendUnder (hasAttributesDataPoints dp attrs) []
                            ("sum datapoint " +:+ fmt_d n +:+ " attributes:" +:+ nl))
                    (Sum.DataPoints sum)))
  /\ (forall T (histogram : Histogram.t T),
         hasAttributesHistogram histogram attrs
         = mjoin (imap (fun n dp =>
                          appendUnder (hasAttributesHistogramDataPoints dp attrs) []
                            ("histogram datapoint " +:+ fmt_d n +:+ " attributes:"
                               +:+ nl))
                    (Histogram.DataPoints histogram)))
  /\ (forall T (histogram : ExponentialHistogram.t T),
         hasAttributesExponentialHistogram histogram attrs
         = mjoin (imap (fun n dp =>
                          appendUnder
                            (hasAttributesExponentialHistogramDataPoints dp attrs) []
                            ("histogram datapoint " +:+ fmt_d n +:+ " attributes:"
                               +:+ nl))
                    (ExponentialHistogram.DataPoints histogram)))
  /\ (forall sm : ScopeMetrics.t,
         hasAttributesScopeMetrics sm attrs
         = mjoin (imap (fun n metrics =>
                          appendUnder (hasAttributesMetrics metrics attrs) []
                            ("ScopeMetrics " +:+ Scope.Name (ScopeMetrics.Scope sm)
                               +:+ " Metrics " +:+ fmt_d n +:+ ":" +:+ nl))
                    (ScopeMetrics.Metrics sm)))
  /\ (forall rm : ResourceMetrics.t,
         hasAttributesResourceMetrics rm attrs
         = mjoin (imap (fun n sm =>
                          appendUnder (hasAttributesScopeMetrics sm attrs) []
                            ("ResourceMetrics ScopeMetrics " +:+ fmt_d n +:+ ":" +:+ nl))
                    (ResourceMetrics.ScopeMetrics rm))).
Proof.
  split; [|split; [|split; [|split; [|split]]]].
  - intros T gauge. unfold hasAttributesGauge.
    by rewrite (range_fold_appendUnder (fun dp => hasAttributesDataPoints dp attrs)).
  - intros T sum. unfold hasAttributesSum.
    by rewrite (range_fold_appendUnder (fun dp => hasAttributesDataPoints dp attrs)).
  - intros T histogram. unfold hasAttributesHistogram.
    by rewrite (range_fold_appendUnder
                  (fun dp => hasAttributesHistogramDataPoints dp attrs)).
  - intros T histogram. unfold hasAttributesExponentialHistogram.
    by rewrite (range_fold_appendUnder
                  (fun dp => hasAttributesExponentialHistogramDataPoints dp attrs)).
  - intros sm. unfold hasAttributesScopeMetrics.
    by rewrite (range_fold_appendUnder (fun m => hasAttributesMetrics m attrs)).
  - intros rm. unfold hasAttributesResourceMetrics.
    by rewrite (range_fold_appendUnder (fun sm => hasAttributesScopeMetrics sm attrs)).
Qed.

Section ContainmentEdges.
Context {E : External}.

Lemma contains_nil (lookup : Key -> option Value) : contains lookup [].
Proof. intros attr Hin. by apply elem_of_nil in Hin. Qed.

Lemma Aggregation_contains_nil (agg : option Aggregation) :
  Aggregation_contains agg [] <-> Aggregation_recognised agg = true.
Proof.
  destruct agg as [[v|v|v|v|v|v|v|v|name]|]; simpl.
  all: split; [done|]; intros Hrec; try discriminate Hrec.
  all: apply Forall_forall; intros dp _; apply contains_nil.
Qed.

Lemma Aggregation_contains_recognised (agg : option Aggregation) (attrs : list KeyValue) :
  Aggregation_contains agg attrs -> Aggregation_recognised agg = true.
Proof. by destruct agg as [[v|v|v|v|v|v|v|v|name]|]. Qed.

End ContainmentEdges.

(** X12. Edge cases of the containment check. With no attribute asked
    for, the check of a tree passes exactly when every metric holds an
    aggregation of one of the eight types; a metric whose aggregation is
    nil or of another type fails the check whatever is asked for; and a
    tree with no scope, a scope with no metric and an aggregation with no
    data point pass whatever is asked for. *)
Theorem hasAttributes_edge_cases {E : External} :
  (forall rm : ResourceMetrics.t,
      hasAttributesResourceMetrics rm [] = [] <->
      Forall
        (fun sm =>
           Forall (fun m => Aggregation_recognised (Metrics.Data m) = true)
             (ScopeMetrics.Metrics sm))
        (ResourceMetrics.ScopeMetrics rm))
  /\ (forall (m : Metrics.t) attrs,
         Aggregation_recognised (Metrics.Data m) = false ->
         hasAttributesMetrics m attrs <> [])
  /\ (forall (rm : ResourceMetrics.t) attrs,
         ResourceMetrics.ScopeMetrics rm = [] -> hasAttributesResourceMetrics rm attrs = [])
  /\ (forall (sm : ScopeMetrics.t) attrs,
         ScopeMetrics.Metrics sm = [] -> hasAttributesScopeMetrics sm attrs = [])
  /\ (forall T (gauge : Gauge.t T) attrs,
         Gauge.DataPoints gauge = [] -> hasAttributesGauge gauge attrs = [])
  /\ (forall T (sum : Sum.t T) attrs,
         Sum.DataPoints sum = [] -> hasAttributesSum sum attrs = [])
  /\ (forall T (histogram : Histogram.t T) attrs,
         Histogram.DataPoints histogram = [] ->
         hasAttributesHistogram histogram attrs = [])
  /\ (forall T (histogram : ExponentialHistogram.t T) attrs,
         ExponentialHistogram.DataPoints histogram = [] ->
         hasAttributesExponentialHistogram histogram attrs = []).
Proof.
  split; [|split; [|split; [|split; [|split; [|split; [|split]]]]]].
  - intros rm. unfold hasAttributesResourceMetrics.
    rewrite (range_fold_appendUnder_nil (fun sm => hasAttributesScopeMetrics sm [])).
    split; [intros [_ HF]|intros HF; split; [done|]].
    all: eapply Forall_impl; [exact HF|].
    all: intros sm; cbn beta; unfold hasAttributesScopeMetrics.
    all: rewrite (range_fold_appendUnder_nil (fun m => hasAttributesMetrics m [])).
    all: [> intros [_ HF'] | intros HF'; split; [done|] ].
    all: eapply Forall_impl; [exact HF'|].
    all: intros m; cbn beta; unfold hasAttributesMetrics.
    all: rewrite appendUnder_nil, hasAttributesAggregation_nil, Aggregation_contains_nil.
    all: tauto.
  - intros m attrs Hrec. unfold hasAttributesMetrics.
    rewrite appendUnder_nil, hasAttributesAggregation_nil. intros [Hc _].
    apply Aggregation_contains_recognised in Hc. congruence.
  - intros rm attrs Hnil. unfold hasAttributesResourceMetrics. by rewrite Hnil.
  - intros sm attrs Hnil. unfold hasAttributesScopeMetrics. by rewrite Hnil.
  - intros T gauge attrs Hnil. unfold hasAttributesGauge. by rewrite Hnil.
  - intros T sum attrs Hnil. unfold hasAttributesSum. by rewrite Hnil.
  - intros T histogram attrs Hnil. unfold hasAttributesHistogram. by rewrite Hnil.
  - intros T histogram attrs Hnil. unfold hasAttributesExponentialHistogram.
    by rewrite Hnil.
Qed.

(** A metric without data fails the check for the empty list of
    attributes. *)
Lemma hasAttributes_edge_cases_witness :
  hasAttributesMetrics (E:=Reference.external)
    {| Metrics.Name := "requests"; Metrics.Description := ""; Metrics.Unit := "";
       Metrics.Data := None |} [] <> [].
Proof.
  destruct (hasAttributes_edge_cases (E:=Reference.external)) as (_ & Hmetric & _).
  apply Hmetric. reflexivity.
Defined.

(** ** Exemplars and data points, field by field *)

Lemma equalSlices_bytes (a b : list byte) : equalSlices a b = true <-> a = b.
Proof.
  rewrite equalSlices_Forall2, list_eq_Forall2.
  split; intros HF; (eapply Forall2_impl; [exact HF|]); intros x y; apply Byte_eqb_eq.
Qed.

Lemma Time_Equal_eq (t u : Time) : Time_Equal t u = true <-> t = u.
Proof. apply Z.eqb_eq. Qed.

(** X13. Two exemplars, the filtered attributes of one of which all have
    one of the eight kinds, compare equal exactly when their filtered
    attributes agree position by position in key, kind and value, their
    times are the same unless timestamps are ignored, their values are
    [==] unless values are ignored, and their span and trace identifiers
    are the same bytes. The identifiers and the filtered attributes are
    compared under every policy, and the flag [ignoreExemplars] plays no
    part in the comparison of two exemplars. *)
Theorem equalExemplars_field_by_field {E : External} {N} `{Number N}
    (a b : Exemplar.t N) (cfg : config) :
  Exemplar_known a = true \/ Exemplar_known b = true ->
  (equalExemplars a b cfg = Ok [] <->
   Forall2 KeyValue_equal (Exemplar.FilteredAttributes a) (Exemplar.FilteredAttributes b)
   /\ (ignoreTimestamp cfg = false -> Exemplar.Time a = Exemplar.Time b)
   /\ (ignoreValue cfg = false -> go_eqb (Exemplar.Value a) (Exemplar.Value b) = true)
   /\ Exemplar.SpanID a = Exemplar.SpanID b
   /\ Exemplar.TraceID a = Exemplar.TraceID b)
  /\ (forall flag,
        equalExemplars a b
          {| ignoreTimestamp := ignoreTimestamp cfg; ignoreExemplars := flag;
             ignoreValue := ignoreValue cfg |}
        = equalExemplars a b cfg).
Proof.
  intros Hknown. split; [|done].
  destruct (equalExemplars_known a b cfg Hknown) as (r & -> & Hr).
  unfold sameExemplar in Hr. rewrite !equalSlices_bytes, Time_Equal_eq in Hr.
  split.
  - intros [= ->]. by apply Hr.
  - intros Hsame. f_equal. by apply Hr.
Qed.

(** Two exemplars that differ in their trace identifier only, under a
    policy that ignores everything that can be ignored. *)
Lemma equalExemplars_field_by_field_witness :
  equalExemplars (E:=Reference.external) Examples.exemplar
    {| Exemplar.FilteredAttributes := []; Exemplar.Time := 0%Z; Exemplar.Value := 5%Z;
       Exemplar.SpanID := []; Exemplar.TraceID := ["a"%byte] |}
    {| ignoreTimestamp := true; ignoreExemplars := true; ignoreValue := true |}
  <> Ok [].
Proof.
  intros Heq.
  apply (equalExemplars_field_by_field (E:=Reference.external)) in Heq;
    [|left; reflexivity].
  destruct Heq as (_ & _ & _ & _ & Htrace). discriminate Htrace.
Defined.

Section DeclarativeExemplars.
Context `{External} {N : Type} `{NumberLaws N} (cfg : config).

(** The greedy matching of two lists of exemplars is perfect exactly when
    one list is a rearrangement of the other up to the equality of
    exemplars. *)
Lemma matched_exemplars (l k : list (Exemplar.t N)) :
  forallb Exemplar_known l = true -> forallb Exemplar_known k = true ->
  matched (fun x y => agree (equalExemplars x y cfg)) l k = true
  <-> exists k', k ≡ₚ k' /\ Forall2 (sameExemplar cfg) l k'.
Proof.
  intros Hl Hk. apply forallb_Forall in Hl, Hk. split.
  - intros Hm. apply matched_Forall2 in Hm as (k' & Hp & HF).
    exists k'. split; [done|].
    assert (Hk' : Forall (fun x => Exemplar_known x = true) k') by (by rewrite <- Hp).
    clear Hp Hk. induction HF as [|x y l k' Hxy HF IH]; [constructor|].
    apply Forall_cons in Hl as [Hx Hl]. apply Forall_cons in Hk' as [Hy Hk'].
    constructor; [|by apply IH].
    apply (agree_equalExemplars cfg x y); [by left|done].
  - intros (k' & Hp & HF).
    apply (Forall2_matched _ (fun x => Exemplar_known x = true)) with (B' := k');
      [| |done|done|done|].
    + intros x y Hx Hy. by apply agree_exemplars_sym.
    + intros x y z Hx Hy Hz. by apply agree_exemplars_trans.
    + assert (Hk' : Forall (fun x => Exemplar_known x = true) k') by (by rewrite <- Hp).
      clear Hp Hk. induction HF as [|x y l k' Hxy HF IH]; [constructor|].
      apply Forall_cons in Hl as [Hx Hl]. apply Forall_cons in Hk' as [Hy Hk'].
      constructor; [|by apply IH].
      apply (agree_equalExemplars cfg x y); [by left|done].
Qed.

End DeclarativeExemplars.

(** X14. Two data points whose exemplars' filtered attributes all have
    one of the eight kinds compare equal exactly when their attribute sets
    are equal, their start times and times are the same unless timestamps
    are ignored, their values are [==] unless values are ignored, and,
    unless exemplars are ignored, the exemplars of one are a rearrangement
    of the exemplars of the other up to the equality of exemplars. *)
Theorem equalDataPoints_field_by_field {E : External} {N} `{NumberLaws N}
    (a b : DataPoint.t N) (cfg : config) :
  DataPoint_known a = true -> DataPoint_known b = true ->
  equalDataPoints a b cfg = Ok [] <->
  Set_Equals (DataPoint.Attributes a) (DataPoint.Attributes b) = true
  /\ (ignoreTimestamp cfg = false ->
      DataPoint.StartTime a = DataPoint.StartTime b
      /\ DataPoint.Time a = DataPoint.Time b)
  /\ (ignoreValue cfg = false -> go_eqb (DataPoint.Value a) (DataPoint.Value b) = true)
  /\ (ignoreExemplars cfg = false ->
      exists l, DataPoint.Exemplars b ≡ₚ l
                /\ Forall2 (sameExemplar cfg) (DataPoint.Exemplars a) l).
Proof.
  intros Ha Hb.
  destruct (equalDataPoints_known cfg a b Ha) as (r & -> & Hr).
  unfold sameDataPoint, sameTimes, sameExemplars in Hr.
  rewrite !Time_Equal_eq in Hr.
  assert (Hm := matched_exemplars cfg _ _ Ha Hb).
  split.
  - intros [= ->]. destruct Hr as [Hr _]. specialize (Hr eq_refl).
    destruct Hr as (? & ? & ? & Hex). tauto.
  - intros (? & ? & ? & Hex). f_equal. apply Hr. tauto.
Qed.

(** The scenario's data point against a copy whose exemplars are the same
    two exemplars in the other order. *)
Lemma equalDataPoints_field_by_field_witness :
  equalDataPoints (E:=Reference.external)
    {| DataPoint.Attributes := [Examples.method_GET] : @Set_ Reference.external;
       DataPoint.StartTime := 0%Z; DataPoint.Time := 1%Z; DataPoint.Value := 5%Z;
       DataPoint.Exemplars := [MoreExamples.plainExemplar; Examples.exemplar] |}
    {| DataPoint.Attributes := [Examples.method_GET] : @Set_ Reference.external;
       DataPoint.StartTime := 0%Z; DataPoint.Time := 1%Z; DataPoint.Value := 5%Z;
       DataPoint.Exemplars := [Examples.exemplar; MoreExamples.plainExemplar] |}
    Examples.compareAll = Ok [].
Proof.
  apply (equalDataPoints_field_by_field (E:=Reference.external)); [reflexivity..|].
  split; [reflexivity|]. split; [done|]. split; [reflexivity|]. intros _.
  exists [MoreExamples.plainExemplar; Examples.exemplar]. split; [apply perm_swap|].
  repeat constructor.
Defined.

(** ** Aggregations of other types, buckets, and the text of a difference *)

(** X15. An aggregation of a type outside the eight never compares equal
    to anything, itself included: on either side it yields exactly one
    reason, and a metric that holds one is not equal to itself. *)
Theorem unknown_aggregation_never_equal {E : External} (name : string) (cfg : config) :
  (forall b, exists reason,
      equalAggregations (Some (OtherAggregation name)) b cfg = Ok [reason])
  /\ (forall a, exists reason,
         equalAggregations a (Some (OtherAggregation name)) cfg = Ok [reason])
  /\ (forall m : Metrics.t,
         Metrics.Data m = Some (OtherAggregation name) -> equalMetrics m m cfg <> Ok []).
Proof.
  assert (Hleft : forall b, exists reason,
             equalAggregations (Some (OtherAggregation name)) b cfg = Ok [reason]).
  { intros [[w|w|w|w|w|w|w|w|m]|];
      cbn [equalAggregations TypeOf reflectType_eqb negb]; try (eexists; reflexivity).
    destruct (name =? m)%string; cbn [negb]; eexists; reflexivity. }
  split; [exact Hleft|]. split.
  - intros [[v|v|v|v|v|v|v|v|n]|];
      cbn [equalAggregations TypeOf reflectType_eqb negb]; try (eexists; reflexivity).
    destruct (n =? name)%string; cbn [negb]; eexists; reflexivity.
  - intros m Hdata. unfold equalMetrics. rewrite Hdata.
    destruct (Hleft (Some (OtherAggregation name))) as (reason & ->).
    run_outcome. intros [= Heq]. revert Heq.
    rewrite appendUnder_nil. by intros [[=] _].
Qed.

Lemma unknown_aggregation_never_equal_witness :
  equalMetrics (E:=Reference.external)
    {| Metrics.Name := "requests"; Metrics.Description := ""; Metrics.Unit := "";
       Metrics.Data := Some (OtherAggregation "custom.Aggregation") |}
    {| Metrics.Name := "requests"; Metrics.Description := ""; Metrics.Unit := "";
       Metrics.Data := Some (OtherAggregation "custom.Aggregation") |}
    Examples.compareAll <> Ok [].
Proof.
  destruct (unknown_aggregation_never_equal (E:=Reference.external)
              "custom.Aggregation" Examples.compareAll) as (_ & _ & Hm).
  apply Hm. reflexivity.
Defined.

Lemma equalSlices_uint64 (a b : list uint64) : equalSlices a b = true <-> a = b.
Proof.
  rewrite equalSlices_Forall2, list_eq_Forall2.
  split; intros HF; (eapply Forall2_impl; [exact HF|]); intros x y; apply N.eqb_eq.
Qed.

(** X16. [equalExponentialBuckets] yields no reason exactly when the two
    buckets are identical, offset and counts in order, and it never
    consults the policy; it yields at most two reasons. *)
Theorem equalExponentialBuckets_identical {E : External} (a b : ExponentialBucket.t)
    (cfg : config) :
  (equalExponentialBuckets a b cfg = [] <-> a = b)
  /\ (forall cfg', equalExponentialBuckets a b cfg' = equalExponentialBuckets a b cfg)
  /\ length (equalExponentialBuckets a b cfg) <= 2.
Proof.
  split; [|split; [done|]].
  - rewrite equalExponentialBuckets_nil. unfold sameExponentialBucket.
    rewrite equalSlices_uint64. unfold go_eqb, int64_comparable.
    destruct a as [oa ca], b as [ob cb]; cbn. rewrite Z.eqb_eq.
    split; [by intros [-> ->] | by intros [= -> ->]].
  - unfold equalExponentialBuckets, appendIf.
    repeat match goal with |- context [if ?c then _ else _] => destruct c end;
      cbn; lia.
Qed.

(** ** The text of a difference *)

Lemma append_assoc (s t u : string) : (s +:+ t) +:+ u = s +:+ (t +:+ u).
Proof.
  induction s as [|c s IH]; [done|].
  change (String c ((s +:+ t) +:+ u) = String c (s +:+ (t +:+ u))). by f_equal.
Qed.

Lemma append_empty_r (s : string) : s +:+ "" = s.
Proof.
  induction s as [|c s IH]; [done|].
  change (String c (s +:+ "") = String c s). by f_equal.
Qed.

Lemma fold_left_lines {T} (f : T -> string) (l : list T) : forall init,
  fold_left (fun msg v => msg +:+ (f v +:+ nl)) l init
  = init +:+ fold_right (fun v rest => f v +:+ nl +:+ rest) "" l.
Proof.
  induction l as [|v l IH]; intros init; cbn [fold_left fold_right].
  - by rewrite append_empty_r.
  - by rewrite IH, !append_assoc.
Qed.

(** X17. The text [compareDiff] builds: empty when nothing is left on
    either side; otherwise the elements missing from the actual value, one
    per line under "missing expected values:", followed by the elements
    the actual value has in excess, one per line under "unexpected
    additional values:", each part present only when it has elements. *)
Theorem compareDiff_text {E : External} {T} (extraExpected extraActual : list T) :
  compareDiff extraExpected extraActual
  = (match extraExpected with
     | [] => ""
     | _ => "missing expected values:" +:+ nl +:+ formatted_lines extraExpected
     end)
    +:+ (match extraActual with
         | [] => ""
         | _ => "unexpected additional values:" +:+ nl +:+ formatted_lines extraActual
         end).
Proof.
  unfold compareDiff, formatted_lines.
  destruct extraExpected as [|x ea], extraActual as [|y eb];
    cbn [length Nat.eqb Nat.ltb Nat.leb andb].
  - reflexivity.
  - rewrite fold_left_lines. cbn [String.append]. by rewrite append_assoc.
  - rewrite fold_left_lines. cbn [String.append]. by rewrite append_assoc, append_empty_r.
  - rewrite !fold_left_lines. cbn [String.append]. by rewrite !append_assoc.
Qed.

(** ** The pairs the matcher makes *)

Section MatchingPairs.
Context {T : Type}.

Lemma remove_firstM_split (p : T -> outcome bool) (B B' : list T) :
  remove_firstM p B = Ok (Some B') ->
  exists l1 y l2, B = l1 ++ y :: l2 /\ B' = l1 ++ l2 /\ p y = Ok true.
Proof.
  revert B'. induction B as [|z B IH]; intros B'; simpl; [discriminate|].
  destruct (p z) as [[|]|m] eqn:Hp; simpl.
  - intros [= <-]. by exists [], z, B.
  - destruct (remove_firstM p B) as [[B1|]|m]; simpl; try discriminate.
    intros [= <-]. destruct (IH B1 eq_refl) as (l1 & y & l2 & -> & -> & Hy).
    by exists (z :: l1), y, l2.
  - discriminate.
Qed.

Lemma greedyM_pairs (equal : T -> T -> outcome bool) (A : list T) :
  forall B extraA extraB,
  greedyM equal A B = Ok (extraA, extraB) ->
  exists pairs : list (T * T),
    A ≡ₚ extraA ++ pairs.*1 /\ B ≡ₚ extraB ++ pairs.*2
    /\ Forall (fun xy => equal xy.1 xy.2 = Ok true) pairs.
Proof.
  induction A as [|a A IH]; intros B extraA extraB Hg.
  - injection Hg as <- <-. exists []. cbn [fmap list_fmap].
    split; [done|]. split; [by rewrite app_nil_r | constructor].
  - cbn [greedyM] in Hg.
    destruct (remove_firstM (equal a) B) as [[B'|]|] eqn:Hr; simpl in Hg;
      [| |discriminate].
    + apply remove_firstM_split in Hr as (l1 & y & l2 & -> & -> & Hy).
      destruct (IH _ _ _ Hg) as (pairs & HA & HB & HF).
      exists ((a, y) :: pairs). cbn [fmap list_fmap fst snd]. split; [|split].
      * rewrite <- Permutation_middle. by constructor.
      * rewrite <- !Permutation_middle. by constructor.
      * by constructor.
    + destruct (greedyM equal A B) as [[ea eb]|] eqn:Hg'; simpl in Hg; [|discriminate].
      injection Hg as <- <-. destruct (IH _ _ _ Hg') as (pairs & HA & HB & HF).
      exists pairs. split; [|done]. cbn [app]. by constructor.
Qed.

End MatchingPairs.

(** X18. Whenever [diffSlices] returns, what it does not report is
    paired off one to one: there is a list of pairs, each satisfying the
    predicate, such that [a] is the unmatched elements of [a] together
    with the first components and [b] is the unmatched elements of [b]
    together with the second components, up to order. *)
Theorem diffSlices_pairs_the_rest {T} (equal : T -> T -> outcome bool)
    (a b extraA extraB : list T) :
  diffSlices a b equal = Ok (extraA, extraB) ->
  exists pairs : list (T * T),
    a ≡ₚ extraA ++ pairs.*1 /\ b ≡ₚ extraB ++ pairs.*2
    /\ Forall (fun xy => equal xy.1 xy.2 = Ok true) pairs.
Proof. rewrite diffSlices_greedyM. apply greedyM_pairs. Qed.

Lemma diffSlices_pairs_the_rest_witness :
  exists pairs : list (nat * nat),
    [1; 2; 2; 3] ≡ₚ [2; 3] ++ pairs.*1 /\ [2; 4; 1] ≡ₚ [4] ++ pairs.*2
    /\ Forall (fun xy => Ok (xy.1 =? xy.2) = Ok true) pairs.
Proof.
  apply (diffSlices_pairs_the_rest (fun x y => Ok (x =? y)) [1; 2; 2; 3] [2; 4; 1]).
  reflexivity.
Defined.

(** ** Collections are compared as multisets *)

Section MultisetFacts.
Context {T : Type} (equal : T -> T -> outcome (list string)) (known : T -> bool).
Hypothesis agree_sym : forall x y, known x = true -> known y = true ->
  agree (equal x y) = true -> agree (equal y x) = true.
Hypothesis agree_trans : forall x y z,
  known x = true -> known y = true -> known z = true ->
  agree (equal x y) = true -> agree (equal y z) = true -> agree (equal x z) = true.

Lemma matched_same_multiset (A B : list T) :
  forallb known A = true -> forallb known B = true ->
  matched (fun x y => agree (equal x y)) A B = true <-> same_multiset equal A B.
Proof using agree_sym agree_trans.
  rewrite !forallb_Forall. intros HA HB. unfold same_multiset. split.
  - intros Hm. apply matched_Forall2 in Hm as (B' & Hp & HF).
    exists B'. split; [done|]. eapply Forall2_impl; [exact HF|].
    intros x y. apply agree_inv.
  - intros (B' & Hp & HF).
    apply (Forall2_matched _ (fun x => known x = true)) with (B' := B'); try done.
    eapply Forall2_impl; [exact HF|]. intros x y. apply agree_inv.
Qed.

End MultisetFacts.

Lemma uint8_eqb_eq (x y : N) : go_eqb x y = true <-> x = y.
Proof. apply N.eqb_eq. Qed.

Lemma bool_eqb_eq (x y : bool) : go_eqb x y = true <-> x = y.
Proof. apply Bool.eqb_true_iff. Qed.

Lemma empty_iff_same (r : list string) (P Q : Prop) :
  (r = [] <-> P) -> (P <-> Q) -> Ok r = Ok [] <-> Q.
Proof. intros H1 H2. rewrite <- H2, <- H1. split; [by intros [= ->] | by intros ->]. Qed.

Section AggregationMultisets.
Context `{External} `{!ExternalPER _} (N : Type) `{NumberLaws N} (cfg : config).

Lemma aggregations_as_multisets_laws : aggregations_as_multisets N cfg.
Proof.
  split; [|split; [|split]].
  - intros a b Ha Hb. destruct (equalGauges_known cfg a b Ha) as (r & -> & Hr).
    apply (empty_iff_same _ _ _ Hr). unfold sameGauge.
    apply (matched_same_multiset _ DataPoint_known); try done.
    + apply agree_dataPoints_sym.
    + apply agree_dataPoints_trans.
  - intros a b Ha Hb. destruct (equalSums_known cfg a b Ha) as (r & -> & Hr).
    apply (empty_iff_same _ _ _ Hr). unfold sameSum.
    rewrite uint8_eqb_eq, bool_eqb_eq.
    rewrite (matched_same_multiset _ DataPoint_known); try done.
    + apply agree_dataPoints_sym.
    + apply agree_dataPoints_trans.
  - intros a b Ha Hb. destruct (equalHistograms_known cfg a b Ha) as (r & -> & Hr).
    apply (empty_iff_same _ _ _ Hr). unfold sameHistogram.
    rewrite uint8_eqb_eq.
    rewrite (matched_same_multiset _ HistogramDataPoint_known); try done.
    + apply agree_histogramDataPoints_sym.
    + apply agree_histogramDataPoints_trans.
  - intros a b Ha Hb.
    destruct (equalExponentialHistograms_known cfg a b Ha) as (r & -> & Hr).
    apply (empty_iff_same _ _ _ Hr). unfold sameExponentialHistogram.
    rewrite uint8_eqb_eq.
    rewrite (matched_same_multiset _ ExponentialHistogramDataPoint_known); try done.
    + apply agree_exponentialHistogramDataPoints_sym.
    + apply agree_exponentialHistogramDataPoints_trans.
Qed.

End AggregationMultisets.

(** X19. What the comments of the comparators promise: on trees whose
    filtered attributes all have one of the eight kinds, two gauges, sums,
    histograms or exponential histograms compare equal exactly when their
    temporality and monotonicity are the same and the data points of one
    are a rearrangement of those of the other up to the comparison of data
    points; two scopes exactly when their [Scope] is the same and their
    metrics are such a rearrangement; two resource metrics exactly when
    their resources are equal and their scopes are such a rearrangement.
    The external equality of attribute sets and of resources is taken
    symmetric and transitive. *)
Theorem collections_compared_as_multisets {E : External} {HE : ExternalPER E}
    (cfg : config) :
  aggregations_as_multisets int64 cfg
  /\ aggregations_as_multisets float64 cfg
  /\ (forall a b : ScopeMetrics.t,
        ScopeMetrics_known a = true -> ScopeMetrics_known b = true ->
        (equalScopeMetrics a b cfg = Ok [] <->
         ScopeMetrics.Scope a = ScopeMetrics.Scope b
         /\ same_multiset (fun x y => equalMetrics x y cfg)
              (ScopeMetrics.Metrics a) (ScopeMetrics.Metrics b)))
  /\ (forall a b : ResourceMetrics.t,
        ResourceMetrics_known a = true -> ResourceMetrics_known b = true ->
        (equalResourceMetrics a b cfg = Ok [] <->
         Resource_Equal (ResourceMetrics.Resource a) (ResourceMetrics.Resource b) = true
         /\ same_multiset (fun x y => equalScopeMetrics x y cfg)
              (ResourceMetrics.ScopeMetrics a) (ResourceMetrics.ScopeMetrics b))).
Proof.
  split; [apply aggregations_as_multisets_laws; apply _|].
  split; [apply aggregations_as_multisets_laws; apply _|].
  split.
  - intros a b Ha Hb. destruct (equalScopeMetrics_known cfg a b Ha) as (r & -> & Hr).
    apply (empty_iff_same _ _ _ Hr). unfold sameScopeMetrics.
    rewrite Scope_eqb_eq.
    rewrite (matched_same_multiset _ Metrics_known); try done.
    + by apply agree_metrics_sym.
    + by apply agree_metrics_trans.
  - intros a b Ha Hb. destruct (equalResourceMetrics_known cfg a b Ha) as (r & -> & Hr).
    apply (empty_iff_same _ _ _ Hr). unfold sameResourceMetrics.
    rewrite (matched_same_multiset _ ScopeMetrics_known); try done.
    + by apply agree_scopeMetrics_sym.
    + by apply agree_scopeMetrics_trans.
Qed.

(** Two scopes holding the same two metrics in different orders. *)
Lemma collections_compared_as_multisets_witness :
  equalScopeMetrics
    (Examples.scopeOf [Examples.metric "a" 1; Examples.metric "b" 2])
    (Examples.scopeOf [Examples.metric "b" 2; Examples.metric "a" 1])
    Examples.compareAll = Ok [].
Proof.
  destruct (collections_compared_as_multisets (E:=Reference.external)
              (HE:=Reference_external_PER) Examples.compareAll) as (_ & _ & Hsm & _).
  apply Hsm; [reflexivity..|]. split; [reflexivity|].
  exists [Examples.metric "a" 1; Examples.metric "b" 2].
  split; [apply perm_swap|]. by repeat constructor.
Defined.
